(** * build_SALT_data: the chunked, transactional bulk load

    A shallow embedding of [src/my_agent/build_SALT_data.py]: the schema
    statements, the chunked loader [insert_dataframe_in_chunks] and the
    module-level load sequence, over an abstract database connection whose
    calls are recorded in a trace. *)

From Stdlib Require Import ZArith List String Ascii Bool Arith Lia.
From Stdlib Require Import DecimalString.
From Stdlib Require DecimalNat DecimalFacts.
Import ListNotations.

Local Open Scope string_scope.
Local Open Scope list_scope.

(** ** Python values held in a cell of a DataFrame row *)

Inductive value : Type :=
| PyStr (s : string)
| PyDate (year month day : nat)
| PyTime (hour minute second microsecond : nat)
| PyNone.

(** A row is the plain tuple [itertuples(index=False, name=None)] yields. *)
Definition row : Type := list value.

Record DataFrame : Type := mkDataFrame {
  df_columns : list string;
  df_rows : list row
}.

Definition itertuples (df : DataFrame) : list row := df_rows df.

(** ** SQL statements of the script, as syntax *)

Inductive table : Type :=
| I_SalesDocument
| I_SalesDocumentItem
| I_Customer
| I_AddrOrgNamePostalAddress.

(** [FOREIGN KEY (fk_column) REFERENCES fk_parent(fk_parent_column)] *)
Record foreign_key : Type := FOREIGN_KEY {
  fk_column : string;
  fk_parent : table;
  fk_parent_column : string
}.

Inductive sql : Type :=
| PragmaForeignKeysOn
| DropTableIfExists (t : table)
| CreateTable (t : table) (columns : list string) (primary_key : list string)
              (foreign_keys : list foreign_key)
| BeginTransaction
| Commit
| Rollback
| InsertOrIgnore (t : table) (columns : list string).

(** ** Exceptions and results

    [exn] ranges over the instances of Python's [Exception], the ones an
    [except Exception] clause catches. *)

Record exn : Type := Exception {
  exn_class : string;
  exn_message : string
}.

Inductive result (A : Type) : Type :=
| Returned (a : A)
| Raised (e : exn).
Arguments Returned {A} a.
Arguments Raised {A} e.

(** ** The calls the script makes, and their trace *)

Inductive event : Type :=
| Execute (statement : sql)
| ExecuteMany (statement : sql) (rows : list row)
| ConnCommit
| ConnClose
| ReadParquet (path : string) (columns : list string)
| AsTypeStr (label : string)
| Print (line : string).

(** One call together with the exception it raised, if any. The rows of an
    [ExecuteMany] are the content of the buffer at the time of the call. *)
Record step : Type := mkStep {
  step_event : event;
  step_raised : option exn
}.

(** The database connection object: each method maps the connection state
    to the next state and to the exception raised, if any. *)
Class Connection (Conn : Type) : Type := {
  execute : sql -> Conn -> Conn * option exn;
  executemany : sql -> list row -> Conn -> Conn * option exn;
  commit : Conn -> Conn * option exn;
  close : Conn -> Conn * option exn
}.

(** ** A state, trace and exception monad for the script *)

Record run (Conn A : Type) : Type := mkRun {
  trace : list step;
  final : Conn;
  outcome : result A
}.
Arguments mkRun {Conn A} trace final outcome.
Arguments trace {Conn A} r.
Arguments final {Conn A} r.
Arguments outcome {Conn A} r.

Definition M (Conn A : Type) : Type := Conn -> run Conn A.

Definition ret {Conn A} (a : A) : M Conn A :=
  fun c => mkRun [] c (Returned a).

Definition bind {Conn A B} (m : M Conn A) (f : A -> M Conn B) : M Conn B :=
  fun c =>
    let r := m c in
    match outcome r with
    | Returned a =>
        let r' := f a (final r) in
        mkRun (trace r ++ trace r') (final r') (outcome r')
    | Raised e => mkRun (trace r) (final r) (Raised e)
    end.

(** [try: body  except Exception: handler; raise]: the handler runs on the
    state the body left, and the caught exception is raised again when the
    handler returns; an exception of the handler replaces it. *)
Definition try_except_reraise {Conn A} (body : M Conn A) (handler : M Conn unit)
  : M Conn A :=
  fun c =>
    let r := body c in
    match outcome r with
    | Returned a => r
    | Raised e =>
        let r' := handler (final r) in
        mkRun (trace r ++ trace r') (final r')
              match outcome r' with
              | Returned _ => Raised e
              | Raised e' => Raised e'
              end
    end.

Declare Scope script_scope.
Delimit Scope script_scope with script.
Notation "x <- m ;; k" := (bind m (fun x => k))
  (at level 100, m at next level, right associativity) : script_scope.
Notation "m ;; k" := (bind m (fun _ => k))
  (at level 100, right associativity) : script_scope.
Local Open Scope script_scope.

(** A method call on the connection, recorded in the trace. *)
Definition call {Conn} (ev : event) (method : Conn -> Conn * option exn)
  : M Conn unit :=
  fun c =>
    let (c', raised) := method c in
    mkRun [mkStep ev raised] c'
          match raised with
          | None => Returned tt
          | Some e => Raised e
          end.

Definition conn_execute {Conn} `{Connection Conn} (statement : sql) : M Conn unit :=
  call (Execute statement) (execute statement).

Definition conn_executemany {Conn} `{Connection Conn}
  (statement : sql) (rows : list row) : M Conn unit :=
  call (ExecuteMany statement rows) (executemany statement rows).

Definition conn_commit {Conn} `{Connection Conn} : M Conn unit :=
  call ConnCommit commit.

Definition conn_close {Conn} `{Connection Conn} : M Conn unit :=
  call ConnClose close.

Definition print {Conn} (line : string) : M Conn unit :=
  fun c => mkRun [mkStep (Print line) None] c (Returned tt).

(** ** 1. File paths and column lists *)

Definition salesdocuments_parquet : string := "parquet_files/I_SalesDocument_train.parquet".
Definition salesdoc_items_parquet : string := "parquet_files/I_SalesDocumentItem_train.parquet".
Definition customers_parquet : string := "parquet_files/I_Customer.parquet".
Definition addresses_parquet : string := "parquet_files/I_AddrOrgNamePostalAddress.parquet".

Definition sqlite_db_file : string := "salt_data.sqlite".

Definition CHUNK_SIZE : Z := 10000.

Definition sales_doc_columns : list string :=
  [ "SALESDOCUMENT"; "SALESOFFICE"; "SALESGROUP"; "CUSTOMERPAYMENTTERMS";
    "SHIPPINGCONDITION"; "SALESDOCUMENTTYPE"; "SALESORGANIZATION";
    "DISTRIBUTIONCHANNEL"; "ORGANIZATIONDIVISION"; "BILLINGCOMPANYCODE";
    "TRANSACTIONCURRENCY"; "INCOTERMSCLASSIFICATION"; "CREATIONDATE";
    "CREATIONTIME" ].

Definition sales_item_columns : list string :=
  [ "SALESDOCUMENT"; "SALESDOCUMENTITEM"; "PLANT"; "SHIPPINGPOINT";
    "SALESDOCUMENTITEMCATEGORY"; "PRODUCT"; "SOLDTOPARTY"; "SHIPTOPARTY";
    "BILLTOPARTY"; "PAYERPARTY"; "INCOTERMSCLASSIFICATION" ].

Definition customer_columns : list string := [ "CUSTOMER"; "ADDRESSID" ].

Definition address_columns : list string :=
  [ "ADDRESSID"; "ADDRESSREPRESENTATIONCODE"; "COUNTRY"; "REGION" ].

Definition table_name (t : table) : string :=
  match t with
  | I_SalesDocument => "I_SalesDocument"
  | I_SalesDocumentItem => "I_SalesDocumentItem"
  | I_Customer => "I_Customer"
  | I_AddrOrgNamePostalAddress => "I_AddrOrgNamePostalAddress"
  end.

(** ** 2. The schema statements, in the order the script executes them *)

Definition drop_statements : list sql :=
  [ DropTableIfExists I_SalesDocumentItem;
    DropTableIfExists I_SalesDocument;
    DropTableIfExists I_Customer;
    DropTableIfExists I_AddrOrgNamePostalAddress ].

Definition create_I_SalesDocument : sql :=
  CreateTable I_SalesDocument sales_doc_columns [ "SALESDOCUMENT" ] [].

Definition create_I_SalesDocumentItem : sql :=
  CreateTable I_SalesDocumentItem sales_item_columns
    [ "SALESDOCUMENT"; "SALESDOCUMENTITEM" ]
    [ FOREIGN_KEY "SALESDOCUMENT" I_SalesDocument "SALESDOCUMENT";
      FOREIGN_KEY "SOLDTOPARTY" I_Customer "CUSTOMER";
      FOREIGN_KEY "SHIPTOPARTY" I_Customer "CUSTOMER";
      FOREIGN_KEY "BILLTOPARTY" I_Customer "CUSTOMER";
      FOREIGN_KEY "PAYERPARTY" I_Customer "CUSTOMER" ].

Definition create_I_Customer : sql :=
  CreateTable I_Customer customer_columns [ "CUSTOMER" ]
    [ FOREIGN_KEY "ADDRESSID" I_AddrOrgNamePostalAddress "ADDRESSID" ].

Definition create_I_AddrOrgNamePostalAddress : sql :=
  CreateTable I_AddrOrgNamePostalAddress address_columns [ "ADDRESSID" ] [].

Definition create_statements : list sql :=
  [ create_I_SalesDocument;
    create_I_SalesDocumentItem;
    create_I_Customer;
    create_I_AddrOrgNamePostalAddress ].

Definition schema_statements : list sql :=
  PragmaForeignKeysOn :: drop_statements ++ create_statements.

(** *** Order of the schema statements *)

Definition table_eqb (a b : table) : bool :=
  match a, b with
  | I_SalesDocument, I_SalesDocument
  | I_SalesDocumentItem, I_SalesDocumentItem
  | I_Customer, I_Customer
  | I_AddrOrgNamePostalAddress, I_AddrOrgNamePostalAddress => true
  | _, _ => false
  end.

(** The child-to-parent pairs the [CREATE TABLE] statements of a script declare. *)
Fixpoint references (script : list sql) : list (table * table) :=
  match script with
  | [] => []
  | CreateTable child _ _ fks :: script' =>
      map (fun fk => (child, fk_parent fk)) fks ++ references script'
  | _ :: script' => references script'
  end.

Definition is_drop_of (t : table) (s : sql) : bool :=
  match s with DropTableIfExists t' => table_eqb t t' | _ => false end.

Definition is_create_of (t : table) (s : sql) : bool :=
  match s with CreateTable t' _ _ _ => table_eqb t t' | _ => false end.

(** Position of the first statement of a script that satisfies [p]. *)
Fixpoint position (p : sql -> bool) (script : list sql) : option nat :=
  match script with
  | [] => None
  | s :: script' =>
      if p s then Some 0
      else match position p script' with
           | Some n => Some (S n)
           | None => None
           end
  end.

Definition before (p q : sql -> bool) (script : list sql) : bool :=
  match position p script, position q script with
  | Some i, Some j => Nat.ltb i j
  | _, _ => false
  end.

(** Every child table is dropped before the parent it references. *)
Definition drops_children_first (script : list sql) : bool :=
  forallb (fun cp => before (is_drop_of (fst cp)) (is_drop_of (snd cp)) script)
          (references script).

(** Every parent table is created before the child that references it. *)
Definition creates_parents_first (script : list sql) : bool :=
  forallb (fun cp => before (is_create_of (snd cp)) (is_create_of (fst cp)) script)
          (references script).

Definition all_tables : list table :=
  [ I_SalesDocument; I_SalesDocumentItem; I_Customer; I_AddrOrgNamePostalAddress ].

(** Every table is dropped before any table is created. *)
Definition drops_precede_creates (script : list sql) : bool :=
  forallb (fun d => forallb (fun c => before (is_drop_of d) (is_create_of c) script)
                            all_tables)
          all_tables.

Section SchemaDefiner.
Context {Conn : Type} `{Connection Conn}.

Fixpoint execute_all (statements : list sql) : M Conn unit :=
  match statements with
  | [] => ret tt
  | s :: statements' => conn_execute s ;; execute_all statements'
  end.

Definition define_schema : M Conn unit :=
  execute_all schema_statements ;;
  conn_commit.

End SchemaDefiner.

(** ** 3. The chunked loader *)

Section ChunkedLoader.
Context {Conn : Type} `{Connection Conn}.

(** Python's [len(buffer)], an unbounded integer. *)
Definition len (buffer : list row) : Z := Z.of_nat (List.length buffer).

(** The [for row in tqdm(all_rows)] loop, with the two locals it updates;
    [tqdm] only reports the progress of the iteration. *)
Fixpoint for_rows (all_rows : list row) (insert_statement : sql) (chunk_size : Z)
  (buffer : list row) (count_inserted : Z) : M Conn (list row * Z) :=
  match all_rows with
  | [] => ret (buffer, count_inserted)
  | row :: all_rows' =>
      let buffer := buffer ++ [row] in
      if (len buffer =? chunk_size)%Z then
        conn_executemany insert_statement buffer ;;
        for_rows all_rows' insert_statement chunk_size []
                 (count_inserted + chunk_size)%Z
      else
        for_rows all_rows' insert_statement chunk_size buffer count_inserted
  end.

(** [if buffer:], the insert of the leftover rows. *)
Definition insert_leftover (insert_statement : sql)
  (buffer : list row) (count_inserted : Z) : M Conn (list row * Z) :=
  match buffer with
  | [] => ret (buffer, count_inserted)
  | _ :: _ =>
      conn_executemany insert_statement buffer ;;
      ret ([], (count_inserted + len buffer)%Z)
  end.

Definition insert_dataframe_in_chunks (df : DataFrame) (insert_statement : sql)
  (chunk_size : Z) : M Conn Z :=
  let all_rows := itertuples df in
  conn_execute BeginTransaction ;;
  try_except_reraise
    (st <- for_rows all_rows insert_statement chunk_size [] 0%Z ;;
     st <- insert_leftover insert_statement (fst st) (snd st) ;;
     conn_execute Commit ;;
     ret (snd st))
    (conn_execute Rollback).

End ChunkedLoader.

(** ** 4. Reading the source files and normalising the date columns *)

(** Python's [str] on a non-negative [int]. *)
Definition decimal (n : nat) : string := NilZero.string_of_uint (Nat.to_uint n).

(** Python's [str] on an [int]. *)
Definition str_of_int (z : Z) : string := NilZero.string_of_int (Z.to_int z).

Fixpoint zeros (n : nat) : string :=
  match n with
  | O => ""
  | S n' => String "0" (zeros n')
  end.

(** [s.zfill(width)] on a string of digits. *)
Definition zfill (width : nat) (s : string) : string :=
  zeros (width - String.length s) ++ s.

(** Modelled from the spec: Python's [str] on a cell value is CPython code,
    not part of [src/]. The spec (4.2, 8) asks for a canonical text form,
    [2024-03-01] for that native date; the layouts below are the ones of
    [str] on a [datetime.date] ([%04d-%02d-%02d]) and on a [datetime.time]
    ([%02d:%02d:%02d], followed by [.%06d] when the microsecond is not 0); a
    string is left as it is and [str(None)] is the text [None]. *)
Definition py_str (v : value) : string :=
  match v with
  | PyStr s => s
  | PyDate y m d =>
      zfill 4 (decimal y) ++ "-" ++ zfill 2 (decimal m) ++ "-" ++ zfill 2 (decimal d)
  | PyTime h mi s us =>
      zfill 2 (decimal h) ++ ":" ++ zfill 2 (decimal mi) ++ ":" ++ zfill 2 (decimal s)
      ++ (if Nat.eqb us 0 then "" else "." ++ zfill 6 (decimal us))
  | PyNone => "None"
  end.

(** Modelled from the spec: the element-wise conversion behind
    [Series.astype(str)] is pandas code, not part of [src/]. Every value of
    the column becomes the text [str] gives for it (4.2: a canonical text
    form), and a missing value stays missing, as pandas 3 has it (earlier
    versions turned it into the text [None]). *)
Definition astype_cell (v : value) : value :=
  match v with
  | PyNone => PyNone
  | _ => PyStr (py_str v)
  end.

(** Position of a column label in a list of labels. *)
Fixpoint index_of (label : string) (columns : list string) : option nat :=
  match columns with
  | [] => None
  | c :: columns' =>
      if String.eqb label c then Some 0
      else match index_of label columns' with
           | Some i => Some (S i)
           | None => None
           end
  end.

(** The row with [f] applied to the cell at position [i]. *)
Fixpoint update_cell (i : nat) (f : value -> value) (r : row) : row :=
  match r, i with
  | [], _ => []
  | v :: r', O => f v :: r'
  | v :: r', S i' => v :: update_cell i' f r'
  end.

(** [df[label] = df[label].astype(str)]; a label the frame does not have is
    a [KeyError]. *)
Definition astype_str (df : DataFrame) (label : string) : result DataFrame :=
  match index_of label (df_columns df) with
  | None => Raised (Exception "KeyError" label)
  | Some i =>
      Returned (mkDataFrame (df_columns df)
                  (map (update_cell i astype_cell) (df_rows df)))
  end.

Section LoadOrchestrator.
Context {Conn : Type} `{Connection Conn}.

(** [pd.read_parquet]: the content of the source files, which the script
    only reads. *)
Variable read_parquet : string -> list string -> result DataFrame.

Definition pd_read_parquet (path : string) (columns : list string)
  : M Conn DataFrame :=
  fun c =>
    match read_parquet path columns with
    | Returned df => mkRun [mkStep (ReadParquet path columns) None] c (Returned df)
    | Raised e => mkRun [mkStep (ReadParquet path columns) (Some e)] c (Raised e)
    end.

(** [df[label] = df[label].astype(str)] as a step of the script. *)
Definition df_astype_str (df : DataFrame) (label : string) : M Conn DataFrame :=
  fun c =>
    match astype_str df label with
    | Returned df' => mkRun [mkStep (AsTypeStr label) None] c (Returned df')
    | Raised e => mkRun [mkStep (AsTypeStr label) (Some e)] c (Raised e)
    end.

Definition load_addresses : M Conn unit :=
  print ("Reading " ++ addresses_parquet ++ "...") ;;
  df_addresses <- pd_read_parquet addresses_parquet address_columns ;;
  let insert_stmt := InsertOrIgnore I_AddrOrgNamePostalAddress address_columns in
  num_inserted <- insert_dataframe_in_chunks df_addresses insert_stmt CHUNK_SIZE ;;
  print ("Inserted " ++ str_of_int num_inserted
         ++ " rows into I_AddrOrgNamePostalAddress.").

Definition load_customers : M Conn unit :=
  print ("Reading " ++ customers_parquet ++ "...") ;;
  df_customers <- pd_read_parquet customers_parquet customer_columns ;;
  let insert_stmt := InsertOrIgnore I_Customer customer_columns in
  num_inserted <- insert_dataframe_in_chunks df_customers insert_stmt CHUNK_SIZE ;;
  print ("Inserted " ++ str_of_int num_inserted ++ " rows into I_Customer.").

Definition load_salesdocuments : M Conn unit :=
  print ("Reading " ++ salesdocuments_parquet ++ "...") ;;
  df_salesdocuments <- pd_read_parquet salesdocuments_parquet sales_doc_columns ;;
  df_salesdocuments <- df_astype_str df_salesdocuments "CREATIONDATE" ;;
  df_salesdocuments <- df_astype_str df_salesdocuments "CREATIONTIME" ;;
  let insert_stmt := InsertOrIgnore I_SalesDocument sales_doc_columns in
  num_inserted <- insert_dataframe_in_chunks df_salesdocuments insert_stmt CHUNK_SIZE ;;
  print ("Inserted " ++ str_of_int num_inserted ++ " rows into I_SalesDocument.").

Definition load_salesdocument_items : M Conn unit :=
  print ("Reading " ++ salesdoc_items_parquet ++ "...") ;;
  df_salesdocument_items <- pd_read_parquet salesdoc_items_parquet sales_item_columns ;;
  let insert_stmt := InsertOrIgnore I_SalesDocumentItem sales_item_columns in
  num_inserted <- insert_dataframe_in_chunks df_salesdocument_items insert_stmt CHUNK_SIZE ;;
  print ("Inserted " ++ str_of_int num_inserted ++ " rows into I_SalesDocumentItem.").

(** The four loads, in the order of the script. *)
Definition load_all : M Conn unit :=
  load_addresses ;;
  load_customers ;;
  load_salesdocuments ;;
  load_salesdocument_items.

(** The whole module, run on the connection [sqlite3.connect] returned. *)
Definition build_SALT_data : M Conn unit :=
  define_schema ;;
  load_all ;;
  conn_close ;;
  print ("Done! The SALT tables have been saved into " ++ sqlite_db_file).

End LoadOrchestrator.

(** ** The target store *)

(** Modelled from the spec: the comparison of two values of a key in the
    store (SQLite, not part of [src/]). Two texts are equal when they are the
    same text; a missing value (NULL) equals no value, not even another
    missing one, so that rows with a missing key are never duplicates of each
    other. *)
Definition value_eqb (a b : value) : bool :=
  match a, b with
  | PyStr s, PyStr s' => String.eqb s s'
  | PyDate y m d, PyDate y' m' d' => Nat.eqb y y' && Nat.eqb m m' && Nat.eqb d d'
  | PyTime h mi s us, PyTime h' mi' s' us' =>
      Nat.eqb h h' && Nat.eqb mi mi' && Nat.eqb s s' && Nat.eqb us us'
  | _, _ => false
  end.

Fixpoint key_eqb (k k' : list value) : bool :=
  match k, k' with
  | [], [] => true
  | v :: k1, v' :: k1' => value_eqb v v' && key_eqb k1 k1'
  | _, _ => false
  end.

Module Store.

(** Modelled from the spec: the relational target store is SQLite behind
    Python's [sqlite3], not part of [src/]. A table keeps what its
    [CREATE TABLE] declared, the columns, the primary key and the foreign
    keys, and its rows in the order of their insertion, each with its entry
    in the index of the primary key. *)
Record relation : Type := mkRelation {
  rel_columns : list string;
  rel_key : list string;
  rel_foreign_keys : list foreign_key;
  rel_rows : list (list value * row)
}.

(** Modelled from the spec: the tables of the database file (not part of
    [src/]), each of the four present or not. *)
Record tables : Type := mkTables {
  tab_I_SalesDocument : option relation;
  tab_I_SalesDocumentItem : option relation;
  tab_I_Customer : option relation;
  tab_I_AddrOrgNamePostalAddress : option relation
}.

Definition lookup (ts : tables) (t : table) : option relation :=
  match t with
  | I_SalesDocument => tab_I_SalesDocument ts
  | I_SalesDocumentItem => tab_I_SalesDocumentItem ts
  | I_Customer => tab_I_Customer ts
  | I_AddrOrgNamePostalAddress => tab_I_AddrOrgNamePostalAddress ts
  end.

Definition set_table (t : table) (r : option relation) (ts : tables) : tables :=
  match t with
  | I_SalesDocument =>
      mkTables r (tab_I_SalesDocumentItem ts) (tab_I_Customer ts)
               (tab_I_AddrOrgNamePostalAddress ts)
  | I_SalesDocumentItem =>
      mkTables (tab_I_SalesDocument ts) r (tab_I_Customer ts)
               (tab_I_AddrOrgNamePostalAddress ts)
  | I_Customer =>
      mkTables (tab_I_SalesDocument ts) (tab_I_SalesDocumentItem ts) r
               (tab_I_AddrOrgNamePostalAddress ts)
  | I_AddrOrgNamePostalAddress =>
      mkTables (tab_I_SalesDocument ts) (tab_I_SalesDocumentItem ts)
               (tab_I_Customer ts) r
  end.

(** Modelled from the spec: the state of the store behind the connection
    (not part of [src/]): the tables, the tables as they were when the open
    transaction began (5: at most one transaction is open at a time),
    whether referential integrity is enforced (6) and whether the connection
    has been closed. *)
Record database : Type := mkDatabase {
  db_store : tables;
  db_journal : option tables;
  db_foreign_keys : bool;
  db_closed : bool
}.

(** The tables a statement sees. *)
Definition db_tables (d : database) : table -> option relation :=
  lookup (db_store d).

Definition OperationalError (msg : string) : exn := Exception "OperationalError" msg.
Definition ProgrammingError (msg : string) : exn := Exception "ProgrammingError" msg.
Definition IntegrityError (msg : string) : exn := Exception "IntegrityError" msg.

Definition closed_error : exn :=
  ProgrammingError "Cannot operate on a closed database.".

Definition no_such_table (name : string) : exn :=
  OperationalError ("no such table: " ++ name).

Definition bindings_error (uses supplied : nat) : exn :=
  ProgrammingError ("Incorrect number of bindings supplied. The current statement uses "
                    ++ decimal uses ++ ", and there are " ++ decimal supplied
                    ++ " supplied.").

Definition unsupported_error (position : nat) : exn :=
  ProgrammingError ("Error binding parameter " ++ decimal position
                    ++ ": type 'datetime.time' is not supported").

Definition foreign_key_failed : exn := IntegrityError "FOREIGN KEY constraint failed".

(** A name between double quotes, as SQLite prints it. *)
Definition quoted (name : string) : string :=
  String (ascii_of_nat 34) name ++ String (ascii_of_nat 34) EmptyString.

(** The first refusal among the checks of a list, taken in order. *)
Fixpoint first_refusal {A : Type} (check : A -> option exn) (l : list A)
  : option exn :=
  match l with
  | [] => None
  | x :: l' =>
      match check x with
      | Some e => Some e
      | None => first_refusal check l'
      end
  end.

Definition known (columns : list string) (c : string) : bool :=
  existsb (String.eqb c) columns.

(** The first column name that repeats an earlier one. *)
Fixpoint duplicate (seen columns : list string) : option string :=
  match columns with
  | [] => None
  | c :: columns' =>
      if known seen c then Some c else duplicate (c :: seen) columns'
  end.

(** Modelled from the spec: what SQLite refuses in a [CREATE TABLE] (not
    part of [src/]): an empty or repeating column list, and a primary key or
    a foreign key on a column the table does not have. *)
Definition declaration_error (columns key : list string) (fks : list foreign_key)
  : option exn :=
  match columns with
  | [] => Some (OperationalError ("near " ++ quoted ")" ++ ": syntax error"))
  | _ :: _ =>
      match duplicate [] columns with
      | Some c => Some (OperationalError ("duplicate column name: " ++ c))
      | None =>
          match first_refusal
                  (fun c => if known columns c then None
                            else Some (OperationalError ("no such column: " ++ c)))
                  key with
          | Some e => Some e
          | None =>
              first_refusal
                (fun fk => if known columns (fk_column fk) then None
                           else Some (OperationalError
                                        ("unknown column " ++ quoted (fk_column fk)
                                         ++ " in foreign key definition")))
                fks
          end
      end
  end.

(** Modelled from the spec: the values [sqlite3] binds to the parameters of a
    statement (not part of [src/]): a text and a missing value as they are,
    a [datetime.date] as its ISO text, by the default adapter; a
    [datetime.time] has no adapter and is refused. *)
Definition supported (v : value) : bool :=
  match v with
  | PyTime _ _ _ _ => false
  | _ => true
  end.

Definition adapted (v : value) : value :=
  match v with
  | PyDate _ _ _ => PyStr (py_str v)
  | _ => v
  end.

(** The position, counted from [position], of the first value of a row that
    cannot be bound. *)
Fixpoint unsupported (position : nat) (r : row) : option nat :=
  match r with
  | [] => None
  | v :: r' => if supported v then unsupported (S position) r' else Some position
  end.

(** The value bound to a column by a row given for [columns]; a column the
    statement does not name gets no value. *)
Definition bound (columns : list string) (r : row) (label : string) : value :=
  match index_of label columns with
  | Some i => nth i r PyNone
  | None => PyNone
  end.

(** A table without primary key has no duplicates. *)
Definition has_key (k : list value) (rows : list (list value * row)) : bool :=
  match k with
  | [] => false
  | _ :: _ => existsb (fun kr => key_eqb k (fst kr)) rows
  end.

(** Modelled from the spec: the conflict policy "insert, ignore duplicates"
    of the store (4.3, glossary; SQLite code, not part of [src/]): a row
    whose primary key already exists in the table is skipped, neither an
    error nor an overwrite; any other row is appended. *)
Definition insert_or_ignore (columns : list string) (rel : relation) (r : row)
  : relation :=
  let k := map (bound columns r) (rel_key rel) in
  if has_key k (rel_rows rel) then rel
  else mkRelation (rel_columns rel) (rel_key rel) (rel_foreign_keys rel)
         (rel_rows rel ++ [(k, map (bound columns r) (rel_columns rel))]).

Definition is_null (v : value) : bool :=
  match v with
  | PyNone => true
  | _ => false
  end.

(** Modelled from the spec: referential integrity of one row (3, 6; SQLite
    code, not part of [src/]): for every foreign key of the table the value
    of the row is missing or is the key of a row of the parent table. *)
Definition references_ok (ts : tables) (columns : list string) (rel : relation)
  (r : row) : bool :=
  forallb (fun fk =>
             let v := bound columns r (fk_column fk) in
             is_null v
             || match lookup ts (fk_parent fk) with
                | Some parent => has_key [v] (rel_rows parent)
                | None => false
                end)
          (rel_foreign_keys rel).

(** A foreign key can be checked when its parent table exists and has the
    referenced column as its primary key. *)
Definition check_parent (ts : tables) (t : table) (fk : foreign_key) : option exn :=
  match lookup ts (fk_parent fk) with
  | None => Some (no_such_table ("main." ++ table_name (fk_parent fk)))
  | Some parent =>
      match rel_key parent with
      | [c] =>
          if String.eqb c (fk_parent_column fk) then None
          else Some (OperationalError
                       ("foreign key mismatch - " ++ quoted (table_name t)
                        ++ " referencing " ++ quoted (table_name (fk_parent fk))))
      | _ => Some (OperationalError
                     ("foreign key mismatch - " ++ quoted (table_name t)
                      ++ " referencing " ++ quoted (table_name (fk_parent fk))))
      end
  end.

(** Modelled from the spec: what SQLite refuses when it compiles an
    [INSERT OR IGNORE] (not part of [src/]): a table that does not exist, a
    column the table does not have and, when referential integrity is
    enforced, a foreign key whose parent table is missing or does not have
    the referenced column as its key; the foreign keys are looked at from
    the last declared to the first. *)
Definition prepare (enforce : bool) (ts : tables) (t : table) (columns : list string)
  : option exn :=
  match lookup ts t with
  | None => Some (no_such_table (table_name t))
  | Some rel =>
      match columns with
      | [] => Some (OperationalError ("near " ++ quoted ")" ++ ": syntax error"))
      | _ :: _ =>
          match first_refusal
                  (fun c => if known (rel_columns rel) c then None
                            else Some (OperationalError
                                         ("table " ++ table_name t
                                          ++ " has no column named " ++ c)))
                  columns with
          | Some e => Some e
          | None =>
              if enforce
              then first_refusal (check_parent ts t) (rev (rel_foreign_keys rel))
              else None
          end
      end
  end.

(** Modelled from the spec: the insert of one row of a batch (not part of
    [src/]). A row that does not have one value per parameter, or has a
    value that cannot be bound, is an error; a row whose key is in the table
    is skipped, whatever it refers to; any other row is appended, unless
    referential integrity is enforced and the row, once in the table, refers
    to a row that does not exist: then the insert is undone and refused. *)
Definition insert_row (enforce : bool) (t : table) (columns : list string)
  (ts : tables) (r : row) : tables * option exn :=
  match lookup ts t with
  | None => (ts, Some (no_such_table (table_name t)))
  | Some rel =>
      if negb (Nat.eqb (List.length r) (List.length columns))
      then (ts, Some (bindings_error (List.length columns) (List.length r)))
      else
        match unsupported 1 r with
        | Some position => (ts, Some (unsupported_error position))
        | None =>
            let r' := map adapted r in
            if has_key (map (bound columns r') (rel_key rel)) (rel_rows rel)
            then (ts, None)
            else
              let ts' := set_table t (Some (insert_or_ignore columns rel r')) ts in
              if enforce && negb (references_ok ts' columns rel r')
              then (ts, Some foreign_key_failed)
              else (ts', None)
        end
  end.

(** The rows of a batch are taken in order; an error is raised with the
    rows before it written (7). *)
Fixpoint insert_rows (enforce : bool) (t : table) (columns : list string)
  (ts : tables) (rows : list row) : tables * option exn :=
  match rows with
  | [] => (ts, None)
  | r :: rows' =>
      match insert_row enforce t columns ts r with
      | (ts', None) => insert_rows enforce t columns ts' rows'
      | (ts', Some e) => (ts', Some e)
      end
  end.

(** One batched insert: the statement is compiled, then the rows go in. *)
Definition insert_batch (enforce : bool) (t : table) (columns : list string)
  (ts : tables) (rows : list row) : tables * option exn :=
  match prepare enforce ts t columns with
  | Some e => (ts, Some e)
  | None => insert_rows enforce t columns ts rows
  end.

(** Batched inserts one after the other, up to the first that is refused. *)
Fixpoint insert_batches (enforce : bool) (t : table) (columns : list string)
  (ts : tables) (bs : list (list row)) : tables * option exn :=
  match bs with
  | [] => (ts, None)
  | b :: bs' =>
      match insert_batch enforce t columns ts b with
      | (ts', None) => insert_batches enforce t columns ts' bs'
      | (ts', Some e) => (ts', Some e)
      end
  end.

(** The tables to go back to: those of the open transaction, or the present
    ones when a transaction is begun. *)
Definition journal_of (d : database) : tables :=
  match db_journal d with
  | Some before => before
  | None => db_store d
  end.

(** Modelled from the spec: [executemany] of the store (not part of [src/]).
    The script hands it its [INSERT OR IGNORE] statements only. Outside a
    transaction [sqlite3] begins one before the first row. *)
Definition store_executemany (statement : sql) (rows : list row) (d : database)
  : database * option exn :=
  if db_closed d then (d, Some closed_error)
  else match statement with
       | InsertOrIgnore t columns =>
           match prepare (db_foreign_keys d) (db_store d) t columns with
           | Some e => (d, Some e)
           | None =>
               let (ts, raised) :=
                 insert_rows (db_foreign_keys d) t columns (db_store d) rows in
               (mkDatabase ts (Some (journal_of d)) (db_foreign_keys d) false, raised)
           end
       | _ => (d, Some (ProgrammingError
                          "executemany() can only execute DML statements."))
       end.

(** Modelled from the spec: [execute] of the store (not part of [src/]):
    enforcement of referential integrity switched on (6), drop-if-exists and
    create of tables (4.1), and one transaction at a time that a commit
    keeps and a rollback undoes as a whole (4.3, 5). The script switches the
    enforcement on right after it opened the connection, with no transaction
    open. Dropping a table removes its rows with it; the check SQLite makes
    of the rows that refer to them is not modelled, the script dropping every
    table before the tables it refers to. *)
Definition store_execute (statement : sql) (d : database) : database * option exn :=
  if db_closed d then (d, Some closed_error)
  else match statement with
       | PragmaForeignKeysOn =>
           (mkDatabase (db_store d) (db_journal d) true false, None)
       | DropTableIfExists t =>
           (mkDatabase (set_table t None (db_store d)) (db_journal d)
                       (db_foreign_keys d) false,
            None)
       | CreateTable t columns key fks =>
           match lookup (db_store d) t with
           | Some _ =>
               (d, Some (OperationalError
                           ("table " ++ table_name t ++ " already exists")))
           | None =>
               match declaration_error columns key fks with
               | Some e => (d, Some e)
               | None =>
                   (mkDatabase
                      (set_table t (Some (mkRelation columns key fks [])) (db_store d))
                      (db_journal d) (db_foreign_keys d) false,
                    None)
               end
           end
       | BeginTransaction =>
           match db_journal d with
           | Some _ =>
               (d, Some (OperationalError
                           "cannot start a transaction within a transaction"))
           | None =>
               (mkDatabase (db_store d) (Some (db_store d)) (db_foreign_keys d) false,
                None)
           end
       | Commit =>
           match db_journal d with
           | Some _ =>
               (mkDatabase (db_store d) None (db_foreign_keys d) false, None)
           | None =>
               (d, Some (OperationalError "cannot commit - no transaction is active"))
           end
       | Rollback =>
           match db_journal d with
           | Some before =>
               (mkDatabase before None (db_foreign_keys d) false, None)
           | None =>
               (d, Some (OperationalError "cannot rollback - no transaction is active"))
           end
       | InsertOrIgnore t columns =>
           match prepare (db_foreign_keys d) (db_store d) t columns with
           | Some e => (d, Some e)
           | None =>
               (mkDatabase (db_store d) (Some (journal_of d)) (db_foreign_keys d) false,
                Some (bindings_error (List.length columns) 0))
           end
       end.

(** Modelled from the spec: [conn.commit()] of the store (not part of
    [src/]): keeps the open transaction, if there is one. *)
Definition store_commit (d : database) : database * option exn :=
  if db_closed d then (d, Some closed_error)
  else (mkDatabase (db_store d) None (db_foreign_keys d) false, None).

(** Modelled from the spec: [conn.close()] of the store (not part of
    [src/]): what an open transaction wrote is lost. *)
Definition store_close (d : database) : database * option exn :=
  (mkDatabase (journal_of d) None (db_foreign_keys d) true, None).

#[global] Instance connection : Connection database := {
  execute := store_execute;
  executemany := store_executemany;
  commit := store_commit;
  close := store_close
}.

(** The store [sqlite3.connect] gives for a file that does not exist yet: no
    table, no open transaction, referential integrity not enforced. *)
Definition empty : database :=
  mkDatabase (mkTables None None None None) None false false.

(** [SELECT COUNT( * )] on a table. *)
Definition count_rows (d : database) (t : table) : option nat :=
  match db_tables d t with
  | Some rel => Some (List.length (rel_rows rel))
  | None => None
  end.

(** [SELECT * ] on a table, in insertion order. *)
Definition select_all (d : database) (t : table) : option (list row) :=
  match db_tables d t with
  | Some rel => Some (map snd (rel_rows rel))
  | None => None
  end.

End Store.

(** ** A scripted connection

    A connection object that answers its calls from a list: each call takes
    the next answer, [Some e] to raise [e]; past the end every call succeeds. *)
Module Scripted.

Definition answers : Type := list (option exn).

Definition next (a : answers) : answers * option exn :=
  match a with
  | [] => ([], None)
  | x :: a' => (a', x)
  end.

#[global] Instance connection : Connection answers := {
  execute := fun _ => next;
  executemany := fun _ _ => next;
  commit := next;
  close := next
}.

End Scripted.

(** ** Observations on a trace *)

(** No call of the trace raised. *)
Definition quiet (tr : list step) : Prop :=
  Forall (fun s => step_raised s = None) tr.

Definition events (tr : list step) : list event := map step_event tr.

(** The row batches handed to [executemany], in the order of the calls. *)
Definition flushes (tr : list step) : list (list row) :=
  flat_map (fun s => match step_event s with
                     | ExecuteMany _ rows => [rows]
                     | _ => []
                     end) tr.

(** A call that went through. *)
Definition ok (ev : event) : step := mkStep ev None.

Definition is_end_of_transaction (ev : event) : bool :=
  match ev with
  | Execute Commit | Execute Rollback => true
  | _ => false
  end.

(** The [COMMIT] and [ROLLBACK] statements of a trace that went through. *)
Definition ended (tr : list step) : list step :=
  filter (fun s => is_end_of_transaction (step_event s)
                   && match step_raised s with None => true | Some _ => false end) tr.

(** [ceil(n / b)] for a positive [b]. *)
Definition ceil_div (n b : Z) : Z := ((n + b - 1) / b)%Z.

(** The batches the loop of the loader completes, and the buffer it leaves. *)
Fixpoint completed (all_rows : list row) (chunk_size : Z) (buffer : list row)
  : list (list row) * list row :=
  match all_rows with
  | [] => ([], buffer)
  | r :: all_rows' =>
      let buffer := buffer ++ [r] in
      if (len buffer =? chunk_size)%Z then
        (buffer :: fst (completed all_rows' chunk_size []),
         snd (completed all_rows' chunk_size []))
      else completed all_rows' chunk_size buffer
  end.

Definition leftover (buffer : list row) : list (list row) :=
  match buffer with
  | [] => []
  | _ :: _ => [buffer]
  end.

(** All the batches of one call of the loader when no call raises. *)
Definition batches (all_rows : list row) (chunk_size : Z) : list (list row) :=
  fst (completed all_rows chunk_size []) ++ leftover (snd (completed all_rows chunk_size [])).

(** The shapes a run of the loader can have: [BEGIN] raised; every call went
    through; a batched insert raised; [COMMIT] raised. In the last two the
    [ROLLBACK] of the handler follows, and its own exception, if any, is the
    one that leaves the loader. *)
Inductive loader_run (statement : sql) (all_rows : list row) (chunk_size : Z)
  : list step -> result Z -> Prop :=
| run_begin_raised e :
    loader_run statement all_rows chunk_size
      [mkStep (Execute BeginTransaction) (Some e)] (Raised e)
| run_committed :
    loader_run statement all_rows chunk_size
      (ok (Execute BeginTransaction)
         :: map (fun b => ok (ExecuteMany statement b)) (batches all_rows chunk_size)
         ++ [ok (Execute Commit)])
      (Returned (len all_rows))
| run_flush_raised done b rest e o :
    batches all_rows chunk_size = done ++ b :: rest ->
    loader_run statement all_rows chunk_size
      (ok (Execute BeginTransaction)
         :: map (fun b => ok (ExecuteMany statement b)) done
         ++ [mkStep (ExecuteMany statement b) (Some e); mkStep (Execute Rollback) o])
      (Raised match o with None => e | Some e' => e' end)
| run_commit_raised e o :
    loader_run statement all_rows chunk_size
      (ok (Execute BeginTransaction)
         :: map (fun b => ok (ExecuteMany statement b)) (batches all_rows chunk_size)
         ++ [mkStep (Execute Commit) (Some e); mkStep (Execute Rollback) o])
      (Raised match o with None => e | Some e' => e' end).

(** The tables a script drops and the tables it creates, in its order. *)
Fixpoint dropped (script : list sql) : list table :=
  match script with
  | [] => []
  | DropTableIfExists t :: script' => t :: dropped script'
  | _ :: script' => dropped script'
  end.

Fixpoint created (script : list sql) : list table :=
  match script with
  | [] => []
  | CreateTable t _ _ _ :: script' => t :: created script'
  | _ :: script' => created script'
  end.

(** The two date columns of a sales document row as text. *)
Definition normalise_row (r : row) : row :=
  update_cell 13 astype_cell (update_cell 12 astype_cell r).

Definition normalise_dates (df : DataFrame) : DataFrame :=
  mkDataFrame (df_columns df) (map normalise_row (df_rows df)).

(** What the load of one entity is to do: announce and read the source file,
    hand the buffer to the chunked loader with the insert template of the
    target table, and report the count it returned. *)
Definition load_events (path : string) (columns : list string) (t : table)
  (normalisation : list event) (df : DataFrame) : list event :=
  [ Print ("Reading " ++ path ++ "..."); ReadParquet path columns ]
  ++ normalisation
  ++ [ Execute BeginTransaction ]
  ++ map (ExecuteMany (InsertOrIgnore t columns)) (batches (itertuples df) CHUNK_SIZE)
  ++ [ Execute Commit;
       Print ("Inserted " ++ str_of_int (len (itertuples df)) ++ " rows into "
              ++ table_name t ++ ".") ].

(** After a call raises, the script makes no further call but the [ROLLBACK]
    of the loader's handler. *)
Definition stops_at_first_error (tr : list step) : Prop :=
  exists before s after,
    tr = before ++ s :: after
    /\ quiet before
    /\ step_raised s <> None
    /\ (after = [] \/ exists o, after = [mkStep (Execute Rollback) o]).

(** A run either returns with no call having raised, or raises and stopped
    at the first call that raised. *)
Definition fail_fast {Conn A} (r : run Conn A) : Prop :=
  match outcome r with
  | Returned _ => quiet (trace r)
  | Raised _ => stops_at_first_error (trace r)
  end.

(** The trace has no call of [conn.close()]. *)
Definition never_closed (tr : list step) : Prop :=
  Forall (fun s => step_event s <> ConnClose) tr.

(** ** Sample frames *)

Definition customer (key address : string) : row := [PyStr key; PyStr address].

Definition five_customers : DataFrame :=
  mkDataFrame customer_columns
    [ customer "C1" "A1"; customer "C2" "A1"; customer "C3" "A2";
      customer "C4" "A2"; customer "C5" "A3" ].

Definition no_customers : DataFrame := mkDataFrame customer_columns [].

Definition insert_customers : sql := InsertOrIgnore I_Customer customer_columns.

(** Two errors of the store: the one SQLite raises when the disk is full,
    after which it has ended the transaction on its own, and the one it
    raises for a [ROLLBACK] with no transaction open. *)
Definition disk_full : exn :=
  Exception "OperationalError" "database or disk is full".

Definition no_transaction : exn :=
  Exception "OperationalError" "cannot rollback - no transaction is active".

(** The five sample rows in batches of two on a connection whose second
    insert raises. *)
Definition second_insert_fails : run Scripted.answers Z :=
  insert_dataframe_in_chunks five_customers insert_customers 2%Z
    [None; None; Some disk_full].

(** The same, on a connection whose [ROLLBACK] then raises too. *)
Definition rollback_fails_too : run Scripted.answers Z :=
  insert_dataframe_in_chunks five_customers insert_customers 2%Z
    [None; None; Some disk_full; Some no_transaction].

Definition two_addresses : DataFrame :=
  mkDataFrame address_columns
    [ [PyStr "A1"; PyStr "1"; PyStr "DE"; PyStr "BW"];
      [PyStr "A2"; PyStr "1"; PyStr "US"; PyStr "CA"] ].

(** One sales document, created on 2024-03-01 at 09:05:00, the date and the
    time as native values. *)
Definition one_salesdocument : DataFrame :=
  mkDataFrame sales_doc_columns
    [ [PyStr "S1"; PyStr "O1"; PyStr "G1"; PyStr "T1"; PyStr "01"; PyStr "TA";
       PyStr "0001"; PyStr "10"; PyStr "00"; PyStr "1000"; PyStr "EUR"; PyStr "EXW";
       PyDate 2024 3 1; PyTime 9 5 0 0] ].

Definition one_salesdocument_item : DataFrame :=
  mkDataFrame sales_item_columns
    [ [PyStr "S1"; PyStr "10"; PyStr "P1"; PyStr "SP1"; PyStr "TAN"; PyStr "M1";
       PyStr "C1"; PyStr "C1"; PyStr "C2"; PyStr "C2"; PyStr "EXW"] ].

(** Source files that hold the sample frames. *)
Definition sample_source (path : string) (columns : list string) : result DataFrame :=
  if String.eqb path addresses_parquet then Returned two_addresses
  else if String.eqb path customers_parquet then Returned five_customers
  else if String.eqb path salesdocuments_parquet then Returned one_salesdocument
  else if String.eqb path salesdoc_items_parquet then Returned one_salesdocument_item
  else Raised (Exception "FileNotFoundError" path).

(** The script on the sample files, on a connection that raises nothing. *)
Definition sample_run : run Scripted.answers unit :=
  build_SALT_data sample_source [].

(** The script on the sample files, on a connection that goes through the
    ten calls of the schema and the [BEGIN] of the first load and then raises
    on the insert of the addresses. *)
Definition address_load_fails : run Scripted.answers unit :=
  build_SALT_data sample_source
    [None; None; None; None; None; None; None; None; None; None;
     None; Some disk_full].

(** The row batches a list of events inserts into a table. *)
Definition inserted_into (t : table) (evs : list event) : list (list row) :=
  flat_map (fun ev => match ev with
                      | ExecuteMany (InsertOrIgnore t' _) rows =>
                          if table_eqb t t' then [rows] else []
                      | _ => []
                      end) evs.

(** Source files in which every row refers to rows that exist: the sample
    frames, with the address A3 of the customer C5. *)
Definition three_addresses : DataFrame :=
  mkDataFrame address_columns
    (df_rows two_addresses ++ [ [PyStr "A3"; PyStr "1"; PyStr "FR"; PyStr "IDF"] ]).

Definition store_source (path : string) (columns : list string) : result DataFrame :=
  if String.eqb path addresses_parquet then Returned three_addresses
  else sample_source path columns.

(** The script on these files, on the store of a file that did not exist. *)
Definition sample_store_run : run Store.database unit :=
  build_SALT_data store_source Store.empty.

Definition insert_addresses : sql :=
  InsertOrIgnore I_AddrOrgNamePostalAddress address_columns.

Definition two_customers : DataFrame :=
  mkDataFrame customer_columns [ customer "C1" "A1"; customer "C2" "A1" ].

(** The store after the schema statements and the loads of the addresses A1
    and A2 and of the customers C1 and C2, and a frame of customers that
    repeats one of them and one of its own rows. *)
Definition two_customers_stored : Store.database :=
  final ((define_schema ;;
          insert_dataframe_in_chunks two_addresses insert_addresses CHUNK_SIZE ;;
          insert_dataframe_in_chunks two_customers insert_customers CHUNK_SIZE)
           Store.empty).

(** The customers table of that store. *)
Definition two_customers_table : Store.relation :=
  Store.mkRelation customer_columns [ "CUSTOMER" ]
    [ FOREIGN_KEY "ADDRESSID" I_AddrOrgNamePostalAddress "ADDRESSID" ]
    [ ([PyStr "C1"], customer "C1" "A1"); ([PyStr "C2"], customer "C2" "A1") ].

(** A frame of addresses that repeats the address A1 of that store and has a
    row whose ADDRESSID is missing. *)
Definition addresses_with_missing_key : DataFrame :=
  mkDataFrame address_columns
    [ [PyStr "A1"; PyStr "1"; PyStr "DE"; PyStr "BW"];
      [PyNone; PyStr "1"; PyStr "FR"; PyStr "IDF"] ].

Definition customers_with_duplicates : DataFrame :=
  mkDataFrame customer_columns
    [ customer "C2" "A9"; customer "C3" "A2"; customer "C3" "A3";
      customer "C4" "A2" ].

(** A frame whose third row lacks the address: the store raises on it, in
    the second batch of two. *)
Definition customers_with_short_row : DataFrame :=
  mkDataFrame customer_columns
    [ customer "C3" "A2"; customer "C4" "A2"; [PyStr "C5"]; customer "C6" "A3" ].

(** A row with one value per column of the insert statement. *)
Definition fits (columns : list string) (r : row) : Prop :=
  List.length r = List.length columns.

(** A row the store can take: one value per column of the statement, each
    of a type that can be bound. *)
Definition bindable (columns : list string) (r : row) : Prop :=
  fits columns r /\ Store.unsupported 1 r = None.

(** A row that carries a value in every column of the primary key of a
    table, the table having one. *)
Definition keyed (columns : list string) (rel : Store.relation) (r : row) : Prop :=
  Store.rel_key rel <> []
  /\ forall k, In k (Store.rel_key rel) -> Store.bound columns r k <> PyNone.

(** The row as the store keeps it. *)
Definition stored (r : row) : row := map Store.adapted r.

(** No call raised but, possibly, reads of the given source file. *)
Definition only_read_raised (path : string) (columns : list string)
  (tr : list step) : Prop :=
  Forall (fun s => step_raised s = None \/ step_event s = ReadParquet path columns) tr.

(** The trace has no read of the given source file. *)
Definition never_reads (path : string) (columns : list string) (tr : list step)
  : Prop :=
  Forall (fun s => step_event s <> ReadParquet path columns) tr.

(** The decimal digit of [n mod 10]. *)
Definition digit (n : nat) : ascii :=
  match n mod 10 with
  | 0 => "0" | 1 => "1" | 2 => "2" | 3 => "3" | 4 => "4"
  | 5 => "5" | 6 => "6" | 7 => "7" | 8 => "8" | _ => "9"
  end%char.

(** The [width] lowest decimal digits of [n], the most significant first. *)
Fixpoint digits (width n : nat) : string :=
  match width with
  | O => ""
  | S width' => digits width' (n / 10) ++ String (digit n) ""
  end.

(** The canonical text forms the spec asks for (4.2, 8), written digit by
    digit: [YYYY-MM-DD] for a date and [HH:MM:SS] for a time, followed by
    the six digits of the microsecond when it is not 0. *)
Definition iso_date (y m d : nat) : string :=
  digits 4 y ++ "-" ++ digits 2 m ++ "-" ++ digits 2 d.

Definition iso_time (h mi s us : nat) : string :=
  digits 2 h ++ ":" ++ digits 2 mi ++ ":" ++ digits 2 s
  ++ (if Nat.eqb us 0 then "" else "." ++ digits 6 us).

(** The digits of [n] as a decimal number of the Standard Library, the least
    significant first. *)
Definition little_digit (n : nat) (d : Decimal.uint) : Decimal.uint :=
  match n mod 10 with
  | 0 => Decimal.D0 d | 1 => Decimal.D1 d | 2 => Decimal.D2 d | 3 => Decimal.D3 d
  | 4 => Decimal.D4 d | 5 => Decimal.D5 d | 6 => Decimal.D6 d | 7 => Decimal.D7 d
  | 8 => Decimal.D8 d | _ => Decimal.D9 d
  end.

Fixpoint little_digits (width n : nat) : Decimal.uint :=
  match width with
  | O => Decimal.Nil
  | S width' => little_digit n (little_digits width' (n / 10))
  end.

(** The ways the calls of the loader can end after the inserts: nothing
    (only when [BEGIN] raised), a [COMMIT], a [ROLLBACK], or a [COMMIT] and
    then a [ROLLBACK]. *)
Definition transaction_ends : list (list event) :=
  [ []; [Execute Commit]; [Execute Rollback]; [Execute Commit; Execute Rollback] ].

(** The five sample rows in batches of two on a connection whose [COMMIT]
    raises. *)
Definition commit_fails : run Scripted.answers Z :=
  insert_dataframe_in_chunks five_customers insert_customers 2%Z
    [None; None; None; None; Some disk_full].

(** The calls made inside the [try] of the loader. *)
Definition inside_try (ev : event) : bool :=
  match ev with
  | ExecuteMany _ _ | Execute Commit => true
  | _ => false
  end.

(** The run raised [e] this way: the calls before [s] went through, [s]
    raised [e0]; either [s] was made outside the [try] of the loader, nothing
    follows and [e] is [e0], or it was made inside, the [ROLLBACK] follows
    and [e] is [e0] unless the [ROLLBACK] raised. *)
Definition raised_by (tr : list step) (e : exn) : Prop :=
  exists before s e0 after,
    tr = before ++ s :: after
    /\ quiet before
    /\ step_raised s = Some e0
    /\ ((inside_try (step_event s) = false /\ after = [] /\ e = e0)
        \/ (inside_try (step_event s) = true
            /\ exists o, after = [mkStep (Execute Rollback) o]
                         /\ e = match o with None => e0 | Some e' => e' end)).

(** A run either returns with no call having raised, or raises the error of
    the first call that raised. *)
Definition first_error {Conn A} (r : run Conn A) : Prop :=
  match outcome r with
  | Returned _ => quiet (trace r)
  | Raised e => raised_by (trace r) e
  end.

(** Every batched insert of the trace uses a statement that satisfies [P]. *)
Definition each_insert (P : sql -> Prop) (tr : list step) : Prop :=
  Forall (fun s => forall statement rows,
              step_event s = ExecuteMany statement rows -> P statement) tr.

(** An insert statement for a table other than [t]. *)
Definition not_into (t : table) (statement : sql) : Prop :=
  exists t' columns, statement = InsertOrIgnore t' columns /\ table_eqb t t' = false.

(** An INSERT OR IGNORE into a table of the [CREATE TABLE] statements, with
    the columns of that statement. *)
Definition into_created_table (statement : sql) : Prop :=
  exists t columns key fks,
    statement = InsertOrIgnore t columns
    /\ In (CreateTable t columns key fks) create_statements.

(** Every insert into [parent] comes before every insert into [child]. *)
Definition loaded_before (parent child : table) (evs : list event) : Prop :=
  exists first rest,
    evs = first ++ rest
    /\ inserted_into child first = []
    /\ inserted_into parent rest = [].

(** The table a script declares for [t]: the columns, the primary key and
    the foreign keys of its first [CREATE TABLE] for [t], with no row. *)
Fixpoint declared (script : list sql) (t : table) : option Store.relation :=
  match script with
  | [] => None
  | CreateTable t' columns key fks :: script' =>
      if table_eqb t t' then Some (Store.mkRelation columns key fks [])
      else declared script' t
  | _ :: script' => declared script' t
  end.

(** The table [t] after the rows of a frame went into it under the insert
    policy, as the store keeps them, starting from the table as the schema
    statements declare it. *)
Definition loaded (t : table) (columns : list string) (df : DataFrame)
  : option Store.relation :=
  option_map (fold_left (Store.insert_or_ignore columns) (map stored (itertuples df)))
             (declared schema_statements t).

(** The store the schema statements leave: the four declared tables with no
    row, referential integrity enforced, no transaction open. *)
Definition schema_store : Store.database :=
  Store.mkDatabase
    (Store.mkTables (declared schema_statements I_SalesDocument)
                    (declared schema_statements I_SalesDocumentItem)
                    (declared schema_statements I_Customer)
                    (declared schema_statements I_AddrOrgNamePostalAddress))
    None true false.

(** The store after a load into [t] that went through: the rows of the
    frame are in the table, under the insert policy, and committed. *)
Definition after_load (t : table) (columns : list string) (df : DataFrame)
  (d : Store.database) : Store.database :=
  Store.mkDatabase
    (Store.set_table t
       (option_map (fold_left (Store.insert_or_ignore columns)
                      (map stored (itertuples df)))
                   (Store.db_tables d t))
       (Store.db_store d))
    None (Store.db_foreign_keys d) false.

(** Source files of which the one of the sales documents is missing. *)
Definition source_without_salesdocuments (path : string) (columns : list string)
  : result DataFrame :=
  if String.eqb path salesdocuments_parquet
  then Raised (Exception "FileNotFoundError" path)
  else store_source path columns.

(** * Properties *)

(** ** The monad *)

Lemma call_run {Conn} (ev : event) (method : Conn -> Conn * option exn) (c : Conn) :
  call ev method c =
  mkRun [mkStep ev (snd (method c))] (fst (method c))
        match snd (method c) with
        | None => Returned tt
        | Some e => Raised e
        end.
Proof. unfold call. destruct (method c); reflexivity. Qed.

Lemma bind_returned {Conn A B} (m : M Conn A) (f : A -> M Conn B) (c : Conn) (a : A) :
  outcome (m c) = Returned a ->
  bind m f c = mkRun (trace (m c) ++ trace (f a (final (m c))))
                     (final (f a (final (m c))))
                     (outcome (f a (final (m c)))).
Proof. intros E. unfold bind. rewrite E. reflexivity. Qed.

Lemma bind_raised {Conn A B} (m : M Conn A) (f : A -> M Conn B) (c : Conn) (e : exn) :
  outcome (m c) = Raised e ->
  bind m f c = mkRun (trace (m c)) (final (m c)) (Raised e).
Proof. intros E. unfold bind. rewrite E. reflexivity. Qed.

Lemma bind_unfold {Conn A B} (m : M Conn A) (f : A -> M Conn B) (c : Conn) :
  bind m f c =
  match outcome (m c) with
  | Returned a => mkRun (trace (m c) ++ trace (f a (final (m c))))
                        (final (f a (final (m c))))
                        (outcome (f a (final (m c))))
  | Raised e => mkRun (trace (m c)) (final (m c)) (Raised e)
  end.
Proof. reflexivity. Qed.

Lemma bind_ret {Conn A B} (a : A) (f : A -> M Conn B) (c : Conn) :
  bind (ret a) f c = mkRun (trace (f a c)) (final (f a c)) (outcome (f a c)).
Proof. reflexivity. Qed.

Lemma bind_assoc {Conn A B C} (m : M Conn A) (f : A -> M Conn B) (g : B -> M Conn C)
  (c : Conn) :
  bind (bind m f) g c = bind m (fun a => bind (f a) g) c.
Proof.
  unfold bind. destruct (outcome (m c)) as [a|e]; cbn [outcome trace final];
    [|reflexivity].
  destruct (outcome (f a (final (m c)))) as [b|e]; cbn [outcome trace final];
    [|reflexivity].
  now rewrite app_assoc.
Qed.

(** A call followed by the rest of the script. *)
Lemma bind_call {Conn B} (ev : event) (method : Conn -> Conn * option exn)
  (k : unit -> M Conn B) (c : Conn) :
  bind (call ev method) k c =
  match snd (method c) with
  | None => mkRun (ok ev :: trace (k tt (fst (method c))))
                  (final (k tt (fst (method c))))
                  (outcome (k tt (fst (method c))))
  | Some e => mkRun [mkStep ev (Some e)] (fst (method c)) (Raised e)
  end.
Proof.
  unfold bind. rewrite call_run. cbn [outcome trace final].
  destruct (snd (method c)); reflexivity.
Qed.

(** ** The batches of the loop *)

Lemma len_app (a b : list row) : len (a ++ b) = (len a + len b)%Z.
Proof. unfold len. rewrite length_app. lia. Qed.

Lemma len_nonneg (a : list row) : (0 <= len a)%Z.
Proof. unfold len. lia. Qed.

Lemma completed_concat (rows : list row) (B : Z) (buf : list row) :
  List.concat (fst (completed rows B buf)) ++ snd (completed rows B buf) = buf ++ rows.
Proof.
  revert buf. induction rows as [|r rows IH]; intros buf; simpl.
  - now rewrite app_nil_r.
  - destruct (len (buf ++ [r]) =? B)%Z; simpl.
    + rewrite <- app_assoc. rewrite IH. simpl. now rewrite <- app_assoc.
    + rewrite IH. now rewrite <- app_assoc.
Qed.

Lemma concat_leftover (buf : list row) : List.concat (leftover buf) = buf.
Proof. destruct buf; simpl; [reflexivity | now rewrite app_nil_r]. Qed.

Lemma batches_concat (rows : list row) (B : Z) : List.concat (batches rows B) = rows.
Proof.
  unfold batches. rewrite List.concat_app, concat_leftover.
  apply (completed_concat rows B []).
Qed.

(** With a positive chunk size and a buffer below it, every completed batch
    has [B] rows, there are [(|buf| + N) / B] of them and [(|buf| + N) mod B]
    rows are left. *)
Lemma completed_sizes (rows : list row) (B : Z) (buf : list row) :
  (1 <= B)%Z -> (len buf < B)%Z ->
  Forall (fun b => len b = B) (fst (completed rows B buf))
  /\ Z.of_nat (List.length (fst (completed rows B buf))) = ((len buf + len rows) / B)%Z
  /\ len (snd (completed rows B buf)) = ((len buf + len rows) mod B)%Z.
Proof.
  intros HB. revert buf. induction rows as [|r rows IH]; intros buf Hbuf.
  - simpl. pose proof (len_nonneg buf). change (len []) with 0%Z.
    rewrite Z.add_0_r. repeat split.
    + constructor.
    + symmetry. apply Z.div_small. lia.
    + symmetry. apply Z.mod_small. lia.
  - simpl. destruct (Z.eqb_spec (len (buf ++ [r])) B) as [E|NE]; simpl.
    + destruct (IH [] ltac:(change (len []) with 0%Z; lia)) as (F & L & R).
      rewrite len_app in E. change (len [r]) with 1%Z in E.
      change (len (r :: rows)) with (Z.of_nat (S (List.length rows))).
      change (len []) with 0%Z in L, R. simpl in L, R.
      replace (len buf + Z.of_nat (S (List.length rows)))%Z
        with (len rows + 1 * B)%Z by (unfold len in *; lia).
      rewrite Z.div_add, Z.mod_add by lia.
      repeat split.
      * constructor; [|exact F]. rewrite len_app. change (len [r]) with 1%Z. lia.
      * lia.
      * exact R.
    + rewrite len_app in NE. change (len [r]) with 1%Z in NE.
      destruct (IH (buf ++ [r])) as (F & L & R).
      { rewrite len_app. change (len [r]) with 1%Z. lia. }
      rewrite len_app in L, R. change (len [r]) with 1%Z in L, R.
      change (len (r :: rows)) with (Z.of_nat (S (List.length rows))).
      replace (len buf + Z.of_nat (S (List.length rows)))%Z
        with (len buf + 1 + len rows)%Z by (unfold len in *; lia).
      repeat split; assumption.
Qed.

(** With a chunk size below 1 the test of the loop never holds. *)
Lemma completed_nonpositive (rows : list row) (B : Z) (buf : list row) :
  (B <= 0)%Z -> completed rows B buf = ([], buf ++ rows).
Proof.
  intros HB. revert buf. induction rows as [|r rows IH]; intros buf; simpl.
  - now rewrite app_nil_r.
  - destruct (Z.eqb_spec (len (buf ++ [r])) B) as [E|NE].
    + rewrite len_app in E. change (len [r]) with 1%Z in E.
      pose proof (len_nonneg buf). lia.
    + rewrite IH. now rewrite <- app_assoc.
Qed.

(** ** Runs of the loader on any connection *)

Section LoaderRuns.
Context {Conn : Type} `{Connection Conn}.

(** The loop either completes its batches, every insert going through, or
    stops at the first insert that raises. *)
Lemma for_rows_run (rows : list row) (statement : sql) (B : Z) :
  forall (buf : list row) (cnt : Z) (c : Conn),
    let r := for_rows rows statement B buf cnt c in
    (outcome r = Returned (snd (completed rows B buf),
                           (cnt + B * Z.of_nat (List.length (fst (completed rows B buf))))%Z)
     /\ trace r = map (fun b => ok (ExecuteMany statement b)) (fst (completed rows B buf)))
    \/ (exists done b rest e,
           fst (completed rows B buf) = done ++ b :: rest
           /\ trace r = map (fun b => ok (ExecuteMany statement b)) done
                        ++ [mkStep (ExecuteMany statement b) (Some e)]
           /\ outcome r = Raised e).
Proof.
  induction rows as [|x rows IH]; intros buf cnt c; cbn [for_rows completed].
  - left. cbn. split; [|reflexivity]. do 2 f_equal. lia.
  - destruct (len (buf ++ [x]) =? B)%Z.
    + unfold bind, conn_executemany. rewrite call_run. cbn [outcome trace final].
      destruct (snd (executemany statement (buf ++ [x]) c)) as [e|] eqn:E.
      * right. exists [], (buf ++ [x]), (fst (completed rows B [])), e.
        cbn. repeat split.
      * cbn [fst snd].
        destruct (IH [] (cnt + B)%Z (fst (executemany statement (buf ++ [x]) c)))
          as [[O T]|(done & b & rest & e & D & T & O)].
        -- left. cbn [outcome trace]. rewrite O, T. split; [|reflexivity].
           do 2 f_equal. cbn [List.length]. lia.
        -- right. exists ((buf ++ [x]) :: done), b, rest, e.
           cbn [outcome trace]. rewrite D, T, O. repeat split.
    + apply IH.
Qed.

Lemma leftover_count (rows : list row) (B : Z) :
  (B * Z.of_nat (List.length (fst (completed rows B [])))
   + len (snd (completed rows B [])))%Z = len rows.
Proof.
  assert (G : forall buf,
             (B * Z.of_nat (List.length (fst (completed rows B buf)))
              + len (snd (completed rows B buf)))%Z = (len buf + len rows)%Z).
  { induction rows as [|x rows IH]; intros buf; cbn [completed].
    - cbn. change (len []) with 0%Z. lia.
    - destruct (Z.eqb_spec (len (buf ++ [x])) B) as [E|NE]; cbn [fst snd].
      + specialize (IH []). change (len []) with 0%Z in IH.
        rewrite len_app in E. change (len [x]) with 1%Z in E.
        cbn [List.length]. unfold len in *. cbn [List.length]. lia.
      + rewrite IH, len_app. unfold len. cbn [List.length]. lia. }
  rewrite G. reflexivity.
Qed.

(** Every run of the loader has one of the four shapes of [loader_run]. *)
Lemma loader_run_spec (df : DataFrame) (statement : sql) (B : Z) (c : Conn) :
  loader_run statement (itertuples df) B
    (trace (insert_dataframe_in_chunks df statement B c))
    (outcome (insert_dataframe_in_chunks df statement B c)).
Proof.
  unfold insert_dataframe_in_chunks. set (rows := itertuples df).
  unfold conn_execute, conn_executemany. rewrite bind_call.
  destruct (snd (execute BeginTransaction c)) as [e|]; [constructor|].
  set (c1 := fst (execute BeginTransaction c)).
  cbn [outcome trace].
  unfold try_except_reraise.
  set (body := bind _ _).
  assert (Hbody :
    (outcome (body c1) = Returned (len rows)
     /\ trace (body c1) = map (fun b => ok (ExecuteMany statement b)) (batches rows B)
                          ++ [ok (Execute Commit)])
    \/ (exists done b rest e,
           batches rows B = done ++ b :: rest
           /\ trace (body c1) = map (fun b => ok (ExecuteMany statement b)) done
                                ++ [mkStep (ExecuteMany statement b) (Some e)]
           /\ outcome (body c1) = Raised e)
    \/ (exists e,
           trace (body c1) = map (fun b => ok (ExecuteMany statement b)) (batches rows B)
                             ++ [mkStep (Execute Commit) (Some e)]
           /\ outcome (body c1) = Raised e)).
  { subst body. unfold batches.
    destruct (for_rows_run rows statement B [] 0%Z c1)
      as [[O T]|(done & b & rest & e & D & T & O)].
    - rewrite (bind_returned _ _ _ _ O). cbn [fst snd].
      set (c2 := final (for_rows rows statement B [] 0%Z c1)).
      rewrite T.
      pose proof (leftover_count rows B) as Hcount.
      destruct (snd (completed rows B [])) as [|y buf'] eqn:Ebuf.
      + cbn [insert_leftover leftover]. rewrite bind_ret.
        cbn [snd]. rewrite bind_call.
        cbn [outcome trace final]. rewrite app_nil_r.
        change (len []) with 0%Z in Hcount.
        destruct (snd (execute Commit c2)) as [e|]; cbn [outcome trace ret].
        * right. right. exists e. split; reflexivity.
        * left. split; [|reflexivity]. f_equal. lia.
      + cbn [insert_leftover leftover]. unfold conn_executemany.
        rewrite bind_assoc, bind_call.
        destruct (snd (executemany statement (y :: buf') c2)) as [e|];
          cbn [outcome trace].
        * right. left.
          exists (fst (completed rows B [])), (y :: buf'), [], e.
          repeat split.
        * rewrite bind_ret. cbn [snd]. rewrite bind_call.
          set (c3 := fst (executemany statement (y :: buf') c2)).
          destruct (snd (execute Commit c3)) as [e|]; cbn [outcome trace ret].
          -- right. right. exists e. split; [|reflexivity].
             rewrite map_app. cbn [map]. rewrite <- !app_assoc. reflexivity.
          -- left. split.
             ++ f_equal. lia.
             ++ rewrite map_app. cbn [map]. rewrite <- !app_assoc. reflexivity.
    - rewrite (bind_raised _ _ _ _ O). cbn [outcome trace].
      right. left. exists done, b, (rest ++ leftover (snd (completed rows B []))), e.
      rewrite D, <- app_assoc. repeat split. exact T. }
  destruct Hbody as [[O T]|[(done & b & rest & e & D & T & O)|(e & T & O)]].
  - rewrite O. rewrite O, T. apply run_committed.
  - rewrite O. cbn [outcome trace]. rewrite call_run.
    cbn [outcome trace]. rewrite T, <- app_assoc. cbn [app].
    destruct (snd (execute Rollback (final (body c1)))) as [e'|].
    + apply (run_flush_raised statement rows B done b rest e (Some e') D).
    + apply (run_flush_raised statement rows B done b rest e None D).
  - rewrite O. cbn [outcome trace]. rewrite call_run.
    cbn [outcome trace]. rewrite T, <- app_assoc. cbn [app].
    destruct (snd (execute Rollback (final (body c1)))) as [e'|].
    + apply (run_commit_raised statement rows B e (Some e')).
    + apply (run_commit_raised statement rows B e None).
Qed.

End LoaderRuns.

(** ** Traces in which nothing raised *)

Lemma quiet_app (a b : list step) : quiet (a ++ b) <-> quiet a /\ quiet b.
Proof. apply Forall_app. Qed.

Lemma quiet_map_ok {A} (f : A -> event) (l : list A) : quiet (map (fun a => ok (f a)) l).
Proof. induction l; constructor; auto. Qed.

Lemma not_quiet_raised (pre : list step) (ev : event) (e : exn) (post : list step) :
  ~ quiet (pre ++ mkStep ev (Some e) :: post).
Proof.
  intros Q. apply quiet_app in Q. destruct Q as [_ Q].
  inversion Q as [|? ? Hs _]. discriminate Hs.
Qed.

Lemma flushes_app (a b : list step) : flushes (a ++ b) = flushes a ++ flushes b.
Proof. apply flat_map_app. Qed.

Lemma flushes_map (statement : sql) (o : list row -> option exn) (bs : list (list row)) :
  flushes (map (fun b => mkStep (ExecuteMany statement b) (o b)) bs) = bs.
Proof. induction bs as [|b bs IH]; [reflexivity|]. cbn. f_equal. exact IH. Qed.

Lemma events_app (a b : list step) : events (a ++ b) = events a ++ events b.
Proof. apply map_app. Qed.

(** A run of the loader in which no call raised is the committed one. *)
Lemma quiet_loader_run (statement : sql) (rows : list row) (B : Z)
  (tr : list step) (res : result Z) :
  loader_run statement rows B tr res ->
  quiet tr ->
  tr = ok (Execute BeginTransaction)
         :: map (fun b => ok (ExecuteMany statement b)) (batches rows B)
         ++ [ok (Execute Commit)]
  /\ res = Returned (len rows).
Proof.
  intros R Q. destruct R as [e| |done b rest e o D|e o].
  - exfalso. exact (not_quiet_raised [] _ e [] Q).
  - split; reflexivity.
  - exfalso. change (quiet ((ok (Execute BeginTransaction)
                               :: map (fun b => ok (ExecuteMany statement b)) done)
                            ++ mkStep (ExecuteMany statement b) (Some e)
                            :: [mkStep (Execute Rollback) o])) in Q.
    exact (not_quiet_raised _ _ e _ Q).
  - exfalso. change (quiet ((ok (Execute BeginTransaction)
                               :: map (fun b => ok (ExecuteMany statement b))
                                    (batches rows B))
                            ++ mkStep (Execute Commit) (Some e)
                            :: [mkStep (Execute Rollback) o])) in Q.
    exact (not_quiet_raised _ _ e _ Q).
Qed.

Lemma flushes_committed (statement : sql) (bs : list (list row)) :
  flushes (ok (Execute BeginTransaction)
             :: map (fun b => ok (ExecuteMany statement b)) bs
             ++ [ok (Execute Commit)]) = bs.
Proof.
  change (flushes ([ok (Execute BeginTransaction)]
                     ++ map (fun b => mkStep (ExecuteMany statement b) ((fun _ => None) b)) bs
                     ++ [ok (Execute Commit)]) = bs).
  rewrite !flushes_app, flushes_map. cbn. apply app_nil_r.
Qed.

(** ** Arithmetic of the batches *)

Lemma ceil_div_spec (n b : Z) :
  (0 <= n)%Z -> (1 <= b)%Z ->
  ceil_div n b = (n / b + (if (n mod b =? 0)%Z then 0 else 1))%Z.
Proof.
  intros Hn Hb. unfold ceil_div.
  pose proof (Z.div_mod n b ltac:(lia)) as E.
  pose proof (Z.mod_pos_bound n b ltac:(lia)) as Hr.
  destruct (Z.eqb_spec (n mod b) 0) as [Z0|NZ].
  - rewrite Z.add_0_r. symmetry. apply (Z.div_unique _ _ _ (b - 1)); lia.
  - symmetry. apply (Z.div_unique _ _ _ (n mod b - 1)); lia.
Qed.

Lemma len_zero (l : list row) : len l = 0%Z -> l = [].
Proof. destruct l; [reflexivity|]. unfold len. cbn [List.length]. lia. Qed.

(** The batches for a positive chunk size: [N / B] batches of [B] rows, then
    the [N mod B] rows left, if any. *)
Lemma batches_positive (rows : list row) (B : Z) :
  (1 <= B)%Z ->
  exists full rest,
    batches rows B = full ++ leftover rest
    /\ Forall (fun b => len b = B) full
    /\ Z.of_nat (List.length full) = (len rows / B)%Z
    /\ len rest = (len rows mod B)%Z.
Proof.
  intros HB. exists (fst (completed rows B [])), (snd (completed rows B [])).
  destruct (completed_sizes rows B [] HB) as (F & L & R).
  { change (len []) with 0%Z. lia. }
  change (len []) with 0%Z in L, R. rewrite Z.add_0_l in L, R.
  repeat split; assumption.
Qed.

Lemma batches_nonpositive (rows : list row) (B : Z) :
  (B <= 0)%Z -> batches rows B = leftover rows.
Proof.
  intros HB. unfold batches. rewrite (completed_nonpositive rows B [] HB).
  reflexivity.
Qed.

(** ** The chunked loader when the store raises nothing *)

Section QuietLoader.
Context {Conn : Type} `{Connection Conn}.

(** C1. For a buffer of N rows and a batch size B >= 1, a call of the loader
    in which the store raises nothing performs ceil(N/B) batched inserts;
    every insert but the last submits exactly B rows; the last submits
    N mod B rows, or B rows when N mod B = 0 and N > 0; when N is a multiple
    of B every insert has B rows, so that no trailing empty insert is made;
    the calls are one BEGIN, the inserts and one COMMIT; and for N = 0 there
    is no insert, only the BEGIN and the COMMIT, and 0 is returned. *)
Theorem chunk_boundaries (df : DataFrame) (statement : sql) (B : Z) (c : Conn) :
  (1 <= B)%Z ->
  quiet (trace (insert_dataframe_in_chunks df statement B c)) ->
  let r := insert_dataframe_in_chunks df statement B c in
  let N := len (itertuples df) in
  let fl := flushes (trace r) in
  Z.of_nat (List.length fl) = ceil_div N B
  /\ (forall i, S i < List.length fl -> len (nth i fl []) = B)
  /\ ((0 < N)%Z -> len (last fl []) = if (N mod B =? 0)%Z then B else (N mod B)%Z)
  /\ ((N mod B = 0)%Z -> Forall (fun b => len b = B) fl)
  /\ ~ In [] fl
  /\ events (trace r)
     = Execute BeginTransaction :: map (ExecuteMany statement) fl ++ [Execute Commit]
  /\ (N = 0%Z ->
      events (trace r) = [Execute BeginTransaction; Execute Commit]
      /\ outcome r = Returned 0%Z).
Proof.
  intros HB Q r N fl.
  destruct (quiet_loader_run _ _ _ _ _ (loader_run_spec df statement B c) Q)
    as [T O].
  assert (Hfl : fl = batches (itertuples df) B).
  { subst fl r. rewrite T. apply flushes_committed. }
  destruct (batches_positive (itertuples df) B HB) as (full & rest & E & F & L & R).
  fold N in L, R.
  assert (HN : (0 <= N)%Z) by apply len_nonneg.
  pose proof (Z.mod_pos_bound N B ltac:(lia)) as Hmod.
  assert (Hrest : (N mod B)%Z = 0%Z -> rest = []).
  { intros Z0. apply len_zero. lia. }
  assert (Hev : events (trace r)
                = Execute BeginTransaction :: map (ExecuteMany statement) fl
                  ++ [Execute Commit]).
  { subst r. rewrite T, Hfl. cbn [events map]. f_equal.
    rewrite map_app, map_map. reflexivity. }
  rewrite Hfl, E.
  repeat split.
  - rewrite (ceil_div_spec N B HN HB), length_app, Nat2Z.inj_add, L. f_equal.
    destruct (Z.eqb_spec (N mod B) 0) as [Z0|NZ].
    + rewrite (Hrest Z0). reflexivity.
    + destruct rest; [change (len []) with 0%Z in R; lia | reflexivity].
  - intros i Hi. rewrite length_app in Hi.
    assert (Hlt : i < List.length full).
    { destruct rest; cbn [leftover List.length] in Hi; lia. }
    rewrite app_nth1 by exact Hlt.
    rewrite Forall_forall in F. apply F. now apply nth_In.
  - intros Hpos. destruct (Z.eqb_spec (N mod B) 0) as [Z0|NZ].
    + rewrite (Hrest Z0). cbn [leftover]. rewrite app_nil_r.
      assert (Hfull : full <> []).
      { intros ->. cbn [List.length] in L.
        pose proof (Z.div_mod N B ltac:(lia)). lia. }
      rewrite Forall_forall in F. apply F.
      destruct (exists_last Hfull) as (l' & a & ->).
      rewrite last_last. apply in_or_app. right. now left.
    + destruct rest as [|y rest]; [change (len []) with 0%Z in R; lia|].
      cbn [leftover]. rewrite last_last. exact R.
  - intros Z0. rewrite (Hrest Z0). cbn [leftover].
    rewrite app_nil_r. exact F.
  - intros Hin. apply in_app_or in Hin. destruct Hin as [Hin|Hin].
    + rewrite Forall_forall in F. specialize (F _ Hin).
      change (len []) with 0%Z in F. lia.
    + destruct rest; cbn [leftover] in Hin; [exact Hin|].
      destruct Hin as [Hin|[]]. discriminate Hin.
  - rewrite <- E, <- Hfl. exact Hev.
  - rewrite Hev, Hfl, E. assert (Hr : rest = []).
    { apply len_zero. rewrite R, H0. apply Z.mod_0_l. lia. }
    assert (Hf : full = []).
    { destruct full; [reflexivity|]. cbn [List.length] in L.
      rewrite H0, Z.div_0_l in L by lia. lia. }
    rewrite Hr, Hf. reflexivity.
  - subst r. rewrite O. fold N. now rewrite H0.
Qed.

(** C3. For a buffer of N rows and a batch size B >= 1, a call of the loader
    in which the store raises nothing returns exactly N, the number of rows
    submitted, whatever the store did with them. *)
Theorem returns_rows_submitted (df : DataFrame) (statement : sql) (B : Z) (c : Conn) :
  (1 <= B)%Z ->
  quiet (trace (insert_dataframe_in_chunks df statement B c)) ->
  outcome (insert_dataframe_in_chunks df statement B c) = Returned (len (itertuples df))
  /\ len (List.concat (flushes (trace (insert_dataframe_in_chunks df statement B c))))
     = len (itertuples df).
Proof.
  intros _ Q.
  destruct (quiet_loader_run _ _ _ _ _ (loader_run_spec df statement B c) Q)
    as [T O].
  split; [exact O|].
  rewrite T, flushes_committed, batches_concat. reflexivity.
Qed.

(** C9. For every buffer and every batch size B >= 1, when the store raises
    nothing the batches passed to the batched insert, concatenated in the
    order of the calls, are exactly the rows of the buffer in their order:
    every row is submitted once. *)
Theorem preserves_row_order (df : DataFrame) (statement : sql) (B : Z) (c : Conn) :
  (1 <= B)%Z ->
  quiet (trace (insert_dataframe_in_chunks df statement B c)) ->
  List.concat (flushes (trace (insert_dataframe_in_chunks df statement B c)))
  = itertuples df.
Proof.
  intros _ Q.
  destruct (quiet_loader_run _ _ _ _ _ (loader_run_spec df statement B c) Q)
    as [T _].
  rewrite T, flushes_committed. apply batches_concat.
Qed.

(** C10. With a chunk size of 0 or less and a buffer that is not empty the
    test of the loop never holds: when the store raises nothing, all N rows
    are submitted as one batch, after the loop, and N is returned, so that
    the batch has more rows than the chunk size; with a chunk size of 1 or
    more no batch has more rows than the chunk size. *)
Theorem nonpositive_chunk_size (df : DataFrame) (statement : sql) (B : Z) (c : Conn) :
  quiet (trace (insert_dataframe_in_chunks df statement B c)) ->
  let r := insert_dataframe_in_chunks df statement B c in
  ((B <= 0)%Z -> itertuples df <> [] ->
   flushes (trace r) = [itertuples df]
   /\ events (trace r)
      = [Execute BeginTransaction; ExecuteMany statement (itertuples df);
         Execute Commit]
   /\ outcome r = Returned (len (itertuples df))
   /\ (B < len (itertuples df))%Z)
  /\ ((1 <= B)%Z -> Forall (fun b => (len b <= B)%Z) (flushes (trace r))).
Proof.
  intros Q r.
  destruct (quiet_loader_run _ _ _ _ _ (loader_run_spec df statement B c) Q)
    as [T O].
  subst r. rewrite T, O, flushes_committed. split.
  - intros HB Hne. rewrite (batches_nonpositive _ _ HB).
    destruct (itertuples df) as [|x rows] eqn:E; [contradiction|].
    cbn [leftover]. repeat split.
    unfold len. cbn [List.length]. lia.
  - intros HB.
    destruct (batches_positive (itertuples df) B HB) as (full & rest & E & F & _ & R).
    rewrite E. apply Forall_app. split.
    + eapply Forall_impl; [|exact F]. cbn. intros b Hb. lia.
    + destruct rest as [|y rest'] eqn:Er; cbn [leftover]; constructor; [|constructor].
      rewrite R. pose proof (Z.mod_pos_bound (len (itertuples df)) B ltac:(lia)). lia.
Qed.

End QuietLoader.

(** The five sample rows in batches of two: three inserts, the last of one row. *)
Lemma chunk_boundaries_witness :
  Z.of_nat (List.length (flushes (trace (insert_dataframe_in_chunks
     (Conn := Scripted.answers) five_customers insert_customers 2%Z []))))
  = ceil_div 5 2.
Proof.
  apply (chunk_boundaries (Conn := Scripted.answers) five_customers insert_customers
           2%Z []).
  - lia.
  - vm_compute. repeat constructor.
Defined.

(** The five sample rows in batches of two: 5 is returned. *)
Lemma returns_rows_submitted_witness :
  outcome (insert_dataframe_in_chunks (Conn := Scripted.answers)
             five_customers insert_customers 2%Z []) = Returned 5%Z
  /\ len (List.concat (flushes (trace (insert_dataframe_in_chunks
             (Conn := Scripted.answers) five_customers insert_customers 2%Z []))))
     = 5%Z.
Proof.
  apply (returns_rows_submitted (Conn := Scripted.answers) five_customers
           insert_customers 2%Z []).
  - lia.
  - vm_compute. repeat constructor.
Defined.

(** The five sample rows in batches of two come out in their order. *)
Lemma preserves_row_order_witness :
  List.concat (flushes (trace (insert_dataframe_in_chunks (Conn := Scripted.answers)
                            five_customers insert_customers 2%Z [])))
  = itertuples five_customers.
Proof.
  apply (preserves_row_order (Conn := Scripted.answers) five_customers
           insert_customers 2%Z []).
  - lia.
  - vm_compute. repeat constructor.
Defined.

(** The five sample rows with a chunk size of 0: one batch of five rows. *)
Lemma nonpositive_chunk_size_witness :
  flushes (trace (insert_dataframe_in_chunks (Conn := Scripted.answers)
                    five_customers insert_customers 0%Z []))
  = [itertuples five_customers].
Proof.
  apply (nonpositive_chunk_size (Conn := Scripted.answers) five_customers
           insert_customers 0%Z []).
  - vm_compute. repeat constructor.
  - lia.
  - discriminate.
Defined.

(** ** The chunked loader when the store raises *)

Lemma ended_app (a b : list step) : ended (a ++ b) = ended a ++ ended b.
Proof. apply filter_app. Qed.

Lemma ended_inserts (statement : sql) (o : list row -> option exn)
  (bs : list (list row)) :
  ended (map (fun b => mkStep (ExecuteMany statement b) (o b)) bs) = [].
Proof. induction bs as [|b bs IH]; [reflexivity|]. cbn. exact IH. Qed.

Lemma quiet_in (tr : list step) (s : step) :
  quiet tr -> In s tr -> step_raised s = None.
Proof. intros Q I. unfold quiet in Q. rewrite Forall_forall in Q. now apply Q. Qed.

(** An insert that raised, found after inserts that went through and before
    steps that are no inserts, is the one at hand. *)
Lemma raised_insert_in (statement statement' : sql) (done : list (list row))
  (s : step) (post : list step) (b : list row) (e : exn) :
  In (mkStep (ExecuteMany statement' b) (Some e))
     (ok (Execute BeginTransaction)
        :: map (fun b => ok (ExecuteMany statement b)) done ++ s :: post) ->
  (forall x, In x post -> forall st rows, step_event x <> ExecuteMany st rows) ->
  s = mkStep (ExecuteMany statement' b) (Some e).
Proof.
  intros [I|I] Hpost; [discriminate I|].
  apply in_app_or in I. destruct I as [I|[I|I]].
  - apply in_map_iff in I. destruct I as (x & Hx & _). discriminate Hx.
  - exact I.
  - exfalso. exact (Hpost _ I statement' b eq_refl).
Qed.

Section FailingLoader.
Context {Conn : Type} `{Connection Conn}.

(** C2, as amended. If a batched insert of a call of the loader raised an
    error, the trace of the call is the BEGIN, batches of the buffer that went
    through, the insert that raised and one ROLLBACK: no further insert and
    no COMMIT is made, and the ROLLBACK is for the one transaction begun
    before the first batch; when that ROLLBACK did not itself raise, the same
    error is raised to the caller. And on every run whose BEGIN went through
    and whose ROLLBACK, when executed, did not itself raise, exactly one
    COMMIT or ROLLBACK went through, as the last call of the loader: the
    COMMIT when the loader returns, the ROLLBACK when it raises. *)
Theorem rollback_on_error (df : DataFrame) (statement : sql) (B : Z) (c : Conn) :
  let r := insert_dataframe_in_chunks df statement B c in
  (forall st b e,
      In (mkStep (ExecuteMany st b) (Some e)) (trace r) ->
      exists done rest o,
        batches (itertuples df) B = done ++ b :: rest
        /\ trace r = ok (Execute BeginTransaction)
                       :: map (fun b => ok (ExecuteMany statement b)) done
                       ++ [mkStep (ExecuteMany statement b) (Some e);
                           mkStep (Execute Rollback) o]
        /\ (o = None -> outcome r = Raised e))
  /\ (hd_error (trace r) = Some (ok (Execute BeginTransaction)) ->
      (forall e, ~ In (mkStep (Execute Rollback) (Some e)) (trace r)) ->
      exists before last,
        trace r = before ++ [last]
        /\ ended (trace r) = [last]
        /\ (forall n, outcome r = Returned n -> last = ok (Execute Commit))
        /\ (forall e, outcome r = Raised e -> last = ok (Execute Rollback))).
Proof.
  intros r. subst r.
  destruct (loader_run_spec df statement B c) as [e| |done b rest e o D|e o].
  - split.
    + intros st b e0 [I|[]]. discriminate I.
    + intros Hbegin _. discriminate Hbegin.
  - split.
    + intros st b e I. exfalso.
      assert (Q : quiet (ok (Execute BeginTransaction)
                           :: map (fun b => ok (ExecuteMany statement b))
                                (batches (itertuples df) B)
                           ++ [ok (Execute Commit)])).
      { constructor; [reflexivity|]. apply quiet_app. split.
        - apply quiet_map_ok.
        - repeat constructor. }
      discriminate (quiet_in _ _ Q I).
    + intros _ _.
      exists (ok (Execute BeginTransaction)
                :: map (fun b => ok (ExecuteMany statement b))
                     (batches (itertuples df) B)),
             (ok (Execute Commit)).
      repeat split.
      * change (ended ([ok (Execute BeginTransaction)]
                  ++ map (fun b => mkStep (ExecuteMany statement b)
                                          ((fun _ => None) b))
                       (batches (itertuples df) B)
                  ++ [ok (Execute Commit)]) = [ok (Execute Commit)]).
        rewrite !ended_app, ended_inserts. reflexivity.
      * intros e E. discriminate E.
  - split.
    + intros st b' e0 I.
      apply raised_insert_in in I.
      * injection I as -> -> ->. exists done, rest, o.
        split; [exact D|]. split; [reflexivity|]. intros ->. reflexivity.
      * intros x [<-|[]] st' rows'. discriminate.
    + intros _ Hrollback. destruct o as [e'|].
      { exfalso. apply (Hrollback e'). right. apply in_or_app. right. right. now left. }
      exists (ok (Execute BeginTransaction)
                :: map (fun b => ok (ExecuteMany statement b)) done
                ++ [mkStep (ExecuteMany statement b) (Some e)]),
             (ok (Execute Rollback)).
      repeat split.
      * cbn [app]. rewrite <- app_assoc. reflexivity.
      * change (ended ([ok (Execute BeginTransaction)]
                  ++ map (fun b => mkStep (ExecuteMany statement b)
                                          ((fun _ => None) b)) done
                  ++ [mkStep (ExecuteMany statement b) (Some e);
                      ok (Execute Rollback)]) = [ok (Execute Rollback)]).
        rewrite !ended_app, ended_inserts. reflexivity.
      * intros n E. discriminate E.
  - split.
    + intros st b' e0 I. exfalso.
      apply raised_insert_in in I.
      * discriminate I.
      * intros x [<-|[]] st' rows'. discriminate.
    + intros _ Hrollback. destruct o as [e'|].
      { exfalso. apply (Hrollback e'). right. apply in_or_app. right. right. now left. }
      exists (ok (Execute BeginTransaction)
                :: map (fun b => ok (ExecuteMany statement b))
                     (batches (itertuples df) B)
                ++ [mkStep (Execute Commit) (Some e)]),
             (ok (Execute Rollback)).
      repeat split.
      * cbn [app]. rewrite <- app_assoc. reflexivity.
      * change (ended ([ok (Execute BeginTransaction)]
                  ++ map (fun b => mkStep (ExecuteMany statement b)
                                          ((fun _ => None) b))
                       (batches (itertuples df) B)
                  ++ [mkStep (Execute Commit) (Some e);
                      ok (Execute Rollback)]) = [ok (Execute Rollback)]).
        rewrite !ended_app, ended_inserts. reflexivity.
      * intros n E. discriminate E.
Qed.

End FailingLoader.

(** The second insert of the sample raises and the ROLLBACK goes through:
    the first batch had gone through, nothing follows the ROLLBACK, and the
    error of the insert reaches the caller. *)
Lemma rollback_on_error_witness :
  trace second_insert_fails
  = [ ok (Execute BeginTransaction);
      ok (ExecuteMany insert_customers [customer "C1" "A1"; customer "C2" "A1"]);
      mkStep (ExecuteMany insert_customers [customer "C3" "A2"; customer "C4" "A2"])
             (Some disk_full);
      ok (Execute Rollback) ]
  /\ outcome second_insert_fails = Raised disk_full
  /\ ended (trace second_insert_fails) = [ok (Execute Rollback)].
Proof.
  destruct (rollback_on_error (Conn := Scripted.answers) five_customers
              insert_customers 2%Z [None; None; Some disk_full])
    as [Hflush Hend].
  destruct (Hflush insert_customers [customer "C3" "A2"; customer "C4" "A2"] disk_full)
    as (done & rest & o & _ & Htrace & Hraise).
  { vm_compute. auto. }
  destruct Hend as (before & last & _ & Hended & _ & Hlast).
  { reflexivity. }
  { intros e I. vm_compute in I. intuition discriminate. }
  assert (O : o = None).
  { destruct done as [|b1 [|b2 done]]; cbv in Htrace.
    - discriminate Htrace.
    - injection Htrace as _ <-. reflexivity.
    - destruct done; discriminate Htrace. }
  split; [reflexivity|]. split; [exact (Hraise O)|].
  rewrite (Hlast disk_full (Hraise O)) in Hended. exact Hended.
Defined.

(** C2 as stated fails: when the ROLLBACK of the handler raises as well, the
    error that reaches the caller is the one of the ROLLBACK, not the one the
    insert raised, and neither a COMMIT nor a ROLLBACK has gone through. *)
Lemma rollback_error_replaces_insert_error :
  In (mkStep (ExecuteMany insert_customers [customer "C3" "A2"; customer "C4" "A2"])
             (Some disk_full))
     (trace rollback_fails_too)
  /\ outcome rollback_fails_too = Raised no_transaction
  /\ outcome rollback_fails_too <> Raised disk_full
  /\ ended (trace rollback_fails_too) = [].
Proof.
  repeat split.
  - vm_compute. auto.
  - vm_compute. discriminate.
Qed.

(** ** The order of the schema statements *)

(** C5, as amended. The schema statements drop the four tables before any is
    created, every child before the parents it references
    (I_SalesDocumentItem, I_SalesDocument, I_Customer,
    I_AddrOrgNamePostalAddress), and then create the four tables in the order
    I_SalesDocument, I_SalesDocumentItem, I_Customer,
    I_AddrOrgNamePostalAddress: I_SalesDocument before the
    I_SalesDocumentItem that references it, but I_Customer after
    I_SalesDocumentItem and I_AddrOrgNamePostalAddress after I_Customer. *)
Theorem schema_order :
  dropped schema_statements
  = [I_SalesDocumentItem; I_SalesDocument; I_Customer; I_AddrOrgNamePostalAddress]
  /\ created schema_statements
     = [I_SalesDocument; I_SalesDocumentItem; I_Customer; I_AddrOrgNamePostalAddress]
  /\ drops_precede_creates schema_statements = true
  /\ drops_children_first schema_statements = true
  /\ before (is_create_of I_SalesDocument) (is_create_of I_SalesDocumentItem)
            schema_statements = true
  /\ before (is_create_of I_SalesDocumentItem) (is_create_of I_Customer)
            schema_statements = true
  /\ before (is_create_of I_Customer) (is_create_of I_AddrOrgNamePostalAddress)
            schema_statements = true.
Proof. repeat split. Qed.

(** C5 as stated fails: I_SalesDocumentItem declares foreign keys to
    I_Customer, and I_Customer one to I_AddrOrgNamePostalAddress, yet each of
    these parents is created after the child. *)
Lemma parents_created_after_children :
  creates_parents_first schema_statements = false
  /\ In (I_SalesDocumentItem, I_Customer) (references schema_statements)
  /\ before (is_create_of I_Customer) (is_create_of I_SalesDocumentItem)
            schema_statements = false
  /\ In (I_Customer, I_AddrOrgNamePostalAddress) (references schema_statements)
  /\ before (is_create_of I_AddrOrgNamePostalAddress) (is_create_of I_Customer)
            schema_statements = false.
Proof.
  repeat split.
  - cbn. auto.
  - cbn. auto 10.
Qed.

(** ** Runs of the whole script *)

Lemma stops_after_quiet (a tr : list step) :
  quiet a -> stops_at_first_error tr -> stops_at_first_error (a ++ tr).
Proof.
  intros Qa (before & s & after & -> & Q & R & P).
  exists (a ++ before), s, after. repeat split.
  - now rewrite app_assoc.
  - apply quiet_app. now split.
  - exact R.
  - exact P.
Qed.

Lemma fail_fast_bind {Conn A B} (m : M Conn A) (f : A -> M Conn B) (c : Conn) :
  fail_fast (m c) ->
  (forall a c', fail_fast (f a c')) ->
  fail_fast (bind m f c).
Proof.
  unfold fail_fast, bind. intros Hm Hf.
  destruct (outcome (m c)) as [a|e]; cbn [outcome trace]; [|exact Hm].
  specialize (Hf a (final (m c))).
  destruct (outcome (f a (final (m c)))) as [b|e].
  - apply quiet_app. now split.
  - now apply stops_after_quiet.
Qed.

Lemma fail_fast_call {Conn} (ev : event) (method : Conn -> Conn * option exn) (c : Conn) :
  fail_fast (call ev method c).
Proof.
  unfold fail_fast. rewrite call_run. cbn [outcome trace].
  destruct (snd (method c)) as [e|].
  - exists [], (mkStep ev (Some e)), []. repeat split.
    + constructor.
    + discriminate.
    + now left.
  - repeat constructor.
Qed.

Lemma fail_fast_print {Conn} (line : string) (c : Conn) : fail_fast (print line c).
Proof. repeat constructor. Qed.

Section ScriptRuns.
Context {Conn : Type} `{Connection Conn}.
Variable read_parquet : string -> list string -> result DataFrame.

Lemma fail_fast_read (path : string) (columns : list string) (c : Conn) :
  fail_fast (pd_read_parquet read_parquet path columns c).
Proof.
  unfold fail_fast, pd_read_parquet.
  destruct (read_parquet path columns) as [df|e]; cbn [outcome trace].
  - repeat constructor.
  - exists [], (mkStep (ReadParquet path columns) (Some e)), []. repeat split.
    + constructor.
    + discriminate.
    + now left.
Qed.

Lemma fail_fast_astype (df : DataFrame) (label : string) (c : Conn) :
  fail_fast (df_astype_str df label c).
Proof.
  unfold fail_fast, df_astype_str.
  destruct (astype_str df label) as [df'|e]; cbn [outcome trace].
  - repeat constructor.
  - exists [], (mkStep (AsTypeStr label) (Some e)), []. repeat split.
    + constructor.
    + discriminate.
    + now left.
Qed.

Lemma fail_fast_loader (df : DataFrame) (statement : sql) (B : Z) (c : Conn) :
  fail_fast (insert_dataframe_in_chunks df statement B c).
Proof.
  unfold fail_fast.
  destruct (loader_run_spec df statement B c) as [e| |done b rest e o D|e o].
  - exists [], (mkStep (Execute BeginTransaction) (Some e)), []. repeat split.
    + constructor.
    + discriminate.
    + now left.
  - constructor; [reflexivity|]. apply quiet_app. split.
    + apply quiet_map_ok.
    + repeat constructor.
  - exists (ok (Execute BeginTransaction)
              :: map (fun b => ok (ExecuteMany statement b)) done),
           (mkStep (ExecuteMany statement b) (Some e)),
           [mkStep (Execute Rollback) o].
    repeat split.
    + constructor; [reflexivity|]. apply quiet_map_ok.
    + discriminate.
    + right. now exists o.
  - exists (ok (Execute BeginTransaction)
              :: map (fun b => ok (ExecuteMany statement b))
                   (batches (itertuples df) B)),
           (mkStep (Execute Commit) (Some e)),
           [mkStep (Execute Rollback) o].
    repeat split.
    + constructor; [reflexivity|]. apply quiet_map_ok.
    + discriminate.
    + right. now exists o.
Qed.

Lemma fail_fast_execute_all (statements : list sql) (c : Conn) :
  fail_fast (execute_all statements c).
Proof.
  revert c. induction statements as [|s statements IH]; intros c; cbn [execute_all].
  - constructor.
  - apply fail_fast_bind; [apply fail_fast_call|]. intros _ c'. apply IH.
Qed.

End ScriptRuns.

(** ** What a run of the script in which nothing raised looks like *)

Lemma quiet_bind {Conn A B} (m : M Conn A) (f : A -> M Conn B) (c : Conn) :
  fail_fast (m c) ->
  quiet (trace (bind m f c)) ->
  exists a,
    outcome (m c) = Returned a
    /\ quiet (trace (m c))
    /\ quiet (trace (f a (final (m c))))
    /\ trace (bind m f c) = trace (m c) ++ trace (f a (final (m c)))
    /\ outcome (bind m f c) = outcome (f a (final (m c))).
Proof.
  unfold fail_fast, bind. intros F Q.
  destruct (outcome (m c)) as [a|e]; cbn [outcome trace] in *.
  - exists a. apply quiet_app in Q. destruct Q as [Q1 Q2]. repeat split; assumption.
  - exfalso. destruct F as (before & s & after & E & _ & R & _).
    rewrite E in Q. apply quiet_app in Q. destruct Q as [_ Q].
    inversion Q as [|? ? Hs _]. exact (R Hs).
Qed.

Section QuietScript.
Context {Conn : Type} `{Connection Conn}.
Variable read_parquet : string -> list string -> result DataFrame.

(** The chunked loader followed by the report of the count it returned. *)
Lemma load_and_report (df : DataFrame) (statement : sql) (report : Z -> string)
  (c : Conn) :
  quiet (trace (bind (insert_dataframe_in_chunks df statement CHUNK_SIZE)
                     (fun n => print (report n)) c)) ->
  events (trace (bind (insert_dataframe_in_chunks df statement CHUNK_SIZE)
                      (fun n => print (report n)) c))
  = [Execute BeginTransaction]
    ++ map (ExecuteMany statement) (batches (itertuples df) CHUNK_SIZE)
    ++ [Execute Commit; Print (report (len (itertuples df)))]
  /\ outcome (bind (insert_dataframe_in_chunks df statement CHUNK_SIZE)
                   (fun n => print (report n)) c) = Returned tt.
Proof.
  intros Q.
  destruct (quiet_bind _ _ c (fail_fast_loader df statement CHUNK_SIZE c) Q)
    as (n & O & Q1 & _ & T & O').
  destruct (quiet_loader_run _ _ _ _ _ (loader_run_spec df statement CHUNK_SIZE c) Q1)
    as [T1 O1].
  rewrite O in O1. injection O1 as ->.
  rewrite T, O', T1. split; [|reflexivity].
  rewrite events_app. cbn [events map app print trace]. f_equal.
  rewrite map_app, map_map. cbn [map step_event ok].
  rewrite <- app_assoc. reflexivity.
Qed.

(** The announcement and the read of a source file, followed by the rest. *)
Lemma announce_and_read {A} (path : string) (columns : list string)
  (rest : DataFrame -> M Conn A) (c : Conn) :
  quiet (trace (bind (print ("Reading " ++ path ++ "..."))
                     (fun _ => bind (pd_read_parquet read_parquet path columns) rest) c)) ->
  exists df,
    read_parquet path columns = Returned df
    /\ quiet (trace (rest df c))
    /\ events (trace (bind (print ("Reading " ++ path ++ "..."))
                           (fun _ => bind (pd_read_parquet read_parquet path columns) rest) c))
       = [Print ("Reading " ++ path ++ "..."); ReadParquet path columns]
         ++ events (trace (rest df c))
    /\ outcome (bind (print ("Reading " ++ path ++ "..."))
                     (fun _ => bind (pd_read_parquet read_parquet path columns) rest) c)
       = outcome (rest df c)
    /\ final (bind (print ("Reading " ++ path ++ "..."))
                   (fun _ => bind (pd_read_parquet read_parquet path columns) rest) c)
       = final (rest df c).
Proof.
  unfold bind, print, pd_read_parquet. cbn [outcome trace final app].
  destruct (read_parquet path columns) as [df|e]; cbn [outcome trace final app].
  - intros Q. exists df. inversion Q as [|? ? _ Q1]. inversion Q1 as [|? ? _ Q2].
    repeat split. exact Q2.
  - intros Q. exfalso. exact (not_quiet_raised [_] _ e [] Q).
Qed.

(** The text conversion of a column, followed by the rest. *)
Lemma convert_column {A} (df : DataFrame) (label : string)
  (rest : DataFrame -> M Conn A) (c : Conn) :
  quiet (trace (bind (df_astype_str df label) rest c)) ->
  exists df',
    astype_str df label = Returned df'
    /\ quiet (trace (rest df' c))
    /\ events (trace (bind (df_astype_str df label) rest c))
       = AsTypeStr label :: events (trace (rest df' c))
    /\ outcome (bind (df_astype_str df label) rest c) = outcome (rest df' c)
    /\ final (bind (df_astype_str df label) rest c) = final (rest df' c).
Proof.
  unfold bind, df_astype_str.
  destruct (astype_str df label) as [df'|e]; cbn [outcome trace final app].
  - intros Q. exists df'. inversion Q as [|? ? _ Q1]. repeat split. exact Q1.
  - intros Q. exfalso. exact (not_quiet_raised [] _ e [] Q).
Qed.

End QuietScript.

Section ScriptStages.
Context {Conn : Type} `{Connection Conn}.
Variable read_parquet : string -> list string -> result DataFrame.

Lemma execute_all_quiet (statements : list sql) (c : Conn) :
  quiet (trace (execute_all statements c)) ->
  events (trace (execute_all statements c)) = map Execute statements
  /\ outcome (execute_all statements c) = Returned tt.
Proof.
  revert c. induction statements as [|s statements IH]; intros c; cbn [execute_all].
  - intros _. split; reflexivity.
  - unfold conn_execute. rewrite bind_call.
    destruct (snd (execute s c)) as [e|]; cbn [outcome trace].
    + intros Q. exfalso. exact (not_quiet_raised [] _ e [] Q).
    + intros Q. inversion Q as [|? ? _ Q1].
      destruct (IH _ Q1) as [E O]. split; [|exact O].
      cbn [events map step_event ok]. f_equal. exact E.
Qed.

Lemma define_schema_quiet (c : Conn) :
  quiet (trace (define_schema c)) ->
  events (trace (define_schema c)) = map Execute schema_statements ++ [ConnCommit]
  /\ outcome (define_schema c) = Returned tt.
Proof.
  unfold define_schema. intros Q.
  destruct (quiet_bind _ _ c (fail_fast_execute_all schema_statements c) Q)
    as ([] & O & Q1 & Q2 & T & O').
  destruct (execute_all_quiet _ _ Q1) as [E _].
  rewrite T, O', events_app, E. unfold conn_commit in *. rewrite call_run in *.
  cbn [trace outcome] in *.
  destruct (snd (commit (final (execute_all schema_statements c)))) as [e|].
  - exfalso. exact (not_quiet_raised [] _ e [] Q2).
  - split; reflexivity.
Qed.

Lemma fail_fast_define_schema (c : Conn) : fail_fast (define_schema c).
Proof.
  unfold define_schema. apply fail_fast_bind.
  - apply fail_fast_execute_all.
  - intros _ c'. apply fail_fast_call.
Qed.

(** One load: announce, read, convert the given columns, load, report. *)
Ltac fail_fast_load :=
  repeat first
    [ apply fail_fast_print
    | apply fail_fast_read
    | apply fail_fast_astype
    | apply fail_fast_loader
    | apply fail_fast_bind; [|intros ? ?] ].

Lemma fail_fast_load_addresses (c : Conn) : fail_fast (load_addresses read_parquet c).
Proof. unfold load_addresses. fail_fast_load. Qed.

Lemma fail_fast_load_customers (c : Conn) : fail_fast (load_customers read_parquet c).
Proof. unfold load_customers. fail_fast_load. Qed.

Lemma fail_fast_load_salesdocuments (c : Conn) :
  fail_fast (load_salesdocuments read_parquet c).
Proof. unfold load_salesdocuments. fail_fast_load. Qed.

Lemma fail_fast_load_salesdocument_items (c : Conn) :
  fail_fast (load_salesdocument_items read_parquet c).
Proof. unfold load_salesdocument_items. fail_fast_load. Qed.

Lemma fail_fast_load_all (c : Conn) : fail_fast (load_all read_parquet c).
Proof.
  unfold load_all.
  apply fail_fast_bind; [apply fail_fast_load_addresses|intros _ c1].
  apply fail_fast_bind; [apply fail_fast_load_customers|intros _ c2].
  apply fail_fast_bind; [apply fail_fast_load_salesdocuments|intros _ c3].
  apply fail_fast_load_salesdocument_items.
Qed.

Lemma fail_fast_script (c : Conn) : fail_fast (build_SALT_data read_parquet c).
Proof.
  unfold build_SALT_data.
  apply fail_fast_bind; [apply fail_fast_define_schema|intros _ c1].
  apply fail_fast_bind; [apply fail_fast_load_all|intros _ c2].
  apply fail_fast_bind; [apply fail_fast_call|intros _ c3].
  apply fail_fast_print.
Qed.

Lemma load_addresses_quiet (c : Conn) :
  quiet (trace (load_addresses read_parquet c)) ->
  exists df,
    read_parquet addresses_parquet address_columns = Returned df
    /\ events (trace (load_addresses read_parquet c))
       = load_events addresses_parquet address_columns I_AddrOrgNamePostalAddress [] df
    /\ outcome (load_addresses read_parquet c) = Returned tt.
Proof.
  unfold load_addresses. intros Q.
  destruct (announce_and_read _ _ _ _ c Q) as (df & R & Q1 & E & O & _).
  destruct (load_and_report df _ _ c Q1) as [E1 O1].
  exists df. split; [exact R|]. rewrite E, O. split; [|exact O1].
  cbv zeta. rewrite E1. reflexivity.
Qed.

Lemma load_customers_quiet (c : Conn) :
  quiet (trace (load_customers read_parquet c)) ->
  exists df,
    read_parquet customers_parquet customer_columns = Returned df
    /\ events (trace (load_customers read_parquet c))
       = load_events customers_parquet customer_columns I_Customer [] df
    /\ outcome (load_customers read_parquet c) = Returned tt.
Proof.
  unfold load_customers. intros Q.
  destruct (announce_and_read _ _ _ _ c Q) as (df & R & Q1 & E & O & _).
  destruct (load_and_report df _ _ c Q1) as [E1 O1].
  exists df. split; [exact R|]. rewrite E, O. split; [|exact O1].
  cbv zeta. rewrite E1. reflexivity.
Qed.

Lemma load_salesdocument_items_quiet (c : Conn) :
  quiet (trace (load_salesdocument_items read_parquet c)) ->
  exists df,
    read_parquet salesdoc_items_parquet sales_item_columns = Returned df
    /\ events (trace (load_salesdocument_items read_parquet c))
       = load_events salesdoc_items_parquet sales_item_columns I_SalesDocumentItem [] df
    /\ outcome (load_salesdocument_items read_parquet c) = Returned tt.
Proof.
  unfold load_salesdocument_items. intros Q.
  destruct (announce_and_read _ _ _ _ c Q) as (df & R & Q1 & E & O & _).
  destruct (load_and_report df _ _ c Q1) as [E1 O1].
  exists df. split; [exact R|]. rewrite E, O. split; [|exact O1].
  cbv zeta. rewrite E1. reflexivity.
Qed.

Lemma load_salesdocuments_quiet (c : Conn) :
  quiet (trace (load_salesdocuments read_parquet c)) ->
  exists df df1 df2,
    read_parquet salesdocuments_parquet sales_doc_columns = Returned df
    /\ astype_str df "CREATIONDATE" = Returned df1
    /\ astype_str df1 "CREATIONTIME" = Returned df2
    /\ events (trace (load_salesdocuments read_parquet c))
       = load_events salesdocuments_parquet sales_doc_columns I_SalesDocument
           [AsTypeStr "CREATIONDATE"; AsTypeStr "CREATIONTIME"] df2
    /\ outcome (load_salesdocuments read_parquet c) = Returned tt.
Proof.
  unfold load_salesdocuments. intros Q.
  destruct (announce_and_read _ _ _ _ c Q) as (df & R & Q1 & E & O & _).
  destruct (convert_column _ _ _ c Q1) as (df1 & A1 & Q2 & E1 & O1 & _).
  destruct (convert_column _ _ _ c Q2) as (df2 & A2 & Q3 & E2 & O2 & _).
  destruct (load_and_report df2 _ _ c Q3) as [E3 O3].
  exists df, df1, df2. repeat split; try assumption.
  - rewrite E, E1, E2. cbv zeta. rewrite E3. reflexivity.
  - rewrite O, O1, O2. exact O3.
Qed.

End ScriptStages.

(** ** The load sequence *)

Section LoadSequence.
Context {Conn : Type} `{Connection Conn}.
Variable read_parquet : string -> list string -> result DataFrame.

(** The events of a run of the script in which no call raised. *)
Lemma quiet_script_events (c : Conn) :
  quiet (trace (build_SALT_data read_parquet c)) ->
  exists df_addresses df_customers df_salesdocuments df1 df2 df_salesdocument_items,
    read_parquet addresses_parquet address_columns = Returned df_addresses
    /\ read_parquet customers_parquet customer_columns = Returned df_customers
    /\ read_parquet salesdocuments_parquet sales_doc_columns = Returned df_salesdocuments
    /\ astype_str df_salesdocuments "CREATIONDATE" = Returned df1
    /\ astype_str df1 "CREATIONTIME" = Returned df2
    /\ read_parquet salesdoc_items_parquet sales_item_columns
       = Returned df_salesdocument_items
    /\ events (trace (build_SALT_data read_parquet c))
       = (map Execute schema_statements ++ [ConnCommit])
         ++ load_events addresses_parquet address_columns
              I_AddrOrgNamePostalAddress [] df_addresses
         ++ load_events customers_parquet customer_columns I_Customer [] df_customers
         ++ load_events salesdocuments_parquet sales_doc_columns I_SalesDocument
              [AsTypeStr "CREATIONDATE"; AsTypeStr "CREATIONTIME"] df2
         ++ load_events salesdoc_items_parquet sales_item_columns
              I_SalesDocumentItem [] df_salesdocument_items
         ++ [ConnClose;
             Print ("Done! The SALT tables have been saved into " ++ sqlite_db_file)]
    /\ outcome (build_SALT_data read_parquet c) = Returned tt.
Proof.
  unfold build_SALT_data. intros Q.
  destruct (quiet_bind _ _ c (fail_fast_define_schema c) Q)
    as ([] & _ & Q0 & Q1 & T0 & O0).
  destruct (define_schema_quiet c Q0) as [E0 _].
  set (c0 := final (define_schema c)) in *.
  destruct (quiet_bind _ _ c0 (fail_fast_load_all read_parquet c0) Q1)
    as ([] & _ & QL & QC & TL & OL).
  unfold load_all in QL.
  (* the four loads *)
  destruct (quiet_bind _ _ c0 (fail_fast_load_addresses read_parquet c0) QL)
    as ([] & _ & Qa & Q2 & Ta & _).
  destruct (load_addresses_quiet read_parquet c0 Qa) as (dfa & Ra & Ea & _).
  set (c1 := final (load_addresses read_parquet c0)) in *.
  destruct (quiet_bind _ _ c1 (fail_fast_load_customers read_parquet c1) Q2)
    as ([] & _ & Qc & Q3 & Tc & _).
  destruct (load_customers_quiet read_parquet c1 Qc) as (dfc & Rc & Ec & _).
  set (c2 := final (load_customers read_parquet c1)) in *.
  destruct (quiet_bind _ _ c2 (fail_fast_load_salesdocuments read_parquet c2) Q3)
    as ([] & _ & Qs & Qi & Ts & _).
  destruct (load_salesdocuments_quiet read_parquet c2 Qs)
    as (dfs & df1 & df2 & Rs & A1 & A2 & Es & _).
  set (c3 := final (load_salesdocuments read_parquet c2)) in *.
  destruct (load_salesdocument_items_quiet read_parquet c3 Qi) as (dfi & Ri & Ei & _).
  (* the close and the last line *)
  set (c4 := final _) in QC, OL.
  unfold conn_close in QC, OL. rewrite bind_call in QC, OL.
  destruct (snd (close c4)) as [e|] eqn:Ecl.
  { exfalso. exact (not_quiet_raised [] _ e [] QC). }
  exists dfa, dfc, dfs, df1, df2, dfi. repeat split; try assumption.
  - rewrite T0, events_app, E0. f_equal.
    rewrite TL, events_app. unfold load_all at 1.
    rewrite Ta, events_app, Ea, Tc, events_app, Ec, Ts, events_app,
      Es, Ei.
    rewrite <- !app_assoc. repeat f_equal.
    fold c4. unfold conn_close. rewrite bind_call, Ecl. reflexivity.
  - rewrite O0. unfold conn_close. rewrite OL. reflexivity.
Qed.

(** C8. In a run of the script in which no call raised, the four loads come
    in the order Address, Customer, SalesDocument, SalesDocumentItem, after
    the schema statements and before the close: each load announces and reads
    its source file with its column list, hands the buffer (for the sales
    documents after the two text conversions) to the chunked loader with the
    insert template of its table, and reports the count of rows of the
    buffer. *)
Theorem loads_in_dependency_order (c : Conn) :
  quiet (trace (build_SALT_data read_parquet c)) ->
  exists df_addresses df_customers df_salesdocuments df1 df2 df_salesdocument_items,
    read_parquet addresses_parquet address_columns = Returned df_addresses
    /\ read_parquet customers_parquet customer_columns = Returned df_customers
    /\ read_parquet salesdocuments_parquet sales_doc_columns = Returned df_salesdocuments
    /\ astype_str df_salesdocuments "CREATIONDATE" = Returned df1
    /\ astype_str df1 "CREATIONTIME" = Returned df2
    /\ read_parquet salesdoc_items_parquet sales_item_columns
       = Returned df_salesdocument_items
    /\ events (trace (build_SALT_data read_parquet c))
       = (map Execute schema_statements ++ [ConnCommit])
         ++ load_events addresses_parquet address_columns
              I_AddrOrgNamePostalAddress [] df_addresses
         ++ load_events customers_parquet customer_columns I_Customer [] df_customers
         ++ load_events salesdocuments_parquet sales_doc_columns I_SalesDocument
              [AsTypeStr "CREATIONDATE"; AsTypeStr "CREATIONTIME"] df2
         ++ load_events salesdoc_items_parquet sales_item_columns
              I_SalesDocumentItem [] df_salesdocument_items
         ++ [ConnClose;
             Print ("Done! The SALT tables have been saved into " ++ sqlite_db_file)]
    /\ outcome (build_SALT_data read_parquet c) = Returned tt.
Proof. apply quiet_script_events. Qed.

End LoadSequence.

(** The script on the sample files completes. *)
Lemma loads_in_dependency_order_witness : outcome sample_run = Returned tt.
Proof.
  assert (Q : quiet (trace sample_run)) by (vm_compute; repeat constructor).
  destruct (loads_in_dependency_order (Conn := Scripted.answers) sample_source [] Q)
    as (? & ? & ? & ? & ? & ? & _ & _ & _ & _ & _ & _ & _ & O).
  exact O.
Defined.

(** ** The close of the connection *)

Lemma never_closed_app (a b : list step) :
  never_closed (a ++ b) <-> never_closed a /\ never_closed b.
Proof. apply Forall_app. Qed.

Lemma never_closed_bind {Conn A B} (m : M Conn A) (f : A -> M Conn B) (c : Conn) :
  never_closed (trace (m c)) ->
  (forall a c', never_closed (trace (f a c'))) ->
  never_closed (trace (bind m f c)).
Proof.
  unfold bind. intros Hm Hf.
  destruct (outcome (m c)) as [a|e]; cbn [trace]; [|exact Hm].
  apply never_closed_app. split; [exact Hm|apply Hf].
Qed.

Lemma never_closed_call {Conn} (ev : event) (method : Conn -> Conn * option exn)
  (c : Conn) :
  ev <> ConnClose -> never_closed (trace (call ev method c)).
Proof. intros N. rewrite call_run. repeat constructor. exact N. Qed.

Lemma never_closed_in (tr : list step) (s : step) :
  never_closed tr -> In s tr -> step_event s <> ConnClose.
Proof. intros N I. unfold never_closed in N. rewrite Forall_forall in N. now apply N. Qed.

Section ClosingScript.
Context {Conn : Type} `{Connection Conn}.
Variable read_parquet : string -> list string -> result DataFrame.

Lemma never_closed_loader (df : DataFrame) (statement : sql) (B : Z) (c : Conn) :
  never_closed (trace (insert_dataframe_in_chunks df statement B c)).
Proof.
  destruct (loader_run_spec df statement B c) as [e| |done b rest e o D|e o];
    repeat first
      [ apply Forall_cons; [discriminate|]
      | apply Forall_nil
      | apply Forall_app; split
      | apply Forall_map; apply Forall_forall; intros ? _; discriminate ].
Qed.

Lemma never_closed_execute_all (statements : list sql) (c : Conn) :
  never_closed (trace (execute_all statements c)).
Proof.
  revert c. induction statements as [|s statements IH]; intros c; cbn [execute_all].
  - constructor.
  - apply never_closed_bind; [apply never_closed_call; discriminate|].
    intros _ c'. apply IH.
Qed.

Lemma never_closed_read (path : string) (columns : list string) (c : Conn) :
  never_closed (trace (pd_read_parquet read_parquet path columns c)).
Proof.
  unfold pd_read_parquet. destruct (read_parquet path columns);
    repeat constructor; discriminate.
Qed.

Lemma never_closed_astype (df : DataFrame) (label : string) (c : Conn) :
  never_closed (trace (df_astype_str df label c)).
Proof.
  unfold df_astype_str. destruct (astype_str df label);
    repeat constructor; discriminate.
Qed.

Lemma never_closed_print (line : string) (c : Conn) :
  never_closed (trace (print line c)).
Proof. repeat constructor. discriminate. Qed.

Ltac never_closed_steps :=
  repeat first
    [ apply never_closed_loader
    | apply never_closed_execute_all
    | apply never_closed_read
    | apply never_closed_astype
    | apply never_closed_print
    | apply never_closed_call; discriminate
    | apply never_closed_bind; [|intros ? ?] ].

(** The schema statements and the four loads never call [conn.close()]. *)
Lemma never_closed_before_close (c : Conn) :
  never_closed (trace (bind define_schema (fun _ => load_all read_parquet) c)).
Proof.
  unfold define_schema, load_all, load_addresses, load_customers,
    load_salesdocuments, load_salesdocument_items, conn_commit.
  never_closed_steps.
Qed.

Lemma fail_fast_before_close (c : Conn) :
  fail_fast (bind define_schema (fun _ => load_all read_parquet) c).
Proof.
  apply fail_fast_bind; [apply fail_fast_define_schema|].
  intros _ c'. apply fail_fast_load_all.
Qed.

(** C6, as amended. When the script raises, it stopped at the first call
    that raised: every call before it went through and after it only the
    ROLLBACK of the loader's handler was executed, so that no remaining load
    was attempted; the error leaves the script without the connection having
    been closed, and when a call other than the close itself raised, the
    close was not even attempted. *)
Theorem fails_fast_without_closing (c : Conn) (e : exn) :
  outcome (build_SALT_data read_parquet c) = Raised e ->
  stops_at_first_error (trace (build_SALT_data read_parquet c))
  /\ ~ In (ok ConnClose) (trace (build_SALT_data read_parquet c))
  /\ (forall s, In s (trace (build_SALT_data read_parquet c)) ->
                step_raised s <> None ->
                step_event s <> ConnClose ->
                ~ In ConnClose (events (trace (build_SALT_data read_parquet c)))).
Proof.
  intros O. split.
  { pose proof (fail_fast_script read_parquet c) as F. unfold fail_fast in F.
    now rewrite O in F. }
  revert O. unfold build_SALT_data.
  rewrite <- (bind_assoc define_schema (fun _ => load_all read_parquet)).
  set (before := bind define_schema (fun _ => load_all read_parquet)).
  pose proof (never_closed_before_close c) as N. fold before in N.
  pose proof (fail_fast_before_close c) as F. fold before in F.
  unfold fail_fast in F. rewrite (bind_unfold before).
  destruct (outcome (before c)) as [[]|e0]; cbn [outcome trace].
  - unfold conn_close. rewrite bind_call.
    destruct (snd (close (final (before c)))) as [e1|]; cbn [outcome trace].
    + intros _. split.
      * intros I. apply in_app_or in I. destruct I as [I|[I|[]]].
        -- exact (never_closed_in _ _ N I eq_refl).
        -- discriminate I.
      * intros s I R E. exfalso. apply in_app_or in I. destruct I as [I|[<-|[]]].
        -- exact (R (quiet_in _ _ F I)).
        -- exact (E eq_refl).
    + discriminate.
  - intros _. split.
    + intros I. exact (never_closed_in _ _ N I eq_refl).
    + intros s _ _ _ I. unfold events in I. apply in_map_iff in I.
      destruct I as (x & Ex & Ix). exact (never_closed_in _ _ N Ix Ex).
Qed.

End ClosingScript.

(** The insert of the addresses raises on the sample files: the script
    raises that error, having stopped there. *)
Lemma fails_fast_without_closing_witness :
  stops_at_first_error (trace address_load_fails)
  /\ ~ In (ok ConnClose) (trace address_load_fails).
Proof.
  assert (O : outcome address_load_fails = Raised disk_full) by reflexivity.
  destruct (fails_fast_without_closing (Conn := Scripted.answers) sample_source
              _ disk_full O) as (S & C & _).
  split; assumption.
Defined.

(** C6 as stated fails: the insert of the addresses raises, no load of the
    other entities is attempted, and the error leaves the script while the
    connection has not been closed. *)
Lemma error_propagates_before_close :
  outcome address_load_fails = Raised disk_full
  /\ ~ In ConnClose (events (trace address_load_fails))
  /\ ~ In (ReadParquet customers_parquet customer_columns)
          (events (trace address_load_fails)).
Proof.
  split; [reflexivity|]. split; intros I; vm_compute in I; intuition discriminate.
Qed.

(** ** Cells of a row and inserts into a table *)

Lemma update_cell_same (i : nat) (f : value -> value) (r : row) (v : value) :
  nth_error r i = Some v -> nth_error (update_cell i f r) i = Some (f v).
Proof.
  revert i. induction r as [|x r IH]; intros [|i] E; cbn in *;
    try discriminate.
  - now injection E as ->.
  - now apply IH.
Qed.

Lemma update_cell_other (i j : nat) (f : value -> value) (r : row) :
  i <> j -> nth_error (update_cell i f r) j = nth_error r j.
Proof.
  revert i j. induction r as [|x r IH]; intros [|i] [|j] N; cbn;
    try reflexivity.
  - contradiction.
  - apply IH. congruence.
Qed.

Lemma inserted_into_app (t : table) (a b : list event) :
  inserted_into t (a ++ b) = inserted_into t a ++ inserted_into t b.
Proof. apply flat_map_app. Qed.

Lemma inserted_into_batches (t t' : table) (columns : list string)
  (bs : list (list row)) :
  inserted_into t (map (ExecuteMany (InsertOrIgnore t' columns)) bs)
  = if table_eqb t t' then bs else [].
Proof.
  induction bs as [|b bs IH]; cbn.
  - now destruct (table_eqb t t').
  - fold (inserted_into t (map (ExecuteMany (InsertOrIgnore t' columns)) bs)).
    rewrite IH. now destruct (table_eqb t t').
Qed.

(** The inserts of one load go to its table only. *)
Lemma inserted_into_load (t t' : table) (path : string) (columns : list string)
  (normalisation : list string) (df : DataFrame) :
  inserted_into t (load_events path columns t' (map AsTypeStr normalisation) df)
  = if table_eqb t t' then batches (itertuples df) CHUNK_SIZE else [].
Proof.
  unfold load_events. rewrite !inserted_into_app, inserted_into_batches.
  assert (N : inserted_into t (map AsTypeStr normalisation) = []).
  { induction normalisation as [|l ls IH]; [reflexivity|exact IH]. }
  rewrite N. cbn. now rewrite app_nil_r.
Qed.

(** ** The insert policy of the store *)

Lemma table_eqb_refl (t : table) : table_eqb t t = true.
Proof. now destruct t. Qed.

Lemma table_eqb_eq (t t' : table) : table_eqb t t' = true -> t = t'.
Proof. destruct t, t'; cbn; congruence. Qed.

Lemma lookup_set_same (t : table) (r : option Store.relation) (ts : Store.tables) :
  Store.lookup (Store.set_table t r ts) t = r.
Proof. now destruct t. Qed.

Lemma lookup_set_other (t t' : table) (r : option Store.relation) (ts : Store.tables) :
  table_eqb t t' = false ->
  Store.lookup (Store.set_table t r ts) t' = Store.lookup ts t'.
Proof. destruct t, t'; cbn; congruence. Qed.

Lemma set_table_lookup (t : table) (ts : Store.tables) (r : option Store.relation) :
  Store.lookup ts t = r -> Store.set_table t r ts = ts.
Proof. intros <-. now destruct t, ts. Qed.

Lemma set_table_twice (t : table) (r r' : option Store.relation) (ts : Store.tables) :
  Store.set_table t r (Store.set_table t r' ts) = Store.set_table t r ts.
Proof. now destruct t. Qed.

(** A value that is not missing equals itself. *)
Lemma value_eqb_refl (v : value) : v <> PyNone -> value_eqb v v = true.
Proof.
  destruct v; cbn; intros N; rewrite ?String.eqb_refl, ?Nat.eqb_refl;
    try reflexivity.
  now destruct N.
Qed.

Lemma key_eqb_refl (k : list value) :
  (forall v, In v k -> v <> PyNone) -> key_eqb k k = true.
Proof.
  induction k as [|v k IH]; cbn; intros N; [reflexivity|].
  rewrite value_eqb_refl by (apply N; now left).
  apply IH. intros x I. apply N. now right.
Qed.

(** A key with a missing value is the key of no row. *)
Lemma key_eqb_missing (k k' : list value) : In PyNone k -> key_eqb k k' = false.
Proof.
  revert k'. induction k as [|x k IH]; intros k' I; [destruct I|].
  destruct k' as [|x' k']; [reflexivity|]. cbn.
  destruct I as [->|I]; [reflexivity|].
  rewrite (IH k' I). apply andb_false_r.
Qed.

Lemma missing_key_never_present (k : list value) (rows : list (list value * row)) :
  In PyNone k -> Store.has_key k rows = false.
Proof.
  intros I. unfold Store.has_key. destruct k as [|v k]; [reflexivity|].
  induction rows as [|[k' r] rows IH]; cbn [existsb fst]; [reflexivity|].
  now rewrite IH, (key_eqb_missing _ k' I).
Qed.

Lemma adapted_bound (columns : list string) (r : row) (label : string) :
  Store.bound columns (stored r) label = Store.adapted (Store.bound columns r label).
Proof.
  unfold Store.bound, stored. destruct (index_of label columns) as [i|]; [|reflexivity].
  exact (map_nth Store.adapted r PyNone i).
Qed.

Lemma keyed_stored (columns : list string) (rel : Store.relation) (r : row) :
  keyed columns rel r -> keyed columns rel (stored r).
Proof.
  intros [K N]. split; [exact K|]. intros k I. rewrite adapted_bound.
  specialize (N k I). now destruct (Store.bound columns r k).
Qed.

Lemma insert_or_ignore_key (columns : list string) (rel : Store.relation) (r : row) :
  Store.rel_key (Store.insert_or_ignore columns rel r) = Store.rel_key rel.
Proof. unfold Store.insert_or_ignore. now destruct (Store.has_key _ _). Qed.

Lemma insert_or_ignore_columns (columns : list string) (rel : Store.relation) (r : row) :
  Store.rel_columns (Store.insert_or_ignore columns rel r) = Store.rel_columns rel.
Proof. unfold Store.insert_or_ignore. now destruct (Store.has_key _ _). Qed.

Lemma insert_or_ignore_foreign_keys (columns : list string) (rel : Store.relation)
  (r : row) :
  Store.rel_foreign_keys (Store.insert_or_ignore columns rel r)
  = Store.rel_foreign_keys rel.
Proof. unfold Store.insert_or_ignore. now destruct (Store.has_key _ _). Qed.

(** A row whose key is in the table leaves the table as it is. *)
Lemma insert_or_ignore_present (columns : list string) (rel : Store.relation) (r : row) :
  Store.has_key (map (Store.bound columns r) (Store.rel_key rel)) (Store.rel_rows rel)
  = true ->
  Store.insert_or_ignore columns rel r = rel.
Proof. unfold Store.insert_or_ignore. now intros ->. Qed.

(** The rows of the table stay, in their place, whatever is inserted, and at
    most one row is added. *)
Lemma insert_or_ignore_keeps (columns : list string) (rel : Store.relation) (r : row) :
  exists added,
    Store.rel_rows (Store.insert_or_ignore columns rel r) = Store.rel_rows rel ++ added
    /\ List.length added <= 1
    /\ forall kr, In kr added -> snd kr = map (Store.bound columns r) (Store.rel_columns rel).
Proof.
  unfold Store.insert_or_ignore. destruct (Store.has_key _ _); cbn.
  - exists []. rewrite app_nil_r. split; [reflexivity|]. split; [cbn; lia|].
    intros kr [].
  - eexists. split; [reflexivity|]. split; [cbn; lia|].
    intros kr [<-|[]]. reflexivity.
Qed.

Lemma has_key_app (k : list value) (rows more : list (list value * row)) :
  Store.has_key k rows = true -> Store.has_key k (rows ++ more) = true.
Proof.
  unfold Store.has_key. destruct k; [discriminate|].
  rewrite existsb_app. now intros ->.
Qed.

(** After the insert of a row that carries a key, its key is in the table. *)
Lemma insert_or_ignore_has_key (columns : list string) (rel : Store.relation) (r : row) :
  keyed columns rel r ->
  Store.has_key (map (Store.bound columns r) (Store.rel_key rel))
    (Store.rel_rows (Store.insert_or_ignore columns rel r)) = true.
Proof.
  intros [K N]. unfold Store.insert_or_ignore.
  destruct (Store.has_key _ (Store.rel_rows rel)) eqn:E; [exact E|].
  cbn [Store.rel_rows]. unfold Store.has_key.
  destruct (map (Store.bound columns r) (Store.rel_key rel)) as [|v k] eqn:Ek.
  { apply map_eq_nil in Ek. contradiction. }
  rewrite existsb_app. cbn [existsb fst]. rewrite key_eqb_refl.
  - apply orb_true_iff. right. reflexivity.
  - rewrite <- Ek. intros x I. apply in_map_iff in I. destruct I as (c & <- & I).
    now apply N.
Qed.

Lemma fold_insert_key (columns : list string) (rows : list row) (rel : Store.relation) :
  Store.rel_key (fold_left (Store.insert_or_ignore columns) rows rel) = Store.rel_key rel.
Proof.
  revert rel. induction rows as [|r rows IH]; intros rel; cbn; [reflexivity|].
  now rewrite IH, insert_or_ignore_key.
Qed.

Lemma fold_insert_columns (columns : list string) (rows : list row)
  (rel : Store.relation) :
  Store.rel_columns (fold_left (Store.insert_or_ignore columns) rows rel)
  = Store.rel_columns rel.
Proof.
  revert rel. induction rows as [|r rows IH]; intros rel; cbn; [reflexivity|].
  now rewrite IH, insert_or_ignore_columns.
Qed.

Lemma fold_insert_foreign_keys (columns : list string) (rows : list row)
  (rel : Store.relation) :
  Store.rel_foreign_keys (fold_left (Store.insert_or_ignore columns) rows rel)
  = Store.rel_foreign_keys rel.
Proof.
  revert rel. induction rows as [|r rows IH]; intros rel; cbn; [reflexivity|].
  now rewrite IH, insert_or_ignore_foreign_keys.
Qed.

(** The rows of the table stay, in their place; what is added are rows of
    the list, at most one for each. *)
Lemma fold_insert_keeps (columns : list string) (rows : list row) (rel : Store.relation) :
  exists added,
    Store.rel_rows (fold_left (Store.insert_or_ignore columns) rows rel)
    = Store.rel_rows rel ++ added
    /\ List.length added <= List.length rows
    /\ forall kr, In kr added ->
         exists r, In r rows
                   /\ snd kr = map (Store.bound columns r) (Store.rel_columns rel).
Proof.
  revert rel. induction rows as [|r rows IH]; intros rel; cbn [fold_left].
  - exists []. rewrite app_nil_r. split; [reflexivity|]. split; [cbn; lia|].
    intros kr [].
  - destruct (IH (Store.insert_or_ignore columns rel r)) as (a2 & E2 & L2 & R2).
    destruct (insert_or_ignore_keeps columns rel r) as (a1 & E1 & L1 & R1).
    exists (a1 ++ a2). split; [now rewrite E2, E1, app_assoc|].
    split; [rewrite length_app; cbn [List.length]; lia|].
    intros kr I. apply in_app_or in I. destruct I as [I|I].
    + exists r. split; [now left|]. now apply R1.
    + destruct (R2 kr I) as (x & Ix & Ex). exists x. split; [now right|].
      now rewrite Ex, insert_or_ignore_columns.
Qed.

Lemma fold_insert_has_key (columns : list string) (rows : list row)
  (rel : Store.relation) (k : list value) :
  Store.has_key k (Store.rel_rows rel) = true ->
  Store.has_key k (Store.rel_rows (fold_left (Store.insert_or_ignore columns) rows rel))
  = true.
Proof.
  intros K. destruct (fold_insert_keeps columns rows rel) as (added & -> & _).
  now apply has_key_app.
Qed.

(** After the insert of a list of rows the key of each row that carries one
    is in the table. *)
Lemma fold_insert_all_present (columns : list string) (rows : list row)
  (rel : Store.relation) (r : row) :
  In r rows ->
  keyed columns rel r ->
  Store.has_key (map (Store.bound columns r) (Store.rel_key rel))
    (Store.rel_rows (fold_left (Store.insert_or_ignore columns) rows rel)) = true.
Proof.
  revert rel. induction rows as [|x rows IH]; intros rel I K; [destruct I|].
  destruct I as [<-|I]; cbn.
  - apply fold_insert_has_key, insert_or_ignore_has_key, K.
  - rewrite <- (insert_or_ignore_key columns rel x). apply IH; [exact I|].
    destruct K as [K N]. split; rewrite insert_or_ignore_key; assumption.
Qed.

(** ** Batched inserts of the store *)

Lemma first_refusal_ext {A} (f g : A -> option exn) (l : list A) :
  (forall x, f x = g x) -> Store.first_refusal f l = Store.first_refusal g l.
Proof.
  intros E. induction l as [|x l IH]; cbn; [reflexivity|]. now rewrite E, IH.
Qed.

(** Whether a statement compiles depends on what the tables declare, not on
    their rows. *)
Lemma prepare_set_rows (enforce : bool) (t : table) (columns : list string)
  (ts : Store.tables) (rel rel' : Store.relation) :
  Store.lookup ts t = Some rel ->
  Store.rel_columns rel' = Store.rel_columns rel ->
  Store.rel_key rel' = Store.rel_key rel ->
  Store.rel_foreign_keys rel' = Store.rel_foreign_keys rel ->
  Store.prepare enforce (Store.set_table t (Some rel') ts) t columns
  = Store.prepare enforce ts t columns.
Proof.
  intros T C K F. unfold Store.prepare. rewrite lookup_set_same, T, C, F.
  destruct columns as [|c columns]; [reflexivity|].
  destruct (Store.first_refusal _ (c :: columns)); [reflexivity|].
  destruct enforce; [|reflexivity].
  apply first_refusal_ext. intros fk. unfold Store.check_parent.
  destruct (table_eqb t (fk_parent fk)) eqn:E.
  - apply table_eqb_eq in E. rewrite <- E, lookup_set_same, T, K. reflexivity.
  - now rewrite (lookup_set_other _ _ _ _ E).
Qed.

(** A row that went in was bindable, and the table is what the insert policy
    makes of it. *)
Lemma insert_row_accepted (enforce : bool) (t : table) (columns : list string)
  (ts : Store.tables) (rel : Store.relation) (r : row) :
  Store.lookup ts t = Some rel ->
  snd (Store.insert_row enforce t columns ts r) = None ->
  bindable columns r
  /\ fst (Store.insert_row enforce t columns ts r)
     = Store.set_table t (Some (Store.insert_or_ignore columns rel (stored r))) ts.
Proof.
  intros T. unfold Store.insert_row, bindable, fits. rewrite T.
  destruct (Nat.eqb_spec (List.length r) (List.length columns)) as [L|L];
    cbn [negb]; [|discriminate].
  destruct (Store.unsupported 1 r); [discriminate|].
  fold (stored r).
  destruct (Store.has_key _ _) eqn:K; cbn [fst snd].
  - intros _. split; [now split|].
    rewrite (insert_or_ignore_present _ _ _ K). symmetry. now apply set_table_lookup.
  - destruct (enforce && _); [discriminate|]. intros _. now split.
Qed.

Lemma insert_rows_accepted (enforce : bool) (t : table) (columns : list string)
  (rows : list row) :
  forall (ts : Store.tables) (rel : Store.relation),
    Store.lookup ts t = Some rel ->
    snd (Store.insert_rows enforce t columns ts rows) = None ->
    Forall (bindable columns) rows
    /\ fst (Store.insert_rows enforce t columns ts rows)
       = Store.set_table t
           (Some (fold_left (Store.insert_or_ignore columns) (map stored rows) rel)) ts.
Proof.
  induction rows as [|r rows IH]; intros ts rel T; cbn [Store.insert_rows map fold_left].
  - intros _. split; [constructor|]. symmetry. now apply set_table_lookup.
  - pose proof (insert_row_accepted enforce t columns ts rel r T) as A.
    destruct (Store.insert_row enforce t columns ts r) as [ts' [e|]];
      cbn [fst snd] in *; [discriminate|].
    destruct (A eq_refl) as [Br ->]. intros S.
    destruct (IH _ _ (lookup_set_same _ _ _) S) as [Bs ->].
    split; [now constructor|]. apply set_table_twice.
Qed.

(** A bindable row whose key is in the table is skipped. *)
Lemma insert_row_present (enforce : bool) (t : table) (columns : list string)
  (ts : Store.tables) (rel : Store.relation) (r : row) :
  Store.lookup ts t = Some rel ->
  bindable columns r ->
  Store.has_key (map (Store.bound columns (stored r)) (Store.rel_key rel))
    (Store.rel_rows rel) = true ->
  Store.insert_row enforce t columns ts r = (ts, None).
Proof.
  intros T [L U] K. unfold Store.insert_row. unfold fits in L.
  rewrite T, L, Nat.eqb_refl, U. cbn [negb]. fold (stored r). now rewrite K.
Qed.

Lemma insert_rows_present (enforce : bool) (t : table) (columns : list string)
  (ts : Store.tables) (rel : Store.relation) (rows : list row) :
  Store.lookup ts t = Some rel ->
  Forall (bindable columns) rows ->
  (forall r, In r rows ->
     Store.has_key (map (Store.bound columns (stored r)) (Store.rel_key rel))
       (Store.rel_rows rel) = true) ->
  Store.insert_rows enforce t columns ts rows = (ts, None).
Proof.
  intros T. induction rows as [|r rows IH]; intros F K; [reflexivity|].
  inversion F as [|? ? Br Bs]. subst. cbn [Store.insert_rows].
  rewrite (insert_row_present enforce t columns ts rel r T Br) by (apply K; now left).
  apply IH; [exact Bs|]. intros x I. apply K. now right.
Qed.

Lemma insert_batches_app (enforce : bool) (t : table) (columns : list string)
  (a b : list (list row)) (ts : Store.tables) :
  Store.insert_batches enforce t columns ts (a ++ b)
  = match Store.insert_batches enforce t columns ts a with
    | (ts', None) => Store.insert_batches enforce t columns ts' b
    | (ts', Some e) => (ts', Some e)
    end.
Proof.
  revert ts. induction a as [|x a IH]; intros ts; cbn [app Store.insert_batches].
  - reflexivity.
  - destruct (Store.insert_batch enforce t columns ts x) as [ts' [e|]];
      [reflexivity|apply IH].
Qed.

(** Batches that went in: their rows were bindable, the statement compiled,
    and the table is what the insert policy makes of the rows in order. *)
Lemma insert_batches_accepted (enforce : bool) (t : table) (columns : list string)
  (bs : list (list row)) :
  forall (ts : Store.tables) (rel : Store.relation),
    Store.lookup ts t = Some rel ->
    snd (Store.insert_batches enforce t columns ts bs) = None ->
    Forall (bindable columns) (List.concat bs)
    /\ fst (Store.insert_batches enforce t columns ts bs)
       = Store.set_table t
           (Some (fold_left (Store.insert_or_ignore columns)
                    (map stored (List.concat bs)) rel)) ts
    /\ (bs <> [] -> Store.prepare enforce ts t columns = None).
Proof.
  induction bs as [|b bs IH]; intros ts rel T;
    cbn [Store.insert_batches List.concat map fold_left].
  - intros _. split; [constructor|]. split; [|congruence].
    symmetry. now apply set_table_lookup.
  - unfold Store.insert_batch.
    destruct (Store.prepare enforce ts t columns) as [e|] eqn:P; [discriminate|].
    pose proof (insert_rows_accepted enforce t columns b ts rel T) as A.
    destruct (Store.insert_rows enforce t columns ts b) as [ts' [e|]];
      cbn [fst snd] in *; [discriminate|].
    destruct (A eq_refl) as [Bb ->]. intros S.
    destruct (IH _ _ (lookup_set_same _ _ _) S) as (Bs & -> & _).
    split; [apply Forall_app; now split|]. split; [|reflexivity].
    rewrite set_table_twice, map_app, fold_left_app. reflexivity.
Qed.

(** Batches that went in found their table. *)
Lemma insert_batches_table (enforce : bool) (t : table) (columns : list string)
  (b : list row) (bs : list (list row)) (ts : Store.tables) :
  snd (Store.insert_batches enforce t columns ts (b :: bs)) = None ->
  exists rel, Store.lookup ts t = Some rel.
Proof.
  cbn [Store.insert_batches]. unfold Store.insert_batch, Store.prepare.
  destruct (Store.lookup ts t) as [rel|]; [eauto|discriminate].
Qed.

(** Batches of bindable rows whose keys are all in the table leave the
    tables as they are. *)
Lemma insert_batches_present (enforce : bool) (t : table) (columns : list string)
  (ts : Store.tables) (rel : Store.relation) (bs : list (list row)) :
  Store.lookup ts t = Some rel ->
  Store.prepare enforce ts t columns = None ->
  Forall (bindable columns) (List.concat bs) ->
  (forall r, In r (List.concat bs) ->
     Store.has_key (map (Store.bound columns (stored r)) (Store.rel_key rel))
       (Store.rel_rows rel) = true) ->
  Store.insert_batches enforce t columns ts bs = (ts, None).
Proof.
  intros T P. induction bs as [|b bs IH]; intros F K; [reflexivity|].
  cbn [List.concat] in F, K. apply Forall_app in F. destruct F as [Fb Fs].
  cbn [Store.insert_batches]. unfold Store.insert_batch. rewrite P.
  rewrite (insert_rows_present enforce t columns ts rel b T Fb).
  - apply IH; [exact Fs|]. intros r I. apply K, in_or_app. now right.
  - intros r I. apply K, in_or_app. now left.
Qed.

(** ** The chunked loader on the store *)

(** A run of the loader that returns made no call that raised. *)
Lemma loader_run_returned (statement : sql) (rows : list row) (B : Z)
  (tr : list step) (n : Z) :
  loader_run statement rows B tr (Returned n) -> quiet tr /\ n = len rows.
Proof.
  intros R. inversion R; subst. split; [|reflexivity].
  constructor; [reflexivity|]. apply quiet_app. split.
  - apply quiet_map_ok.
  - repeat constructor.
Qed.

(** A batched insert inside a transaction of an open store. *)
Lemma store_executemany_batch (t : table) (columns : list string) (rows : list row)
  (d : Store.database) (j : Store.tables) :
  Store.db_closed d = false ->
  Store.db_journal d = Some j ->
  Store.store_executemany (InsertOrIgnore t columns) rows d
  = (Store.mkDatabase
       (fst (Store.insert_batch (Store.db_foreign_keys d) t columns (Store.db_store d)
               rows))
       (Some j) (Store.db_foreign_keys d) false,
     snd (Store.insert_batch (Store.db_foreign_keys d) t columns (Store.db_store d)
            rows)).
Proof.
  destruct d as [ts jr fk cl]. cbn [Store.db_closed Store.db_journal].
  intros -> ->. unfold Store.store_executemany, Store.insert_batch.
  cbn [Store.db_closed Store.db_journal Store.db_foreign_keys Store.db_store
       Store.journal_of].
  destruct (Store.prepare fk ts t columns); [reflexivity|].
  destruct (Store.insert_rows fk t columns ts rows). reflexivity.
Qed.

(** The loop inside a transaction of an open store: its batches go into the
    store one after the other, up to the first that is refused. *)
Lemma for_rows_store (t : table) (columns : list string) (B : Z) (rows : list row) :
  forall (buf : list row) (cnt : Z) (d : Store.database) (j : Store.tables),
    Store.db_closed d = false ->
    Store.db_journal d = Some j ->
    final (for_rows rows (InsertOrIgnore t columns) B buf cnt d)
    = Store.mkDatabase
        (fst (Store.insert_batches (Store.db_foreign_keys d) t columns
                (Store.db_store d) (fst (completed rows B buf))))
        (Some j) (Store.db_foreign_keys d) false
    /\ outcome (for_rows rows (InsertOrIgnore t columns) B buf cnt d)
       = match snd (Store.insert_batches (Store.db_foreign_keys d) t columns
                      (Store.db_store d) (fst (completed rows B buf))) with
         | None =>
             Returned (snd (completed rows B buf),
                       (cnt + B * Z.of_nat (List.length (fst (completed rows B buf))))%Z)
         | Some e => Raised e
         end.
Proof.
  induction rows as [|x rows IH]; intros buf cnt d j C J; cbn [for_rows completed].
  - cbn [fst snd Store.insert_batches ret final outcome List.length]. split.
    + destruct d as [ts jr fk cl]. cbn in *. now subst.
    + do 2 f_equal. lia.
  - destruct (len (buf ++ [x]) =? B)%Z; [|now apply IH].
    cbn [fst snd Store.insert_batches].
    unfold conn_executemany. rewrite bind_call.
    change (executemany (InsertOrIgnore t columns) (buf ++ [x]) d)
      with (Store.store_executemany (InsertOrIgnore t columns) (buf ++ [x]) d).
    rewrite (store_executemany_batch t columns (buf ++ [x]) d j C J).
    cbn [fst snd].
    destruct (Store.insert_batch (Store.db_foreign_keys d) t columns (Store.db_store d)
                (buf ++ [x])) as [ts' [e|]]; cbn [fst snd outcome final].
    + split; reflexivity.
    + pose proof (IH [] (cnt + B)%Z
                    (Store.mkDatabase ts' (Some j) (Store.db_foreign_keys d) false)
                    j eq_refl eq_refl) as [F O].
      cbn [Store.db_foreign_keys Store.db_store] in F, O.
      split; [exact F|]. rewrite O.
      destruct (snd (Store.insert_batches (Store.db_foreign_keys d) t columns ts'
                       (fst (completed rows B [])))); [reflexivity|].
      do 2 f_equal. cbn [List.length]. lia.
Qed.

(** One call of the loader on an open store with no transaction in progress:
    either all its batches go in and are committed, or one is refused and the
    store is as it was before the call. *)
Lemma store_load (t : table) (columns : list string) (B : Z) (df : DataFrame)
  (d : Store.database) :
  Store.db_closed d = false ->
  Store.db_journal d = None ->
  match snd (Store.insert_batches (Store.db_foreign_keys d) t columns (Store.db_store d)
               (batches (itertuples df) B)) with
  | None =>
      outcome (insert_dataframe_in_chunks df (InsertOrIgnore t columns) B d)
      = Returned (len (itertuples df))
      /\ final (insert_dataframe_in_chunks df (InsertOrIgnore t columns) B d)
         = Store.mkDatabase
             (fst (Store.insert_batches (Store.db_foreign_keys d) t columns
                     (Store.db_store d) (batches (itertuples df) B)))
             None (Store.db_foreign_keys d) false
  | Some e =>
      outcome (insert_dataframe_in_chunks df (InsertOrIgnore t columns) B d) = Raised e
      /\ final (insert_dataframe_in_chunks df (InsertOrIgnore t columns) B d) = d
  end.
Proof.
  intros C J. unfold insert_dataframe_in_chunks. set (rows := itertuples df).
  unfold conn_execute. rewrite bind_call.
  change (execute BeginTransaction d) with (Store.store_execute BeginTransaction d).
  unfold Store.store_execute. rewrite C, J. cbn [fst snd outcome final].
  assert (Ed : d = Store.mkDatabase (Store.db_store d) None (Store.db_foreign_keys d) false).
  { destruct d. cbn in *. now subst. }
  set (fk := Store.db_foreign_keys d) in *. set (ts := Store.db_store d) in *.
  pose proof (for_rows_store t columns B rows [] 0%Z
                (Store.mkDatabase ts (Some ts) fk false) ts eq_refl eq_refl) as [F1 O1].
  cbn [Store.db_foreign_keys Store.db_store] in F1, O1.
  unfold batches. rewrite insert_batches_app.
  pose proof (leftover_count rows B) as Hcount.
  unfold try_except_reraise. rewrite bind_unfold, O1.
  destruct (Store.insert_batches fk t columns ts (fst (completed rows B [])))
    as [ts1 [e|]]; cbn [fst snd outcome final trace] in *.
  - rewrite call_run, F1.
    change (execute Rollback (Store.mkDatabase ts1 (Some ts) fk false))
      with (Store.store_execute Rollback (Store.mkDatabase ts1 (Some ts) fk false)).
    cbn. split; [reflexivity|]. now rewrite Ed.
  - rewrite F1.
    destruct (snd (completed rows B [])) as [|y buf] eqn:Ebuf;
      cbn [leftover insert_leftover Store.insert_batches].
    + rewrite bind_ret. cbn [snd]. rewrite bind_call.
      change (execute Commit (Store.mkDatabase ts1 (Some ts) fk false))
        with (Store.store_execute Commit (Store.mkDatabase ts1 (Some ts) fk false)).
      cbn. change (len []) with 0%Z in Hcount.
      split; [f_equal; lia|reflexivity].
    + unfold conn_executemany. rewrite bind_assoc, bind_call.
      change (executemany (InsertOrIgnore t columns) (y :: buf)
                (Store.mkDatabase ts1 (Some ts) fk false))
        with (Store.store_executemany (InsertOrIgnore t columns) (y :: buf)
                (Store.mkDatabase ts1 (Some ts) fk false)).
      rewrite (store_executemany_batch t columns (y :: buf)
                 (Store.mkDatabase ts1 (Some ts) fk false) ts eq_refl eq_refl).
      cbn [fst snd Store.db_foreign_keys Store.db_store].
      destruct (Store.insert_batch fk t columns ts1 (y :: buf)) as [ts2 [e|]];
        cbn [fst snd outcome final trace].
      * rewrite call_run.
        change (execute Rollback (Store.mkDatabase ts2 (Some ts) fk false))
          with (Store.store_execute Rollback (Store.mkDatabase ts2 (Some ts) fk false)).
        cbn. split; [reflexivity|]. now rewrite Ed.
      * rewrite bind_ret. cbn [snd]. rewrite bind_call.
        change (execute Commit (Store.mkDatabase ts2 (Some ts) fk false))
          with (Store.store_execute Commit (Store.mkDatabase ts2 (Some ts) fk false)).
        cbn [Store.store_execute Store.db_closed Store.db_journal Store.db_store
             Store.db_foreign_keys fst snd outcome final trace ret].
        split; [f_equal; lia|reflexivity].
Qed.

(** A call of the loader that raises leaves the store as it was, whatever
    the state of the store. *)
Lemma store_load_raised (t : table) (columns : list string) (B : Z) (df : DataFrame)
  (d : Store.database) (e : exn) :
  outcome (insert_dataframe_in_chunks df (InsertOrIgnore t columns) B d) = Raised e ->
  final (insert_dataframe_in_chunks df (InsertOrIgnore t columns) B d) = d.
Proof.
  destruct (Store.db_closed d) eqn:C.
  { intros _. unfold insert_dataframe_in_chunks, conn_execute. rewrite bind_call.
    change (execute BeginTransaction d) with (Store.store_execute BeginTransaction d).
    unfold Store.store_execute. rewrite C. reflexivity. }
  destruct (Store.db_journal d) as [j|] eqn:J.
  { intros _. unfold insert_dataframe_in_chunks, conn_execute. rewrite bind_call.
    change (execute BeginTransaction d) with (Store.store_execute BeginTransaction d).
    unfold Store.store_execute. rewrite C, J. reflexivity. }
  pose proof (store_load t columns B df d C J) as L.
  destruct (snd (Store.insert_batches _ _ _ _ _)) as [e'|].
  - intros _. apply L.
  - destruct L as [O _]. rewrite O. discriminate.
Qed.

(** A call of the loader that returns: the store was open with no
    transaction in progress, and all the batches went in and are committed. *)
Lemma store_load_returned (t : table) (columns : list string) (B : Z) (df : DataFrame)
  (d : Store.database) (n : Z) :
  outcome (insert_dataframe_in_chunks df (InsertOrIgnore t columns) B d) = Returned n ->
  Store.db_closed d = false
  /\ Store.db_journal d = None
  /\ n = len (itertuples df)
  /\ snd (Store.insert_batches (Store.db_foreign_keys d) t columns (Store.db_store d)
            (batches (itertuples df) B)) = None
  /\ final (insert_dataframe_in_chunks df (InsertOrIgnore t columns) B d)
     = Store.mkDatabase
         (fst (Store.insert_batches (Store.db_foreign_keys d) t columns
                 (Store.db_store d) (batches (itertuples df) B)))
         None (Store.db_foreign_keys d) false.
Proof.
  intros O.
  destruct (Store.db_closed d) eqn:C.
  { exfalso. revert O. unfold insert_dataframe_in_chunks, conn_execute.
    rewrite bind_call.
    change (execute BeginTransaction d) with (Store.store_execute BeginTransaction d).
    unfold Store.store_execute. rewrite C. discriminate. }
  destruct (Store.db_journal d) as [j|] eqn:J.
  { exfalso. revert O. unfold insert_dataframe_in_chunks, conn_execute.
    rewrite bind_call.
    change (execute BeginTransaction d) with (Store.store_execute BeginTransaction d).
    unfold Store.store_execute. rewrite C, J. discriminate. }
  pose proof (store_load t columns B df d C J) as L.
  destruct (snd (Store.insert_batches _ _ _ _ _)) as [e'|].
  - destruct L as [O' _]. rewrite O' in O. discriminate.
  - destruct L as [O' F]. rewrite O' in O. injection O as <-. repeat split. exact F.
Qed.

(** A call of the loader in which no call raised, on a store that has the
    table: the table is what the insert policy makes of the rows, taken in
    their order as the store keeps them, and nothing else has changed. *)
Lemma store_load_quiet (t : table) (columns : list string) (B : Z) (df : DataFrame)
  (d : Store.database) (rel : Store.relation) :
  Store.db_tables d t = Some rel ->
  quiet (trace (insert_dataframe_in_chunks df (InsertOrIgnore t columns) B d)) ->
  outcome (insert_dataframe_in_chunks df (InsertOrIgnore t columns) B d)
  = Returned (len (itertuples df))
  /\ Store.db_closed d = false
  /\ Store.db_journal d = None
  /\ Forall (bindable columns) (itertuples df)
  /\ final (insert_dataframe_in_chunks df (InsertOrIgnore t columns) B d)
     = Store.mkDatabase
         (Store.set_table t
            (Some (fold_left (Store.insert_or_ignore columns)
                     (map stored (itertuples df)) rel))
            (Store.db_store d))
         None (Store.db_foreign_keys d) false.
Proof.
  intros T Q.
  destruct (quiet_loader_run _ _ _ _ _
              (loader_run_spec df (InsertOrIgnore t columns) B d) Q) as [_ O].
  destruct (store_load_returned t columns B df d _ O) as (C & J & _ & S & F).
  destruct (insert_batches_accepted _ t columns _ _ rel T S) as (A & E & _).
  rewrite batches_concat in A, E. rewrite E in F. repeat split; assumption.
Qed.

(** ** Loading the same rows twice *)

Lemma open_store_eta (d : Store.database) :
  Store.db_closed d = false ->
  Store.db_journal d = None ->
  Store.mkDatabase (Store.db_store d) None (Store.db_foreign_keys d) false = d.
Proof. destruct d. cbn. now intros -> ->. Qed.

(** C4, as amended. On the store, whatever its state, for a row set in which
    every row carries a value in each column of the primary key of the
    target table: rows whose primary key is already in the table are dropped
    by a batched insert, which raises no error for them and leaves the tables
    as they are; a load keeps the rows the table held, in their place; and a
    second load of the same row set ends as the first did and leaves every
    table as the first load left it, so that the row count after loading
    twice is the row count after loading once. *)
Theorem load_twice_same_as_once (t : table) (columns : list string) (B : Z)
  (df : DataFrame) (d : Store.database) :
  (forall rel, Store.db_tables d t = Some rel ->
               Forall (keyed columns rel) (itertuples df)) ->
  let once := insert_dataframe_in_chunks df (InsertOrIgnore t columns) B d in
  let twice :=
    insert_dataframe_in_chunks df (InsertOrIgnore t columns) B (final once) in
  (forall enforce ts rel rows,
      Store.lookup ts t = Some rel ->
      Forall (bindable columns) rows ->
      (forall r, In r rows ->
         Store.has_key (map (Store.bound columns (stored r)) (Store.rel_key rel))
           (Store.rel_rows rel) = true) ->
      Store.insert_rows enforce t columns ts rows = (ts, None))
  /\ (forall rel, Store.db_tables d t = Some rel ->
        exists rel1 added,
          Store.db_tables (final once) t = Some rel1
          /\ Store.rel_rows rel1 = Store.rel_rows rel ++ added)
  /\ outcome twice = outcome once
  /\ (forall t', Store.db_tables (final twice) t' = Store.db_tables (final once) t')
  /\ Store.count_rows (final twice) t = Store.count_rows (final once) t.
Proof.
  intros K once twice.
  split; [intros enforce ts rel rows; apply insert_rows_present|].
  assert (G : (forall rel, Store.db_tables d t = Some rel ->
                 exists rel1 added,
                   Store.db_tables (final once) t = Some rel1
                   /\ Store.rel_rows rel1 = Store.rel_rows rel ++ added)
              /\ outcome twice = outcome once /\ final twice = final once).
  2:{ destruct G as (G1 & G2 & G3). split; [exact G1|]. split; [exact G2|].
      rewrite G3. split; reflexivity. }
  destruct (outcome once) as [n|e] eqn:O.
  - (* the first load returned *)
    destruct (store_load_returned t columns B df d n O) as (C & J & -> & S & F).
    fold once in F.
    destruct (Store.db_tables d t) as [rel|] eqn:T.
    + unfold Store.db_tables in T.
      destruct (insert_batches_accepted _ t columns _ _ rel T S) as (A & E & P).
      rewrite batches_concat in A, E. rewrite E in F.
      set (rel1 := fold_left (Store.insert_or_ignore columns)
                     (map stored (itertuples df)) rel) in *.
      set (ts1 := Store.set_table t (Some rel1) (Store.db_store d)) in *.
      assert (T1 : Store.lookup ts1 t = Some rel1) by apply lookup_set_same.
      split.
      { intros rel0 E0. injection E0 as <-.
        destruct (fold_insert_keeps columns (map stored (itertuples df)) rel)
          as (added & Er & _).
        exists rel1, added. split; [|exact Er].
        rewrite F. exact T1. }
      assert (R2 : Store.insert_batches (Store.db_foreign_keys d) t columns ts1
                     (batches (itertuples df) B) = (ts1, None)).
      { destruct (batches (itertuples df) B) as [|b bs] eqn:Eb; [reflexivity|].
        apply (insert_batches_present _ t columns ts1 rel1); [exact T1| | |].
        - unfold ts1.
          rewrite (prepare_set_rows _ t columns _ rel rel1 T).
          + apply P. discriminate.
          + apply fold_insert_columns.
          + apply fold_insert_key.
          + apply fold_insert_foreign_keys.
        - rewrite <- Eb, batches_concat. exact A.
        - rewrite <- Eb, batches_concat. intros r I. unfold rel1.
          rewrite fold_insert_key.
          apply fold_insert_all_present; [now apply in_map|].
          apply keyed_stored.
          pose proof (K rel eq_refl) as Kr. rewrite Forall_forall in Kr.
          now apply Kr. }
      pose proof (store_load t columns B df (final once)) as L.
      fold twice in L. rewrite F in L.
      cbn [Store.db_closed Store.db_journal Store.db_foreign_keys Store.db_store] in L.
      specialize (L eq_refl eq_refl). rewrite R2 in L. cbn [fst snd] in L.
      destruct L as [O2 F2]. rewrite F. split; assumption.
    + split; [discriminate|].
      assert (Eb : batches (itertuples df) B = []).
      { destruct (batches (itertuples df) B) as [|b bs]; [reflexivity|].
        destruct (insert_batches_table _ _ _ _ _ _ S) as (rel & E).
        unfold Store.db_tables in T. congruence. }
      rewrite Eb in F. cbn [Store.insert_batches fst] in F.
      rewrite (open_store_eta d C J) in F.
      unfold twice. rewrite F. fold once. split; [exact O|exact F].
  - (* the first load raised: the store is as it was *)
    pose proof (store_load_raised t columns B df d e O) as F. fold once in F.
    split.
    { intros rel T. exists rel, []. rewrite F, app_nil_r. split; [exact T|reflexivity]. }
    unfold twice. rewrite F. fold once. split; [exact O|exact F].
Qed.

(** The store holds the customers C1 and C2; loading C2, C3, C3 and C4 once
    or twice leaves the customers table with the same number of rows. *)
Lemma load_twice_same_as_once_witness :
  Store.count_rows
    (final (insert_dataframe_in_chunks customers_with_duplicates insert_customers 2%Z
              (final (insert_dataframe_in_chunks customers_with_duplicates
                        insert_customers 2%Z two_customers_stored))))
    I_Customer
  = Store.count_rows
      (final (insert_dataframe_in_chunks customers_with_duplicates insert_customers 2%Z
                two_customers_stored))
      I_Customer.
Proof.
  apply (load_twice_same_as_once I_Customer customer_columns 2%Z
           customers_with_duplicates two_customers_stored).
  intros rel E. vm_compute in E. injection E as <-.
  repeat constructor; try discriminate; intros k [<-|[]]; discriminate.
Defined.

(** C4 as stated fails for a row whose key is missing: the store holds the
    address A1, the row set repeats it and has a row with no ADDRESSID;
    both loads return, the table has three rows after the first load and four
    after the second. *)
Lemma missing_key_counted_twice :
  let once :=
    insert_dataframe_in_chunks addresses_with_missing_key insert_addresses 2%Z
      two_customers_stored in
  let twice :=
    insert_dataframe_in_chunks addresses_with_missing_key insert_addresses 2%Z
      (final once) in
  Store.select_all two_customers_stored I_AddrOrgNamePostalAddress
  = Some (itertuples two_addresses)
  /\ outcome once = Returned 2%Z
  /\ outcome twice = Returned 2%Z
  /\ Store.count_rows (final once) I_AddrOrgNamePostalAddress = Some 3
  /\ Store.count_rows (final twice) I_AddrOrgNamePostalAddress = Some 4.
Proof. repeat split. Qed.

(** The count the loader returns is the number of rows submitted: here four,
    of which the store kept two. *)
Example count_may_exceed_rows_persisted :
  outcome (insert_dataframe_in_chunks customers_with_duplicates insert_customers 2%Z
             two_customers_stored) = Returned 4%Z
  /\ Store.count_rows two_customers_stored I_Customer = Some 2
  /\ Store.count_rows
       (final (insert_dataframe_in_chunks customers_with_duplicates insert_customers
                 2%Z two_customers_stored)) I_Customer = Some 4.
Proof. repeat split. Qed.

(** An empty buffer: the transaction is begun and committed, nothing is
    inserted and 0 is returned. *)
Example empty_buffer_commits :
  events (trace (insert_dataframe_in_chunks (Conn := Scripted.answers)
                   no_customers insert_customers CHUNK_SIZE []))
  = [Execute BeginTransaction; Execute Commit]
  /\ outcome (insert_dataframe_in_chunks (Conn := Scripted.answers)
                no_customers insert_customers CHUNK_SIZE []) = Returned 0%Z.
Proof. split; reflexivity. Qed.

(** ** Atomicity of one load on the store *)

(** Inside a transaction of an open store a batched insert leaves the
    transaction as it is. *)
Lemma store_executemany_transaction (statement : sql) (rows : list row)
  (d : Store.database) (j : Store.tables) :
  Store.db_closed d = false ->
  Store.db_journal d = Some j ->
  Store.db_journal (fst (Store.store_executemany statement rows d)) = Some j
  /\ Store.db_closed (fst (Store.store_executemany statement rows d)) = false.
Proof.
  intros C J. unfold Store.store_executemany. rewrite C.
  destruct statement; cbn [fst]; try (now split).
  destruct (Store.prepare _ _ _ _); cbn [fst]; [now split|].
  destruct (Store.insert_rows _ _ _ _ _). cbn. unfold Store.journal_of.
  rewrite J. now split.
Qed.

Lemma for_rows_store_transaction (statement : sql) (B : Z) (rows : list row) :
  forall (buf : list row) (cnt : Z) (d : Store.database) (j : Store.tables),
    Store.db_closed d = false ->
    Store.db_journal d = Some j ->
    Store.db_journal (final (for_rows rows statement B buf cnt d)) = Some j
    /\ Store.db_closed (final (for_rows rows statement B buf cnt d)) = false.
Proof.
  induction rows as [|x rows IH]; intros buf cnt d j C J; cbn [for_rows].
  - now split.
  - destruct (len (buf ++ [x]) =? B)%Z; [|now apply IH].
    unfold conn_executemany. rewrite bind_call.
    change (executemany statement (buf ++ [x]) d)
      with (Store.store_executemany statement (buf ++ [x]) d).
    destruct (store_executemany_transaction statement (buf ++ [x]) d j C J) as [J1 C1].
    destruct (snd (Store.store_executemany statement (buf ++ [x]) d)); cbn [final].
    + now split.
    + now apply IH.
Qed.

Lemma insert_leftover_store_transaction (statement : sql) (buf : list row) (cnt : Z)
  (d : Store.database) (j : Store.tables) :
  Store.db_closed d = false ->
  Store.db_journal d = Some j ->
  Store.db_journal (final (insert_leftover statement buf cnt d)) = Some j
  /\ Store.db_closed (final (insert_leftover statement buf cnt d)) = false.
Proof.
  intros C J. destruct buf as [|y buf]; cbn [insert_leftover]; [now split|].
  unfold conn_executemany. rewrite bind_call.
  change (executemany statement (y :: buf) d)
    with (Store.store_executemany statement (y :: buf) d).
  destruct (store_executemany_transaction statement (y :: buf) d j C J) as [J1 C1].
  destruct (snd (Store.store_executemany statement (y :: buf) d)); cbn [final ret];
    now split.
Qed.

(** Atomicity. On an open store with no transaction in progress, a load that
    raises leaves every table as it was before the load, whatever the batches
    that had gone through, and no transaction open. *)
Theorem store_load_atomic (df : DataFrame) (statement : sql) (B : Z)
  (d : Store.database) (e : exn) :
  Store.db_closed d = false ->
  Store.db_journal d = None ->
  outcome (insert_dataframe_in_chunks df statement B d) = Raised e ->
  Store.db_tables (final (insert_dataframe_in_chunks df statement B d))
  = Store.db_tables d
  /\ Store.db_journal (final (insert_dataframe_in_chunks df statement B d)) = None.
Proof.
  intros C J. unfold insert_dataframe_in_chunks. set (rows := itertuples df).
  unfold conn_execute. rewrite bind_call.
  change (execute BeginTransaction d) with (Store.store_execute BeginTransaction d).
  unfold Store.store_execute. rewrite C, J. cbn [fst snd outcome final].
  set (d1 := Store.mkDatabase (Store.db_store d) (Some (Store.db_store d))
               (Store.db_foreign_keys d) false).
  unfold try_except_reraise.
  rewrite <- (bind_assoc (for_rows rows statement B [] 0%Z)
                (fun st => insert_leftover statement (fst st) (snd st))
                (fun st => bind (call (Execute Commit) (execute Commit))
                                (fun _ => ret (snd st)))).
  set (inserts := bind (for_rows rows statement B [] 0%Z)
                       (fun st => insert_leftover statement (fst st) (snd st))).
  assert (T : Store.db_journal (final (inserts d1)) = Some (Store.db_store d)
              /\ Store.db_closed (final (inserts d1)) = false).
  { subst inserts. rewrite bind_unfold.
    destruct (for_rows_store_transaction statement B rows [] 0%Z d1 (Store.db_store d)
                eq_refl eq_refl) as [J1 C1].
    destruct (outcome (for_rows rows statement B [] 0%Z d1)) as [st|e1];
      cbn [final].
    - now apply insert_leftover_store_transaction.
    - now split. }
  destruct T as [J2 C2].
  rewrite (bind_unfold inserts).
  destruct (outcome (inserts d1)) as [st|e1]; cbn [outcome final].
  - rewrite bind_call.
    change (execute Commit (final (inserts d1)))
      with (Store.store_execute Commit (final (inserts d1))).
    unfold Store.store_execute. rewrite C2, J2. cbn [fst snd outcome final ret].
    discriminate.
  - rewrite call_run.
    change (execute Rollback (final (inserts d1)))
      with (Store.store_execute Rollback (final (inserts d1))).
    unfold Store.store_execute. rewrite C2, J2. cbn [fst snd outcome final].
    intros _. split; reflexivity.
Qed.

(** The frame with the short row: the first batch goes through, the second
    raises, and the customers table is as it was. *)
Lemma store_load_atomic_witness :
  Store.db_tables (final (insert_dataframe_in_chunks customers_with_short_row
                            insert_customers 2%Z two_customers_stored))
  = Store.db_tables two_customers_stored.
Proof.
  apply (store_load_atomic customers_with_short_row insert_customers 2%Z
           two_customers_stored (Store.bindings_error 2 1)
           eq_refl eq_refl eq_refl).
Defined.

(** ** Every run of the loader, whatever the store raises *)

Lemma completed_nonempty (rows : list row) (B : Z) (buf : list row) :
  Forall (fun b => b <> []) (fst (completed rows B buf)).
Proof.
  revert buf. induction rows as [|x rows IH]; intros buf; cbn [completed].
  - constructor.
  - destruct (len (buf ++ [x]) =? B)%Z; cbn [fst]; [|apply IH].
    constructor; [|apply IH]. intros E. now apply app_eq_nil in E as [_ E].
Qed.

Lemma batches_nonempty (rows : list row) (B : Z) :
  Forall (fun b => b <> []) (batches rows B).
Proof.
  unfold batches. apply Forall_app. split; [apply completed_nonempty|].
  destruct (snd (completed rows B [])); cbn [leftover]; repeat constructor.
  discriminate.
Qed.

Lemma batches_bounded (rows : list row) (B : Z) :
  (1 <= B)%Z -> Forall (fun b => (len b <= B)%Z) (batches rows B).
Proof.
  intros HB. destruct (batches_positive rows B HB) as (full & rest & E & F & _ & R).
  rewrite E. apply Forall_app. split.
  - eapply Forall_impl; [|exact F]. cbn. intros b Hb. lia.
  - destruct rest as [|y rest'] eqn:Er; cbn [leftover]; constructor; [|constructor].
    rewrite R. pose proof (Z.mod_pos_bound (len rows) B ltac:(lia)). lia.
Qed.

(** What any run of the loader has submitted is a first part of the batches. *)
Lemma flushes_of_loader_run (statement : sql) (rows : list row) (B : Z)
  (tr : list step) (res : result Z) :
  loader_run statement rows B tr res ->
  exists rest, batches rows B = flushes tr ++ rest.
Proof.
  intros R. destruct R as [e| |done b rest e o D|e o].
  - exists (batches rows B). reflexivity.
  - exists []. now rewrite flushes_committed, app_nil_r.
  - exists rest.
    change (batches rows B
            = flushes ([ok (Execute BeginTransaction)]
                         ++ map (fun b => mkStep (ExecuteMany statement b)
                                                 ((fun _ => None) b)) done
                         ++ [mkStep (ExecuteMany statement b) (Some e);
                             mkStep (Execute Rollback) o]) ++ rest).
    rewrite !flushes_app, flushes_map. cbn. now rewrite <- app_assoc.
  - exists [].
    change (batches rows B
            = flushes ([ok (Execute BeginTransaction)]
                         ++ map (fun b => mkStep (ExecuteMany statement b)
                                                 ((fun _ => None) b))
                              (batches rows B)
                         ++ [mkStep (Execute Commit) (Some e);
                             mkStep (Execute Rollback) o]) ++ []).
    rewrite !flushes_app, flushes_map. cbn. now rewrite !app_nil_r.
Qed.

Section AnyRun.
Context {Conn : Type} `{Connection Conn}.

(** X2. The calls of any run of the loader: one BEGIN, first; then batched
    inserts, all with the statement given; then nothing more, or a COMMIT, or
    a ROLLBACK, or a COMMIT and a ROLLBACK. When BEGIN raises nothing else is
    called, not even the ROLLBACK, and that error is raised; and the loader
    returns a count only when every call went through, the last one being
    the COMMIT. *)
Theorem loader_call_protocol (df : DataFrame) (statement : sql) (B : Z) (c : Conn) :
  let r := insert_dataframe_in_chunks df statement B c in
  (exists bs tail,
      events (trace r)
      = Execute BeginTransaction :: map (ExecuteMany statement) bs ++ tail
      /\ In tail transaction_ends
      /\ (forall n, outcome r = Returned n ->
                    quiet (trace r) /\ tail = [Execute Commit]))
  /\ (forall e, snd (execute BeginTransaction c) = Some e ->
                events (trace r) = [Execute BeginTransaction]
                /\ outcome r = Raised e).
Proof.
  intros r. split.
  - subst r.
    destruct (loader_run_spec df statement B c) as [e| |done b rest e o D|e o].
    + exists [], []. split; [reflexivity|]. split; [cbn; auto|].
      intros n E. discriminate E.
    + exists (batches (itertuples df) B), [Execute Commit].
      split; [|split; [cbn; auto|]].
      * cbn [events map step_event ok]. f_equal.
        rewrite map_app, map_map. reflexivity.
      * intros n _. split; [|reflexivity].
        constructor; [reflexivity|]. apply quiet_app. split.
        -- apply quiet_map_ok.
        -- repeat constructor.
    + exists (done ++ [b]), [Execute Rollback].
      split; [|split; [cbn; auto|]].
      * cbn [events map step_event ok]. f_equal.
        rewrite !map_app, map_map, <- app_assoc. reflexivity.
      * intros n E. discriminate E.
    + exists (batches (itertuples df) B), [Execute Commit; Execute Rollback].
      split; [|split; [cbn; auto|]].
      * cbn [events map step_event ok]. f_equal.
        rewrite !map_app, map_map. reflexivity.
      * intros n E. discriminate E.
  - intros e E. subst r. unfold insert_dataframe_in_chunks, conn_execute.
    rewrite bind_call, E. split; reflexivity.
Qed.

(** X3. On any run of the loader, also one that raises, the batches handed to
    the batched insert, concatenated in the order of the calls, are a first
    part of the rows of the buffer: no row is submitted twice, none is
    skipped and none out of order. *)
Theorem submits_rows_in_order (df : DataFrame) (statement : sql) (B : Z) (c : Conn) :
  exists not_submitted,
    List.concat (flushes (trace (insert_dataframe_in_chunks df statement B c)))
    ++ not_submitted
    = itertuples df.
Proof.
  destruct (flushes_of_loader_run _ _ _ _ _ (loader_run_spec df statement B c))
    as (rest & E).
  exists (List.concat rest).
  rewrite <- List.concat_app, <- E. apply batches_concat.
Qed.

(** X4. On any run of the loader, also one that raises, no batch handed to
    the batched insert is empty, and with a chunk size of 1 or more none has
    more rows than the chunk size. *)
Theorem batch_sizes (df : DataFrame) (statement : sql) (B : Z) (c : Conn) :
  let fl := flushes (trace (insert_dataframe_in_chunks df statement B c)) in
  Forall (fun b => b <> []) fl
  /\ ((1 <= B)%Z -> Forall (fun b => (1 <= len b <= B)%Z) fl).
Proof.
  intros fl. subst fl.
  destruct (flushes_of_loader_run _ _ _ _ _ (loader_run_spec df statement B c))
    as (rest & E).
  pose proof (batches_nonempty (itertuples df) B) as N.
  rewrite E in N. apply Forall_app in N. destruct N as [N _].
  split; [exact N|].
  intros HB. pose proof (batches_bounded (itertuples df) B HB) as U.
  rewrite E in U. apply Forall_app in U. destruct U as [U _].
  rewrite Forall_forall in *. intros b I. split; [|now apply U].
  specialize (N b I). destruct b; [contradiction|].
  unfold len. cbn [List.length]. lia.
Qed.

(** X5. When the COMMIT of the loader raises, every row of the buffer had
    been submitted, the ROLLBACK of the handler is the next and last call,
    and the error of the COMMIT is the one raised to the caller unless the
    ROLLBACK raised as well. *)
Theorem commit_failure (df : DataFrame) (statement : sql) (B : Z) (c : Conn)
  (e : exn) :
  let r := insert_dataframe_in_chunks df statement B c in
  In (mkStep (Execute Commit) (Some e)) (trace r) ->
  List.concat (flushes (trace r)) = itertuples df
  /\ exists before o,
      trace r = before ++ [mkStep (Execute Commit) (Some e);
                           mkStep (Execute Rollback) o]
      /\ quiet before
      /\ outcome r = Raised match o with None => e | Some e' => e' end.
Proof.
  intros r I. subst r.
  destruct (loader_run_spec df statement B c) as [e0| |done b rest e0 o D|e0 o].
  - destruct I as [I|[]]. discriminate I.
  - exfalso.
    assert (Q : quiet (ok (Execute BeginTransaction)
                         :: map (fun b => ok (ExecuteMany statement b))
                              (batches (itertuples df) B)
                         ++ [ok (Execute Commit)])).
    { constructor; [reflexivity|]. apply quiet_app. split.
      - apply quiet_map_ok.
      - repeat constructor. }
    discriminate (quiet_in _ _ Q I).
  - exfalso. destruct I as [I|I]; [discriminate I|].
    apply in_app_or in I. destruct I as [I|[I|[I|[]]]].
    + apply in_map_iff in I. destruct I as (x & Hx & _). discriminate Hx.
    + discriminate I.
    + discriminate I.
  - assert (e0 = e) as ->.
    { destruct I as [I|I]; [discriminate I|].
      apply in_app_or in I. destruct I as [I|[I|[I|[]]]].
      - apply in_map_iff in I. destruct I as (x & Hx & _). discriminate Hx.
      - now injection I.
      - discriminate I. }
    split.
    + change (List.concat
                (flushes ([ok (Execute BeginTransaction)]
                            ++ map (fun b => mkStep (ExecuteMany statement b)
                                                    ((fun _ => None) b))
                                 (batches (itertuples df) B)
                            ++ [mkStep (Execute Commit) (Some e);
                                mkStep (Execute Rollback) o]))
              = itertuples df).
      rewrite !flushes_app, flushes_map. cbn. rewrite app_nil_r.
      apply batches_concat.
    + exists (ok (Execute BeginTransaction)
                :: map (fun b => ok (ExecuteMany statement b))
                     (batches (itertuples df) B)), o.
      repeat split.
      constructor; [reflexivity|]. apply quiet_map_ok.
Qed.

End AnyRun.

(** The five sample rows, the COMMIT raising: all five rows were submitted. *)
Lemma commit_failure_witness :
  List.concat (flushes (trace commit_fails)) = itertuples five_customers.
Proof.
  apply (commit_failure (Conn := Scripted.answers) five_customers insert_customers
           2%Z [None; None; None; None; Some disk_full] disk_full).
  vm_compute. auto 10.
Defined.

(** ** The error that leaves the script *)

Lemma raised_by_after_quiet (a tr : list step) (e : exn) :
  quiet a -> raised_by tr e -> raised_by (a ++ tr) e.
Proof.
  intros Qa (before & s & e0 & after & -> & Q & R & P).
  exists (a ++ before), s, e0, after. repeat split.
  - now rewrite app_assoc.
  - apply quiet_app. now split.
  - exact R.
  - exact P.
Qed.

Lemma first_error_bind {Conn A B} (m : M Conn A) (f : A -> M Conn B) (c : Conn) :
  first_error (m c) ->
  (forall a c', first_error (f a c')) ->
  first_error (bind m f c).
Proof.
  unfold first_error, bind. intros Hm Hf.
  destruct (outcome (m c)) as [a|e]; cbn [outcome trace]; [|exact Hm].
  specialize (Hf a (final (m c))).
  destruct (outcome (f a (final (m c)))) as [b|e].
  - apply quiet_app. now split.
  - now apply raised_by_after_quiet.
Qed.

Lemma raised_by_single (ev : event) (e : exn) :
  inside_try ev = false -> raised_by [mkStep ev (Some e)] e.
Proof.
  intros N. exists [], (mkStep ev (Some e)), e, []. repeat split.
  - constructor.
  - left. now repeat split.
Qed.

Lemma first_error_call {Conn} (ev : event) (method : Conn -> Conn * option exn)
  (c : Conn) :
  inside_try ev = false -> first_error (call ev method c).
Proof.
  intros N. unfold first_error. rewrite call_run. cbn [outcome trace].
  destruct (snd (method c)) as [e|].
  - now apply raised_by_single.
  - repeat constructor.
Qed.

Lemma first_error_print {Conn} (line : string) (c : Conn) : first_error (print line c).
Proof. repeat constructor. Qed.

Section FirstError.
Context {Conn : Type} `{Connection Conn}.
Variable read_parquet : string -> list string -> result DataFrame.

Lemma first_error_read (path : string) (columns : list string) (c : Conn) :
  first_error (pd_read_parquet read_parquet path columns c).
Proof.
  unfold first_error, pd_read_parquet.
  destruct (read_parquet path columns) as [df|e]; cbn [outcome trace].
  - repeat constructor.
  - now apply raised_by_single.
Qed.

Lemma first_error_astype (df : DataFrame) (label : string) (c : Conn) :
  first_error (df_astype_str df label c).
Proof.
  unfold first_error, df_astype_str.
  destruct (astype_str df label) as [df'|e]; cbn [outcome trace].
  - repeat constructor.
  - now apply raised_by_single.
Qed.

Lemma first_error_loader (df : DataFrame) (statement : sql) (B : Z) (c : Conn) :
  first_error (insert_dataframe_in_chunks df statement B c).
Proof.
  unfold first_error.
  destruct (loader_run_spec df statement B c) as [e| |done b rest e o D|e o].
  - now apply raised_by_single.
  - constructor; [reflexivity|]. apply quiet_app. split.
    + apply quiet_map_ok.
    + repeat constructor.
  - exists (ok (Execute BeginTransaction)
              :: map (fun b => ok (ExecuteMany statement b)) done),
           (mkStep (ExecuteMany statement b) (Some e)), e,
           [mkStep (Execute Rollback) o].
    repeat split.
    + constructor; [reflexivity|]. apply quiet_map_ok.
    + right. split; [reflexivity|]. now exists o.
  - exists (ok (Execute BeginTransaction)
              :: map (fun b => ok (ExecuteMany statement b))
                   (batches (itertuples df) B)),
           (mkStep (Execute Commit) (Some e)), e,
           [mkStep (Execute Rollback) o].
    repeat split.
    + constructor; [reflexivity|]. apply quiet_map_ok.
    + right. split; [reflexivity|]. now exists o.
Qed.

Lemma first_error_execute_all (statements : list sql) (c : Conn) :
  Forall (fun s => s <> Commit) statements ->
  first_error (execute_all statements c).
Proof.
  intros F. revert c. induction F as [|s statements Ns _ IH]; intros c;
    cbn [execute_all].
  - constructor.
  - apply first_error_bind.
    + apply first_error_call. destruct s; try reflexivity. contradiction.
    + intros _ c'. apply IH.
Qed.

(** X6. When the script raises, the calls before the first one that raised
    all went through. If that call was a schema statement, a read of a source
    file, a text conversion, a BEGIN or the close, nothing is called after it
    and its error is the one that leaves the script; if it was a batched
    insert or a COMMIT, the ROLLBACK of the loader is the only call after it,
    and its error leaves the script unless the ROLLBACK raised as well. *)
Theorem script_raises_first_error (c : Conn) (e : exn) :
  outcome (build_SALT_data read_parquet c) = Raised e ->
  raised_by (trace (build_SALT_data read_parquet c)) e.
Proof.
  intros O.
  assert (F : first_error (build_SALT_data read_parquet c)).
  { unfold build_SALT_data, define_schema, load_all, load_addresses, load_customers,
      load_salesdocuments, load_salesdocument_items, conn_commit, conn_close.
    repeat first
      [ apply first_error_print
      | apply first_error_read
      | apply first_error_astype
      | apply first_error_loader
      | apply first_error_execute_all; repeat constructor; discriminate
      | apply first_error_call; reflexivity
      | apply first_error_bind; [|intros ? ?] ]. }
  unfold first_error in F. now rewrite O in F.
Qed.

End FirstError.

(** The insert of the addresses raises on the sample files: that error
    leaves the script, after the ROLLBACK. *)
Lemma script_raises_first_error_witness :
  raised_by (trace address_load_fails) disk_full.
Proof.
  assert (O : outcome address_load_fails = Raised disk_full) by reflexivity.
  exact (script_raises_first_error (Conn := Scripted.answers) sample_source _
           disk_full O).
Defined.

(** ** The loads and the schema *)

(** An element of [a ++ b] that cannot be in [a] splits [b]. *)
Lemma split_after {A} (a b first rest : list A) (x : A) :
  first ++ x :: rest = a ++ b ->
  ~ In x a ->
  exists mid, first = a ++ mid /\ b = mid ++ x :: rest.
Proof.
  revert first. induction a as [|y a IH]; intros first E N.
  - exists first. split; [reflexivity|]. symmetry. exact E.
  - destruct first as [|z first]; cbn in E.
    + injection E as -> _. exfalso. apply N. now left.
    + injection E as -> E. destruct (IH first E) as (mid & -> & ->).
      * intros I. apply N. now right.
      * exists mid. split; reflexivity.
Qed.

Lemma each_insert_app (P : sql -> Prop) (a b : list step) :
  each_insert P (a ++ b) <-> each_insert P a /\ each_insert P b.
Proof. apply Forall_app. Qed.

Lemma each_insert_bind {Conn A B} (P : sql -> Prop) (m : M Conn A)
  (f : A -> M Conn B) (c : Conn) :
  each_insert P (trace (m c)) ->
  (forall a c', each_insert P (trace (f a c'))) ->
  each_insert P (trace (bind m f c)).
Proof.
  unfold bind. intros Hm Hf.
  destruct (outcome (m c)) as [a|e]; cbn [trace]; [|exact Hm].
  apply each_insert_app. split; [exact Hm|apply Hf].
Qed.

Lemma each_insert_call {Conn} (P : sql -> Prop) (ev : event)
  (method : Conn -> Conn * option exn) (c : Conn) :
  inside_try ev = false -> each_insert P (trace (call ev method c)).
Proof.
  intros N. rewrite call_run. repeat constructor. cbn. intros st rows ->.
  discriminate N.
Qed.

Lemma each_insert_print {Conn} (P : sql -> Prop) (line : string) (c : Conn) :
  each_insert P (trace (print (Conn := Conn) line c)).
Proof. repeat constructor. cbn. discriminate. Qed.

(** No batched insert into [t] among the events of such a trace. *)
Lemma each_insert_not_into (t : table) (tr : list step) :
  each_insert (not_into t) tr -> inserted_into t (events tr) = [].
Proof.
  induction tr as [|s tr IH]; intros F; [reflexivity|].
  inversion F as [|? ? Hs Ht]. subst.
  change (inserted_into t ([step_event s] ++ events tr) = []).
  rewrite inserted_into_app, (IH Ht), app_nil_r.
  destruct (step_event s) as [| st rows | | | | |]; try reflexivity.
  destruct (Hs st rows eq_refl) as (t' & columns & -> & N).
  cbn. now rewrite N.
Qed.

Section LoadsAndSchema.
Context {Conn : Type} `{Connection Conn}.
Variable read_parquet : string -> list string -> result DataFrame.

Lemma each_insert_read (P : sql -> Prop) (path : string) (columns : list string)
  (c : Conn) :
  each_insert P (trace (pd_read_parquet read_parquet path columns c)).
Proof.
  unfold pd_read_parquet. destruct (read_parquet path columns);
    repeat constructor; cbn; discriminate.
Qed.

Lemma each_insert_astype (P : sql -> Prop) (df : DataFrame) (label : string) (c : Conn) :
  each_insert P (trace (df_astype_str df label c)).
Proof.
  unfold df_astype_str. destruct (astype_str df label);
    repeat constructor; cbn; discriminate.
Qed.

(** The loader inserts with the statement it was given, and with no other. *)
Lemma each_insert_loader (P : sql -> Prop) (df : DataFrame) (statement : sql) (B : Z)
  (c : Conn) :
  P statement -> each_insert P (trace (insert_dataframe_in_chunks df statement B c)).
Proof.
  intros Ps.
  assert (K : forall bs, each_insert P (map (fun b => ok (ExecuteMany statement b)) bs)).
  { intros bs. apply Forall_map, Forall_forall. cbn. intros b _ st rows E.
    now injection E as <- _. }
  destruct (loader_run_spec df statement B c) as [e| |done b rest e o D|e o].
  - repeat constructor. cbn. discriminate.
  - constructor; [cbn; discriminate|]. apply each_insert_app. split; [apply K|].
    repeat constructor. cbn. discriminate.
  - constructor; [cbn; discriminate|]. apply each_insert_app. split; [apply K|].
    constructor; [|repeat constructor; cbn; discriminate].
    cbn. intros st rows E. now injection E as <- _.
  - constructor; [cbn; discriminate|]. apply each_insert_app. split; [apply K|].
    repeat constructor; cbn; discriminate.
Qed.

Lemma each_insert_execute_all (P : sql -> Prop) (statements : list sql) (c : Conn) :
  each_insert P (trace (execute_all statements c)).
Proof.
  revert c. induction statements as [|s statements IH]; intros c; cbn [execute_all].
  - constructor.
  - apply each_insert_bind; [|intros _ c'; apply IH].
    unfold conn_execute. rewrite call_run. repeat constructor. cbn. discriminate.
Qed.

Ltac each_insert_steps :=
  repeat first
    [ apply each_insert_loader; assumption
    | apply each_insert_print
    | apply each_insert_read
    | apply each_insert_astype
    | apply each_insert_execute_all
    | apply each_insert_call; reflexivity
    | apply each_insert_bind; [|intros ? ?] ].

Lemma each_insert_define_schema (P : sql -> Prop) (c : Conn) :
  each_insert P (trace (define_schema c)).
Proof. unfold define_schema, conn_commit. each_insert_steps. Qed.

Lemma each_insert_close (P : sql -> Prop) (c : Conn) :
  each_insert P
    (trace (bind conn_close
              (fun _ => print ("Done! The SALT tables have been saved into "
                               ++ sqlite_db_file)) c)).
Proof. unfold conn_close. each_insert_steps. Qed.

Lemma each_insert_load_addresses (P : sql -> Prop) (c : Conn) :
  P (InsertOrIgnore I_AddrOrgNamePostalAddress address_columns) ->
  each_insert P (trace (load_addresses read_parquet c)).
Proof.
  intros Ps. unfold load_addresses. each_insert_steps.
Qed.

Lemma each_insert_load_customers (P : sql -> Prop) (c : Conn) :
  P (InsertOrIgnore I_Customer customer_columns) ->
  each_insert P (trace (load_customers read_parquet c)).
Proof.
  intros Ps. unfold load_customers. each_insert_steps.
Qed.

Lemma each_insert_load_salesdocuments (P : sql -> Prop) (c : Conn) :
  P (InsertOrIgnore I_SalesDocument sales_doc_columns) ->
  each_insert P (trace (load_salesdocuments read_parquet c)).
Proof.
  intros Ps. unfold load_salesdocuments. each_insert_steps.
Qed.

Lemma each_insert_load_salesdocument_items (P : sql -> Prop) (c : Conn) :
  P (InsertOrIgnore I_SalesDocumentItem sales_item_columns) ->
  each_insert P (trace (load_salesdocument_items read_parquet c)).
Proof.
  intros Ps. unfold load_salesdocument_items. each_insert_steps.
Qed.

(** Order of the inserts of a sequence of two steps. *)
Lemma loaded_before_bind {A B} (parent child : table) (m : M Conn A)
  (f : A -> M Conn B) (c : Conn) :
  each_insert (not_into child) (trace (m c)) ->
  (forall a c', each_insert (not_into parent) (trace (f a c'))) ->
  loaded_before parent child (events (trace (bind m f c))).
Proof.
  unfold bind. intros Hm Hf.
  destruct (outcome (m c)) as [a|e]; cbn [trace].
  - exists (events (trace (m c))), (events (trace (f a (final (m c))))).
    split; [apply events_app|]. split; now apply each_insert_not_into.
  - exists (events (trace (m c))), []. split; [now rewrite app_nil_r|].
    split; [now apply each_insert_not_into|reflexivity].
Qed.

Lemma loaded_before_later {A B} (parent child : table) (m : M Conn A)
  (f : A -> M Conn B) (c : Conn) :
  each_insert (not_into child) (trace (m c)) ->
  (forall a c', loaded_before parent child (events (trace (f a c')))) ->
  loaded_before parent child (events (trace (bind m f c))).
Proof.
  unfold bind. intros Hm Hf.
  destruct (outcome (m c)) as [a|e]; cbn [trace].
  - destruct (Hf a (final (m c))) as (first & rest & E & Fc & Fp).
    exists (events (trace (m c)) ++ first), rest.
    split; [now rewrite events_app, E, app_assoc|].
    split; [|exact Fp].
    now rewrite inserted_into_app, (each_insert_not_into _ _ Hm), Fc.
  - exists (events (trace (m c))), []. split; [now rewrite app_nil_r|].
    split; [now apply each_insert_not_into|reflexivity].
Qed.

Lemma loaded_before_earlier {A B} (parent child : table) (m : M Conn A)
  (f : A -> M Conn B) (c : Conn) :
  loaded_before parent child (events (trace (m c))) ->
  (forall a c', each_insert (not_into parent) (trace (f a c'))) ->
  loaded_before parent child (events (trace (bind m f c))).
Proof.
  unfold bind. intros Hm Hf.
  destruct (outcome (m c)) as [a|e]; cbn [trace]; [|exact Hm].
  destruct Hm as (first & rest & E & Fc & Fp).
  exists first, (rest ++ events (trace (f a (final (m c))))).
  split; [now rewrite events_app, E, app_assoc|].
  split; [exact Fc|].
  now rewrite inserted_into_app, Fp, (each_insert_not_into _ _ (Hf a (final (m c)))).
Qed.

Ltac not_into_table := eexists; eexists; split; reflexivity.

(** X7. In every run of the script, also one that raises, for every foreign
    key the schema statements declare, every batched insert into the parent
    table comes before every batched insert into the child table: the
    addresses before the customers, the customers and the sales documents
    before the items. *)
Theorem parents_loaded_first (c : Conn) (child parent : table) :
  In (child, parent) (references schema_statements) ->
  loaded_before parent child (events (trace (build_SALT_data read_parquet c))).
Proof.
  intros I. unfold build_SALT_data.
  apply loaded_before_later; [apply each_insert_define_schema|]. intros _ c0.
  apply loaded_before_earlier; [|intros _ c5; apply each_insert_close].
  unfold load_all. cbn in I.
  destruct I as [I|[I|[I|[I|[I|[I|[]]]]]]]; injection I as <- <-.
  1,2,3,4,5:
    (apply loaded_before_later;
       [apply each_insert_load_addresses; not_into_table|]; intros _ c1;
     apply loaded_before_later;
       [apply each_insert_load_customers; not_into_table|]; intros _ c2;
     apply loaded_before_bind;
       [apply each_insert_load_salesdocuments; not_into_table|]; intros _ c3;
     apply each_insert_load_salesdocument_items; not_into_table).
  apply loaded_before_bind; [apply each_insert_load_addresses; not_into_table|].
  intros _ c1.
  apply each_insert_bind; [apply each_insert_load_customers; not_into_table|].
  intros _ c2.
  apply each_insert_bind; [apply each_insert_load_salesdocuments; not_into_table|].
  intros _ c3. apply each_insert_load_salesdocument_items; not_into_table.
Qed.

(** X8. In every run of the script, also one that raises, every batched
    insert comes after all the schema statements and their commit, which
    went through, and is an INSERT OR IGNORE into a table that one of the
    CREATE TABLE statements created, with exactly the columns of that
    statement, in their order. *)
Theorem inserts_into_created_tables (c : Conn) (first rest : list event)
  (statement : sql) (rows : list row) :
  events (trace (build_SALT_data read_parquet c))
  = first ++ ExecuteMany statement rows :: rest ->
  (exists later, first = (map Execute schema_statements ++ [ConnCommit]) ++ later)
  /\ exists t columns key fks,
      statement = InsertOrIgnore t columns
      /\ In (Execute (CreateTable t columns key fks)) first.
Proof.
  unfold build_SALT_data. rewrite bind_unfold.
  pose proof (fail_fast_define_schema c) as F. unfold fail_fast in F.
  pose proof (each_insert_define_schema (fun _ => False) c) as N.
  destruct (outcome (define_schema c)) as [[]|e] eqn:O; cbn [trace]; intros E.
  - destruct (define_schema_quiet c F) as [ES _].
    rewrite events_app, ES in E. symmetry in E.
    apply split_after in E.
    2:{ intros I. apply in_app_or in I. destruct I as [I|[I|[]]].
        - apply in_map_iff in I. destruct I as (x & Hx & _). discriminate Hx.
        - discriminate I. }
    destruct E as (mid & -> & E).
    split; [now exists mid|].
    assert (L : each_insert into_created_table
                  (trace ((bind (load_all read_parquet)
                             (fun _ => bind conn_close
                                (fun _ => print
                                   ("Done! The SALT tables have been saved into "
                                    ++ sqlite_db_file))))
                            (final (define_schema c))))).
    { apply each_insert_bind; [|intros _ c5; apply each_insert_close].
      unfold load_all.
      apply each_insert_bind;
        [apply each_insert_load_addresses;
         exists I_AddrOrgNamePostalAddress, address_columns, ["ADDRESSID"], [];
         split; [reflexivity|do 3 right; left; reflexivity]|intros _ c1].
      apply each_insert_bind;
        [apply each_insert_load_customers;
         eexists I_Customer, customer_columns, _, _;
         split; [reflexivity|do 2 right; left; reflexivity]|intros _ c2].
      apply each_insert_bind;
        [apply each_insert_load_salesdocuments;
         eexists I_SalesDocument, sales_doc_columns, _, _;
         split; [reflexivity|left; reflexivity]|intros _ c3].
      apply each_insert_load_salesdocument_items.
      eexists I_SalesDocumentItem, sales_item_columns, _, _.
      split; [reflexivity|right; left; reflexivity]. }
    unfold each_insert in L. rewrite Forall_forall in L.
    assert (I : In (ExecuteMany statement rows) (mid ++ ExecuteMany statement rows :: rest)).
    { apply in_or_app. right. now left. }
    rewrite <- E in I. unfold events in I. apply in_map_iff in I.
    destruct I as (s & Es & Is).
    destruct (L s Is statement rows Es) as (t & columns & key & fks & -> & C).
    exists t, columns, key, fks. split; [reflexivity|].
    apply in_or_app. left. apply in_or_app. left. apply in_map.
    unfold schema_statements. right. apply in_or_app. now right.
  - exfalso. unfold each_insert in N. rewrite Forall_forall in N.
    assert (I : In (ExecuteMany statement rows) (events (trace (define_schema c)))).
    { rewrite E. apply in_or_app. right. now left. }
    unfold events in I. apply in_map_iff in I. destruct I as (s & Es & Is).
    exact (N s Is statement rows Es).
Qed.

End LoadsAndSchema.

(** On the sample files the addresses are inserted before the customers. *)
Lemma parents_loaded_first_witness :
  loaded_before I_AddrOrgNamePostalAddress I_Customer (events (trace sample_run)).
Proof.
  apply (parents_loaded_first (Conn := Scripted.answers) sample_source []
           I_Customer I_AddrOrgNamePostalAddress).
  cbn. auto 10.
Defined.

(** On the sample files, the insert of the addresses raising: the only
    insert of the run, the fourteenth call, comes after the schema
    statements and goes into a table they created. *)
Lemma inserts_into_created_tables_witness :
  exists t columns key fks,
    InsertOrIgnore I_AddrOrgNamePostalAddress address_columns
    = InsertOrIgnore t columns
    /\ In (Execute (CreateTable t columns key fks))
          (firstn 13 (events (trace address_load_fails))).
Proof.
  apply (inserts_into_created_tables (Conn := Scripted.answers) sample_source
           [None; None; None; None; None; None; None; None; None; None;
            None; Some disk_full]
           (firstn 13 (events (trace address_load_fails)))
           (skipn 14 (events (trace address_load_fails)))
           (InsertOrIgnore I_AddrOrgNamePostalAddress address_columns)
           (itertuples two_addresses)).
  reflexivity.
Defined.

(** ** The script on the store *)

Lemma length_update_cell (i : nat) (f : value -> value) (r : row) :
  List.length (update_cell i f r) = List.length r.
Proof.
  revert i. induction r as [|x r IH]; intros [|i]; cbn; try reflexivity.
  now rewrite IH.
Qed.

(** On a frame with the columns of the sales documents both conversions go
    through. *)
Lemma astype_str_both (df : DataFrame) :
  df_columns df = sales_doc_columns ->
  exists df1,
    astype_str df "CREATIONDATE" = Returned df1
    /\ astype_str df1 "CREATIONTIME" = Returned (normalise_dates df).
Proof.
  intros C. eexists. split.
  - unfold astype_str. rewrite C. cbn. reflexivity.
  - unfold astype_str. cbn. unfold normalise_dates. rewrite C, map_map. reflexivity.
Qed.

(** On a frame with the columns of the sales documents the two conversions
    turn the cells 12 and 13 of every row into text. *)
Lemma astype_str_dates (df df1 df2 : DataFrame) :
  df_columns df = sales_doc_columns ->
  astype_str df "CREATIONDATE" = Returned df1 ->
  astype_str df1 "CREATIONTIME" = Returned df2 ->
  df2 = normalise_dates df.
Proof.
  intros C A1 A2. destruct (astype_str_both df C) as (df1' & B1 & B2).
  rewrite B1 in A1. injection A1 as <-. rewrite B2 in A2. now injection A2.
Qed.

(** X9. On the store, when a load into a table that exists goes through, no
    call raising: it returns the number of rows submitted; the table keeps
    the rows it had, in their place, and what is added after them is at most
    one row for each row submitted, so that the count returned is an upper
    bound of the rows added; the other tables are as they were. *)
Theorem rows_added_at_most_submitted (t : table) (columns : list string) (B : Z)
  (df : DataFrame) (d : Store.database) (rel : Store.relation) :
  Store.db_tables d t = Some rel ->
  let r := insert_dataframe_in_chunks df (InsertOrIgnore t columns) B d in
  quiet (trace r) ->
  outcome r = Returned (Z.of_nat (List.length (itertuples df)))
  /\ (exists rel' added,
         Store.db_tables (final r) t = Some rel'
         /\ Store.rel_rows rel' = Store.rel_rows rel ++ added
         /\ List.length added <= List.length (itertuples df)
         /\ Store.count_rows (final r) t
            = Some (List.length (Store.rel_rows rel) + List.length added))
  /\ (forall t', table_eqb t t' = false ->
                 Store.db_tables (final r) t' = Store.db_tables d t').
Proof.
  intros T r Q.
  destruct (store_load_quiet t columns B df d rel T Q) as (O & _ & _ & _ & F).
  fold r in O, F. split; [exact O|].
  destruct (fold_insert_keeps columns (map stored (itertuples df)) rel)
    as (added & E & L & _).
  rewrite length_map in L. split.
  - eexists. exists added. unfold Store.count_rows, Store.db_tables. rewrite F.
    cbn [Store.db_store]. rewrite lookup_set_same.
    split; [reflexivity|]. split; [exact E|]. split; [exact L|].
    now rewrite E, length_app.
  - intros t' N. unfold Store.db_tables. rewrite F. cbn [Store.db_store].
    now apply lookup_set_other.
Qed.

(** The customers table holds two rows; of the four rows submitted two are
    added. *)
Lemma rows_added_at_most_submitted_witness :
  outcome (insert_dataframe_in_chunks customers_with_duplicates insert_customers 2%Z
             two_customers_stored) = Returned 4%Z
  /\ exists rel' added,
       Store.db_tables
         (final (insert_dataframe_in_chunks customers_with_duplicates
                   insert_customers 2%Z two_customers_stored)) I_Customer
       = Some rel'
       /\ Store.rel_rows rel' = Store.rel_rows two_customers_table ++ added
       /\ List.length added <= 4.
Proof.
  assert (Q : quiet (trace (insert_dataframe_in_chunks customers_with_duplicates
                              insert_customers 2%Z two_customers_stored)))
    by (vm_compute; repeat constructor).
  destruct (rows_added_at_most_submitted I_Customer customer_columns 2%Z
              customers_with_duplicates two_customers_stored two_customers_table
              eq_refl Q) as (O & (rel' & added & T & E & L & _) & _).
  split; [exact O|]. exists rel', added. repeat split; assumption.
Defined.

(** The schema statements and their commit on an open store: whatever the
    store held, they leave the store of the declared tables. *)
Lemma define_schema_store (d : Store.database) :
  Store.db_closed d = false ->
  outcome (define_schema d) = Returned tt
  /\ quiet (trace (define_schema d))
  /\ final (define_schema d) = schema_store.
Proof.
  destruct d as [[s i c a] journal enforce closed]. cbn [Store.db_closed]. intros ->.
  split; [reflexivity|]. split; [repeat constructor|reflexivity].
Qed.

(** When no schema statement raised, the store was open. *)
Lemma define_schema_quiet_store (d : Store.database) :
  quiet (trace (define_schema d)) ->
  outcome (define_schema d) = Returned tt /\ final (define_schema d) = schema_store.
Proof.
  intros Q. destruct (Store.db_closed d) eqn:C.
  - exfalso. destruct d as [ts journal enforce closed]. cbn [Store.db_closed] in C.
    subst closed. inversion Q as [|? ? Hs _]. discriminate Hs.
  - destruct (define_schema_store d C) as (O & _ & F). now split.
Qed.



Lemma bind_print {Conn A} (line : string) (k : unit -> M Conn A) (c : Conn) :
  bind (print line) k c
  = mkRun (ok (Print line) :: trace (k tt c)) (final (k tt c)) (outcome (k tt c)).
Proof. reflexivity. Qed.

Lemma bind_astype {Conn A} (df df' : DataFrame) (label : string)
  (k : DataFrame -> M Conn A) (c : Conn) :
  astype_str df label = Returned df' ->
  bind (df_astype_str df label) k c
  = mkRun (ok (AsTypeStr label) :: trace (k df' c)) (final (k df' c))
          (outcome (k df' c)).
Proof. intros E. unfold bind, df_astype_str. rewrite E. reflexivity. Qed.

Lemma quiet_tail (s : step) (tr : list step) : quiet (s :: tr) -> quiet tr.
Proof. intros Q. now inversion Q. Qed.

Section ScriptOnStore.
Variable read_parquet : string -> list string -> result DataFrame.

Lemma bind_read {A} (path : string) (columns : list string) (df : DataFrame)
  (k : DataFrame -> M Store.database A) (d : Store.database) :
  read_parquet path columns = Returned df ->
  bind (pd_read_parquet read_parquet path columns) k d
  = mkRun (ok (ReadParquet path columns) :: trace (k df d)) (final (k df d))
          (outcome (k df d)).
Proof. intros E. unfold bind, pd_read_parquet. rewrite E. reflexivity. Qed.

Lemma bind_read_raised {A} (path : string) (columns : list string) (e : exn)
  (k : DataFrame -> M Store.database A) (d : Store.database) :
  read_parquet path columns = Raised e ->
  bind (pd_read_parquet read_parquet path columns) k d
  = mkRun [mkStep (ReadParquet path columns) (Some e)] d (Raised e).
Proof. intros E. unfold bind, pd_read_parquet. rewrite E. reflexivity. Qed.

(** The loader and the report of its count, on the store. *)
Lemma load_and_report_store (t : table) (columns : list string) (df : DataFrame)
  (report : Z -> string) (d : Store.database) (rel : Store.relation) :
  Store.db_tables d t = Some rel ->
  quiet (trace (bind (insert_dataframe_in_chunks df (InsertOrIgnore t columns) CHUNK_SIZE)
                     (fun n => print (report n)) d)) ->
  outcome (bind (insert_dataframe_in_chunks df (InsertOrIgnore t columns) CHUNK_SIZE)
                (fun n => print (report n)) d) = Returned tt
  /\ final (bind (insert_dataframe_in_chunks df (InsertOrIgnore t columns) CHUNK_SIZE)
                 (fun n => print (report n)) d)
     = after_load t columns df d.
Proof.
  intros T Q.
  destruct (quiet_bind _ _ d (fail_fast_loader df _ CHUNK_SIZE d) Q)
    as (n & O & Q1 & _ & _ & _).
  destruct (store_load_quiet t columns CHUNK_SIZE df d rel T Q1) as (_ & _ & _ & _ & F).
  rewrite (bind_returned _ _ _ _ O). cbn [outcome final print].
  split; [reflexivity|]. unfold after_load. rewrite T. exact F.
Qed.

(** One load without conversion: announce, read, load, report. *)
Lemma read_and_load_store (announce : string) (path : string) (columns : list string)
  (t : table) (report : Z -> string) (d : Store.database) (rel : Store.relation)
  (df : DataFrame) :
  Store.db_tables d t = Some rel ->
  read_parquet path columns = Returned df ->
  let load :=
    bind (print announce)
      (fun _ => bind (pd_read_parquet read_parquet path columns)
         (fun df => bind (insert_dataframe_in_chunks df (InsertOrIgnore t columns)
                            CHUNK_SIZE)
                         (fun n => print (report n)))) in
  quiet (trace (load d)) ->
  outcome (load d) = Returned tt /\ final (load d) = after_load t columns df d.
Proof.
  intros T R load. subst load. rewrite bind_print, (bind_read _ _ _ _ _ R).
  cbn [trace outcome final]. intros Q.
  apply quiet_tail, quiet_tail in Q.
  exact (load_and_report_store t columns df report d rel T Q).
Qed.

Lemma load_addresses_store (d : Store.database) (rel : Store.relation)
  (df : DataFrame) :
  Store.db_tables d I_AddrOrgNamePostalAddress = Some rel ->
  read_parquet addresses_parquet address_columns = Returned df ->
  quiet (trace (load_addresses read_parquet d)) ->
  outcome (load_addresses read_parquet d) = Returned tt
  /\ final (load_addresses read_parquet d)
     = after_load I_AddrOrgNamePostalAddress address_columns df d.
Proof.
  intros T R.
  exact (read_and_load_store _ addresses_parquet address_columns
           I_AddrOrgNamePostalAddress _ d rel df T R).
Qed.

Lemma load_customers_store (d : Store.database) (rel : Store.relation)
  (df : DataFrame) :
  Store.db_tables d I_Customer = Some rel ->
  read_parquet customers_parquet customer_columns = Returned df ->
  quiet (trace (load_customers read_parquet d)) ->
  outcome (load_customers read_parquet d) = Returned tt
  /\ final (load_customers read_parquet d)
     = after_load I_Customer customer_columns df d.
Proof.
  intros T R.
  exact (read_and_load_store _ customers_parquet customer_columns
           I_Customer _ d rel df T R).
Qed.

Lemma load_salesdocument_items_store (d : Store.database) (rel : Store.relation)
  (df : DataFrame) :
  Store.db_tables d I_SalesDocumentItem = Some rel ->
  read_parquet salesdoc_items_parquet sales_item_columns = Returned df ->
  quiet (trace (load_salesdocument_items read_parquet d)) ->
  outcome (load_salesdocument_items read_parquet d) = Returned tt
  /\ final (load_salesdocument_items read_parquet d)
     = after_load I_SalesDocumentItem sales_item_columns df d.
Proof.
  intros T R.
  exact (read_and_load_store _ salesdoc_items_parquet sales_item_columns
           I_SalesDocumentItem _ d rel df T R).
Qed.

(** The load of the sales documents, with its two conversions. *)
Lemma load_salesdocuments_store (d : Store.database) (rel : Store.relation)
  (df : DataFrame) :
  Store.db_tables d I_SalesDocument = Some rel ->
  read_parquet salesdocuments_parquet sales_doc_columns = Returned df ->
  df_columns df = sales_doc_columns ->
  quiet (trace (load_salesdocuments read_parquet d)) ->
  outcome (load_salesdocuments read_parquet d) = Returned tt
  /\ final (load_salesdocuments read_parquet d)
     = after_load I_SalesDocument sales_doc_columns (normalise_dates df) d.
Proof.
  intros T R C. unfold load_salesdocuments.
  destruct (astype_str_both df C) as (df1 & A1 & A2).
  rewrite bind_print, (bind_read _ _ _ _ _ R). cbn [trace outcome final].
  rewrite (bind_astype _ _ _ _ _ A1). cbn [trace outcome final].
  rewrite (bind_astype _ _ _ _ _ A2). cbn [trace outcome final].
  intros Q. do 4 apply quiet_tail in Q.
  exact (load_and_report_store I_SalesDocument sales_doc_columns (normalise_dates df)
           _ d rel T Q).
Qed.

(** The store the four loads leave when they start from the declared tables
    and no call raises. *)
Lemma load_all_store (dfa dfc dfs dfi : DataFrame) :
  read_parquet addresses_parquet address_columns = Returned dfa ->
  read_parquet customers_parquet customer_columns = Returned dfc ->
  read_parquet salesdocuments_parquet sales_doc_columns = Returned dfs ->
  read_parquet salesdoc_items_parquet sales_item_columns = Returned dfi ->
  df_columns dfs = sales_doc_columns ->
  quiet (trace (load_all read_parquet schema_store)) ->
  outcome (load_all read_parquet schema_store) = Returned tt
  /\ final (load_all read_parquet schema_store)
     = Store.mkDatabase
         (Store.mkTables
            (loaded I_SalesDocument sales_doc_columns (normalise_dates dfs))
            (loaded I_SalesDocumentItem sales_item_columns dfi)
            (loaded I_Customer customer_columns dfc)
            (loaded I_AddrOrgNamePostalAddress address_columns dfa))
         None true false.
Proof.
  intros Ra Rc Rs Ri Cs Q. unfold load_all in *.
  (* addresses *)
  destruct (quiet_bind _ _ _ (fail_fast_load_addresses read_parquet schema_store) Q)
    as ([] & _ & Qa & Q1 & _ & _).
  destruct (load_addresses_store schema_store _ dfa eq_refl Ra Qa) as [Oa Fa].
  rewrite (bind_returned _ _ _ _ Oa). cbn [outcome final].
  rewrite Fa in Q1 |- *.
  (* customers *)
  destruct (quiet_bind _ _ _ (fail_fast_load_customers read_parquet _) Q1)
    as ([] & _ & Qc & Q2 & _ & _).
  destruct (load_customers_store
              (after_load I_AddrOrgNamePostalAddress address_columns dfa schema_store)
              _ dfc eq_refl Rc Qc) as [Oc Fc].
  rewrite (bind_returned _ _ _ _ Oc). cbn [outcome final].
  rewrite Fc in Q2 |- *.
  (* sales documents *)
  destruct (quiet_bind _ _ _ (fail_fast_load_salesdocuments read_parquet _) Q2)
    as ([] & _ & Qs & Q3 & _ & _).
  destruct (load_salesdocuments_store
              (after_load I_Customer customer_columns dfc
                 (after_load I_AddrOrgNamePostalAddress address_columns dfa
                    schema_store))
              _ dfs eq_refl Rs Cs Qs) as [Os Fs].
  rewrite (bind_returned _ _ _ _ Os). cbn [outcome final].
  rewrite Fs in Q3 |- *.
  (* items *)
  destruct (load_salesdocument_items_store
              (after_load I_SalesDocument sales_doc_columns (normalise_dates dfs)
                 (after_load I_Customer customer_columns dfc
                    (after_load I_AddrOrgNamePostalAddress address_columns dfa
                       schema_store)))
              _ dfi eq_refl Ri Q3) as [Oi Fi].
  rewrite Oi, Fi. split; reflexivity.
Qed.

(** The whole script on the store when no call raises. *)
Lemma script_on_store (d : Store.database) (dfa dfc dfs dfi : DataFrame) :
  quiet (trace (build_SALT_data read_parquet d)) ->
  read_parquet addresses_parquet address_columns = Returned dfa ->
  read_parquet customers_parquet customer_columns = Returned dfc ->
  read_parquet salesdocuments_parquet sales_doc_columns = Returned dfs ->
  read_parquet salesdoc_items_parquet sales_item_columns = Returned dfi ->
  df_columns dfs = sales_doc_columns ->
  outcome (build_SALT_data read_parquet d) = Returned tt
  /\ final (build_SALT_data read_parquet d)
     = Store.mkDatabase
         (Store.mkTables
            (loaded I_SalesDocument sales_doc_columns (normalise_dates dfs))
            (loaded I_SalesDocumentItem sales_item_columns dfi)
            (loaded I_Customer customer_columns dfc)
            (loaded I_AddrOrgNamePostalAddress address_columns dfa))
         None true true.
Proof.
  intros Q Ra Rc Rs Ri Cs. unfold build_SALT_data in *.
  destruct (quiet_bind _ _ d (fail_fast_define_schema d) Q)
    as ([] & _ & Q0 & Q1 & _ & _).
  destruct (define_schema_quiet_store d Q0) as [O0 F0].
  rewrite (bind_returned _ _ _ _ O0). cbn [outcome final].
  rewrite F0 in Q1 |- *.
  destruct (quiet_bind _ _ _ (fail_fast_load_all read_parquet schema_store) Q1)
    as ([] & _ & QL & _ & _ & _).
  destruct (load_all_store dfa dfc dfs dfi Ra Rc Rs Ri Cs QL) as [OL FL].
  rewrite (bind_returned _ _ _ _ OL). cbn [outcome final]. rewrite FL.
  split; reflexivity.
Qed.

(** X11. On the store, for a run of the script in which no call raised, the
    source files giving the four frames, the sales documents with the
    columns asked for: the script returns, the connection is closed with no
    transaction open, and each of the four tables holds what the insert
    policy makes of the rows of its frame, as the store keeps them and in
    their order, the sales documents with the creation date and time as
    text, starting from the empty table the schema declares; what the store
    held before has no part in it. *)
Theorem full_run_on_store (d : Store.database) (dfa dfc dfs dfi : DataFrame) :
  quiet (trace (build_SALT_data read_parquet d)) ->
  read_parquet addresses_parquet address_columns = Returned dfa ->
  read_parquet customers_parquet customer_columns = Returned dfc ->
  read_parquet salesdocuments_parquet sales_doc_columns = Returned dfs ->
  read_parquet salesdoc_items_parquet sales_item_columns = Returned dfi ->
  df_columns dfs = sales_doc_columns ->
  let r := build_SALT_data read_parquet d in
  outcome r = Returned tt
  /\ Store.db_closed (final r) = true
  /\ Store.db_journal (final r) = None
  /\ Store.db_tables (final r) I_AddrOrgNamePostalAddress
     = loaded I_AddrOrgNamePostalAddress address_columns dfa
  /\ Store.db_tables (final r) I_Customer = loaded I_Customer customer_columns dfc
  /\ Store.db_tables (final r) I_SalesDocument
     = loaded I_SalesDocument sales_doc_columns (normalise_dates dfs)
  /\ Store.db_tables (final r) I_SalesDocumentItem
     = loaded I_SalesDocumentItem sales_item_columns dfi.
Proof.
  intros Q Ra Rc Rs Ri Cs r.
  destruct (script_on_store d dfa dfc dfs dfi Q Ra Rc Rs Ri Cs) as [O F].
  subst r. rewrite F. split; [exact O|]. repeat split.
Qed.


End ScriptOnStore.

(** The script on the sample files, on the store of a new file: it goes
    through, the connection is closed and the five customers are stored. *)
Lemma full_run_on_store_witness :
  outcome sample_store_run = Returned tt
  /\ Store.db_closed (final sample_store_run) = true
  /\ Store.db_tables (final sample_store_run) I_Customer
     = loaded I_Customer customer_columns five_customers.
Proof.
  assert (Q : quiet (trace sample_store_run)) by (vm_compute; repeat constructor).
  destruct (full_run_on_store store_source Store.empty three_addresses five_customers
              one_salesdocument one_salesdocument_item
              Q eq_refl eq_refl eq_refl eq_refl eq_refl)
    as (O & C & _ & _ & T & _).
  repeat split; assumption.
Defined.


(** ** A source file that cannot be read *)

Lemma never_reads_bind {Conn A B} (path : string) (columns : list string)
  (m : M Conn A) (f : A -> M Conn B) (c : Conn) :
  never_reads path columns (trace (m c)) ->
  (forall a c', never_reads path columns (trace (f a c'))) ->
  never_reads path columns (trace (bind m f c)).
Proof.
  unfold bind. intros Hm Hf.
  destruct (outcome (m c)) as [a|e]; cbn [trace]; [|exact Hm].
  apply Forall_app. split; [exact Hm|apply Hf].
Qed.

Lemma never_reads_call {Conn} (path : string) (columns : list string) (ev : event)
  (method : Conn -> Conn * option exn) (c : Conn) :
  ev <> ReadParquet path columns ->
  never_reads path columns (trace (call ev method c)).
Proof. intros N. rewrite call_run. repeat constructor. exact N. Qed.

Lemma never_reads_print {Conn} (path : string) (columns : list string) (line : string)
  (c : Conn) :
  never_reads path columns (trace (print (Conn := Conn) line c)).
Proof. repeat constructor. discriminate. Qed.

(** Calls that raised only at reads of a file, in a trace without such a
    read, did not raise. *)
Lemma only_read_quiet (path : string) (columns : list string) (tr : list step) :
  only_read_raised path columns tr -> never_reads path columns tr -> quiet tr.
Proof.
  unfold only_read_raised, never_reads, quiet. rewrite !Forall_forall.
  intros O N s I. destruct (O s I) as [E|E]; [exact E|]. now destruct (N s I).
Qed.

Lemma only_read_bind {Conn A B} (path : string) (columns : list string)
  (m : M Conn A) (f : A -> M Conn B) (c : Conn) :
  only_read_raised path columns (trace (bind m f c)) ->
  only_read_raised path columns (trace (m c))
  /\ forall a, outcome (m c) = Returned a ->
               only_read_raised path columns (trace (f a (final (m c)))).
Proof.
  unfold only_read_raised. rewrite bind_unfold.
  destruct (outcome (m c)) as [a|e]; cbn [trace]; intros O.
  - apply Forall_app in O. destruct O as [O1 O2]. split; [exact O1|].
    intros a' E. injection E as <-. exact O2.
  - split; [exact O|]. intros a E. discriminate E.
Qed.

Section MissingSource.
Context {Conn : Type} `{Connection Conn}.
Variable read_parquet : string -> list string -> result DataFrame.

Lemma never_reads_loader (path : string) (columns : list string) (df : DataFrame)
  (statement : sql) (B : Z) (c : Conn) :
  never_reads path columns (trace (insert_dataframe_in_chunks df statement B c)).
Proof.
  destruct (loader_run_spec df statement B c) as [e| |done b rest e o D|e o];
    repeat first
      [ apply Forall_cons; [discriminate|]
      | apply Forall_nil
      | apply Forall_app; split
      | apply Forall_map; apply Forall_forall; intros ? _; discriminate ].
Qed.

Lemma never_reads_execute_all (path : string) (columns : list string)
  (statements : list sql) (c : Conn) :
  never_reads path columns (trace (execute_all statements c)).
Proof.
  revert c. induction statements as [|s statements IH]; intros c; cbn [execute_all].
  - constructor.
  - apply never_reads_bind; [apply never_reads_call; discriminate|].
    intros _ c'. apply IH.
Qed.

Lemma never_reads_other (path path' : string) (columns columns' : list string)
  (c : Conn) :
  path' <> path ->
  never_reads path columns (trace (pd_read_parquet read_parquet path' columns' c)).
Proof.
  intros N. unfold pd_read_parquet. destruct (read_parquet path' columns');
    repeat constructor; cbn; intros E; injection E as E _; contradiction.
Qed.

Lemma never_reads_define_schema (path : string) (columns : list string) (c : Conn) :
  never_reads path columns (trace (define_schema c)).
Proof.
  unfold define_schema, conn_commit.
  apply never_reads_bind; [apply never_reads_execute_all|].
  intros _ c'. apply never_reads_call. discriminate.
Qed.

(** The loads of the addresses and of the customers do not read the file of
    the sales documents. *)
Lemma never_reads_load_addresses (c : Conn) :
  never_reads salesdocuments_parquet sales_doc_columns
    (trace (load_addresses read_parquet c)).
Proof.
  unfold load_addresses.
  apply never_reads_bind; [apply never_reads_print|intros _ c1].
  apply never_reads_bind; [apply never_reads_other; discriminate|intros df c2].
  apply never_reads_bind; [apply never_reads_loader|intros n c3].
  apply never_reads_print.
Qed.

Lemma never_reads_load_customers (c : Conn) :
  never_reads salesdocuments_parquet sales_doc_columns
    (trace (load_customers read_parquet c)).
Proof.
  unfold load_customers.
  apply never_reads_bind; [apply never_reads_print|intros _ c1].
  apply never_reads_bind; [apply never_reads_other; discriminate|intros df c2].
  apply never_reads_bind; [apply never_reads_loader|intros n c3].
  apply never_reads_print.
Qed.

End MissingSource.

Section UnreadSalesDocuments.
Variable read_parquet : string -> list string -> result DataFrame.

(** X13. On the store, when the file of the sales documents cannot be read
    while the addresses and the customers were read, and no call raised but
    that read: the script raises the error of the read and does not close
    the connection; the addresses and the customers stay loaded and
    committed, and the tables of the sales documents and of the items stay
    empty. A failed run is not undone as a whole: each table load is
    committed on its own. *)
Theorem earlier_loads_stay_committed (d : Store.database) (dfa dfc : DataFrame)
  (e : exn) :
  read_parquet addresses_parquet address_columns = Returned dfa ->
  read_parquet customers_parquet customer_columns = Returned dfc ->
  read_parquet salesdocuments_parquet sales_doc_columns = Raised e ->
  let r := build_SALT_data read_parquet d in
  only_read_raised salesdocuments_parquet sales_doc_columns (trace r) ->
  outcome r = Raised e
  /\ Store.db_closed (final r) = false
  /\ Store.db_journal (final r) = None
  /\ Store.db_tables (final r) I_AddrOrgNamePostalAddress
     = loaded I_AddrOrgNamePostalAddress address_columns dfa
  /\ Store.db_tables (final r) I_Customer = loaded I_Customer customer_columns dfc
  /\ Store.count_rows (final r) I_SalesDocument = Some 0
  /\ Store.count_rows (final r) I_SalesDocumentItem = Some 0.
Proof.
  intros Ra Rc Rs r H. subst r. unfold build_SALT_data in *.
  (* the schema *)
  destruct (only_read_bind _ _ _ _ _ H) as [H0 Hk].
  pose proof (only_read_quiet _ _ _ H0 (never_reads_define_schema _ _ d)) as Q0.
  destruct (define_schema_quiet_store d Q0) as [O0 F0].
  specialize (Hk tt O0). rewrite F0 in Hk.
  rewrite (bind_returned _ _ _ _ O0). cbn [outcome final]. rewrite F0.
  destruct (only_read_bind _ _ _ _ _ Hk) as [HL _]. unfold load_all in *.
  (* addresses *)
  destruct (only_read_bind _ _ _ _ _ HL) as [Ha Hk1].
  pose proof (only_read_quiet _ _ _ Ha
                (never_reads_load_addresses read_parquet schema_store)) as Qa.
  destruct (load_addresses_store read_parquet schema_store _ dfa eq_refl Ra Qa)
    as [Oa Fa].
  specialize (Hk1 tt Oa). rewrite Fa in Hk1.
  (* customers *)
  destruct (only_read_bind _ _ _ _ _ Hk1) as [Hc _].
  pose proof (only_read_quiet _ _ _ Hc
                (never_reads_load_customers read_parquet _)) as Qc.
  destruct (load_customers_store read_parquet
              (after_load I_AddrOrgNamePostalAddress address_columns dfa schema_store)
              _ dfc eq_refl Rc Qc) as [Oc Fc].
  (* the read of the sales documents *)
  assert (OL : outcome (load_all read_parquet schema_store) = Raised e
               /\ final (load_all read_parquet schema_store)
                  = after_load I_Customer customer_columns dfc
                      (after_load I_AddrOrgNamePostalAddress address_columns dfa
                         schema_store)).
  { unfold load_all.
    rewrite (bind_returned _ _ _ _ Oa). cbn [outcome final]. rewrite Fa.
    rewrite (bind_returned _ _ _ _ Oc). cbn [outcome final]. rewrite Fc.
    set (d2 := after_load I_Customer customer_columns dfc _).
    assert (Os : outcome (load_salesdocuments read_parquet d2) = Raised e
                 /\ final (load_salesdocuments read_parquet d2) = d2).
    { unfold load_salesdocuments.
      rewrite bind_print, (bind_read_raised _ _ _ _ _ _ Rs). split; reflexivity. }
    destruct Os as [Os Es].
    rewrite (bind_raised _ _ _ _ Os). cbn [outcome final].
    split; [reflexivity|exact Es]. }
  destruct OL as [OL FL]. unfold load_all in OL, FL.
  rewrite (bind_raised _ _ _ _ OL). cbn [outcome final]. rewrite FL.
  repeat split.
Qed.

End UnreadSalesDocuments.

(** The sample files without the file of the sales documents, on the store
    of a new file: the error of the read leaves the script, and the five
    customers stay in their table. *)
Lemma earlier_loads_stay_committed_witness :
  outcome (build_SALT_data source_without_salesdocuments Store.empty)
  = Raised (Exception "FileNotFoundError" salesdocuments_parquet)
  /\ Store.count_rows
       (final (build_SALT_data source_without_salesdocuments Store.empty)) I_Customer
     = Some 5.
Proof.
  assert (H : only_read_raised salesdocuments_parquet sales_doc_columns
                (trace (build_SALT_data source_without_salesdocuments Store.empty))).
  { vm_compute.
    repeat (apply Forall_cons; [first [left; reflexivity|right; reflexivity]|]).
    apply Forall_nil. }
  destruct (earlier_loads_stay_committed source_without_salesdocuments Store.empty
              three_addresses five_customers
              (Exception "FileNotFoundError" salesdocuments_parquet)
              eq_refl eq_refl eq_refl H) as (O & _ & _ & _ & T & _).
  split; [exact O|]. unfold Store.count_rows. rewrite T. reflexivity.
Defined.

(** ** The text of a date and of a time *)

Lemma little_digit_value (n : nat) (d : Decimal.uint) :
  DecimalNat.Unsigned.of_lu (little_digit n d)
  = n mod 10 + 10 * DecimalNat.Unsigned.of_lu d.
Proof.
  unfold little_digit. pose proof (Nat.mod_upper_bound n 10) as U.
  rewrite DecimalNat.Unsigned.of_lu_eqn.
  destruct (n mod 10) as [|[|[|[|[|[|[|[|[|[|k]]]]]]]]]];
    cbn [DecimalNat.Unsigned.hd DecimalNat.Unsigned.tl]; try reflexivity.
  lia.
Qed.

Lemma little_digits_value (w n : nat) :
  DecimalNat.Unsigned.of_lu (little_digits w n) = n mod 10 ^ w.
Proof.
  revert n. induction w as [|w IH]; intros n; cbn [little_digits].
  - reflexivity.
  - rewrite little_digit_value, IH, Nat.pow_succ_r'.
    symmetry. apply Nat.Div0.mod_mul_r.
Qed.

Lemma nb_little_digits (w n : nat) : Decimal.nb_digits (little_digits w n) = w.
Proof.
  revert n. induction w as [|w IH]; intros n; cbn [little_digits]; [reflexivity|].
  unfold little_digit.
  destruct (n mod 10) as [|[|[|[|[|[|[|[|[|k]]]]]]]]]; cbn; now rewrite IH.
Qed.

Lemma append_assoc (a b c : string) : ((a ++ b) ++ c = a ++ (b ++ c))%string.
Proof. induction a as [|x a IH]; cbn; [reflexivity|]. now rewrite IH. Qed.

Lemma string_of_revapp (d acc : Decimal.uint) :
  (NilEmpty.string_of_uint (Decimal.revapp d acc)
   = NilEmpty.string_of_uint (Decimal.rev d) ++ NilEmpty.string_of_uint acc)%string.
Proof.
  revert acc. unfold Decimal.rev.
  induction d as [|d IH|d IH|d IH|d IH|d IH|d IH|d IH|d IH|d IH|d IH]; intros acc;
    cbn [Decimal.revapp];
    [reflexivity|..];
    rewrite IH, (IH (_ Decimal.Nil)); cbn [NilEmpty.string_of_uint];
    rewrite append_assoc; reflexivity.
Qed.

(** The digits written one by one are those of the decimal number. *)
Lemma digits_little_digits (w n : nat) :
  digits w n = NilEmpty.string_of_uint (Decimal.rev (little_digits w n)).
Proof.
  revert n. induction w as [|w IH]; intros n; cbn [little_digits digits]; [reflexivity|].
  rewrite IH. unfold little_digit, digit, Decimal.rev at 2.
  destruct (n mod 10) as [|[|[|[|[|[|[|[|[|k]]]]]]]]]; cbn [Decimal.revapp];
    rewrite string_of_revapp; reflexivity.
Qed.

Lemma length_string_of_uint (d : Decimal.uint) :
  String.length (NilEmpty.string_of_uint d) = Decimal.nb_digits d.
Proof. induction d; cbn; congruence. Qed.

Lemma string_of_iter_D0 (k : nat) (d : Decimal.uint) :
  (NilEmpty.string_of_uint (Nat.iter k Decimal.D0 d)
   = zeros k ++ NilEmpty.string_of_uint d)%string.
Proof.
  induction k as [|k IH]; [reflexivity|].
  change (Nat.iter (S k) Decimal.D0 d) with (Decimal.D0 (Nat.iter k Decimal.D0 d)).
  cbn [NilEmpty.string_of_uint zeros append]. now rewrite IH.
Qed.

(** [str(n).zfill(w)], that is [%0wd], is the [w] digits of a number below
    [10 ^ w]. *)
Lemma zfill_decimal (w n : nat) :
  0 < w -> n < 10 ^ w -> zfill w (decimal n) = digits w n.
Proof.
  intros W N. rewrite digits_little_digits.
  set (D := Decimal.rev (little_digits w n)).
  assert (V : Nat.of_uint D = n).
  { unfold D.
    rewrite DecimalNat.Unsigned.of_uint_alt, DecimalFacts.rev_rev, little_digits_value.
    now apply Nat.mod_small. }
  assert (L : Decimal.nb_digits D = w).
  { unfold D. now rewrite DecimalFacts.nb_digits_rev, nb_little_digits. }
  assert (NN : D <> Decimal.Nil).
  { apply DecimalFacts.nb_digits_n0. lia. }
  unfold decimal. rewrite <- V at 1. rewrite DecimalNat.Unsigned.to_of.
  assert (U : NilZero.string_of_uint (Decimal.unorm D)
              = NilEmpty.string_of_uint (Decimal.unorm D)).
  { unfold Decimal.unorm. destruct (Decimal.nzhead D) eqn:E; reflexivity. }
  unfold zfill. rewrite U, length_string_of_uint, <- string_of_iter_D0, <- L.
  now rewrite DecimalFacts.iter_D0_unorm.
Qed.

(** The text of a date is [YYYY-MM-DD]. *)
Lemma py_str_date (y m d : nat) :
  y < 10 ^ 4 -> m < 10 ^ 2 -> d < 10 ^ 2 ->
  py_str (PyDate y m d) = iso_date y m d.
Proof.
  intros Y M D. unfold py_str, iso_date.
  rewrite !zfill_decimal by (assumption || apply Nat.lt_0_succ). reflexivity.
Qed.

(** The text of a time is [HH:MM:SS], with the microsecond when it is not 0. *)
Lemma py_str_time (h mi s us : nat) :
  h < 10 ^ 2 -> mi < 10 ^ 2 -> s < 10 ^ 2 -> us < 10 ^ 6 ->
  py_str (PyTime h mi s us) = iso_time h mi s us.
Proof.
  intros Hh Hm Hs Hu. unfold py_str, iso_time.
  rewrite !zfill_decimal by (assumption || apply Nat.lt_0_succ). reflexivity.
Qed.

(** What the conversion made of a cell, text or missing, the store keeps as
    it is. *)
Lemma adapted_astype_cell (v : value) : Store.adapted (astype_cell v) = astype_cell v.
Proof. now destruct v. Qed.

(** A row of fourteen cells fills the columns of a sales document one by
    one. *)
Lemma bound_sales_doc_columns (r : row) :
  List.length r = List.length sales_doc_columns ->
  map (Store.bound sales_doc_columns r) sales_doc_columns = r.
Proof.
  intros L. do 15 (destruct r as [|? r]; try discriminate L). reflexivity.
Qed.

Section NormalisedDates.
Context {Conn : Type} `{Connection Conn}.
Variable read_parquet : string -> list string -> result DataFrame.

(** C7. For a frame of sales documents with the columns asked for: in a run
    of the script in which no call raised, the rows handed to the inserts
    into I_SalesDocument are the rows of the frame, in their order, with the
    creation date and the creation time converted and the other cells as
    they were; the conversion turns every date into the text YYYY-MM-DD and
    every time into the text HH:MM:SS (followed by the six digits of the
    microsecond when it is not 0), the native date 2024-03-01 into the text
    2024-03-01; and on the store, after a run in which no call raised, every
    row read back from I_SalesDocument is a row of the frame with that text
    in the two columns, as in the sample run, whose row reads back with the
    texts 2024-03-01 and 09:05:00. *)
Theorem creation_date_and_time_as_text (c : Conn) (df : DataFrame) :
  quiet (trace (build_SALT_data read_parquet c)) ->
  read_parquet salesdocuments_parquet sales_doc_columns = Returned df ->
  df_columns df = sales_doc_columns ->
  (forall r, In r (df_rows df) -> List.length r = List.length (df_columns df)) ->
  List.concat (inserted_into I_SalesDocument
                 (events (trace (build_SALT_data read_parquet c))))
  = map normalise_row (df_rows df)
  /\ (forall r, In r (df_rows df) ->
        exists date time,
          nth_error r 12 = Some date
          /\ nth_error r 13 = Some time
          /\ nth_error (normalise_row r) 12 = Some (astype_cell date)
          /\ nth_error (normalise_row r) 13 = Some (astype_cell time)
          /\ forall i, i <> 12 -> i <> 13 ->
                       nth_error (normalise_row r) i = nth_error r i)
  /\ (forall y m d, y < 10 ^ 4 -> m < 10 ^ 2 -> d < 10 ^ 2 ->
        astype_cell (PyDate y m d) = PyStr (iso_date y m d))
  /\ (forall h mi s us, h < 10 ^ 2 -> mi < 10 ^ 2 -> s < 10 ^ 2 -> us < 10 ^ 6 ->
        astype_cell (PyTime h mi s us) = PyStr (iso_time h mi s us))
  /\ astype_cell (PyDate 2024 3 1) = PyStr "2024-03-01"
  /\ (forall d : Store.database,
        quiet (trace (build_SALT_data read_parquet d)) ->
        exists rows,
          Store.select_all (final (build_SALT_data read_parquet d)) I_SalesDocument
          = Some rows
          /\ forall row, In row rows ->
               exists r,
                 In r (df_rows df)
                 /\ row = stored (normalise_row r)
                 /\ nth_error row 12 = option_map astype_cell (nth_error r 12)
                 /\ nth_error row 13 = option_map astype_cell (nth_error r 13))
  /\ option_map (map (fun r => (nth_error r 12, nth_error r 13)))
       (Store.select_all (final sample_store_run) I_SalesDocument)
     = Some [(Some (PyStr "2024-03-01"), Some (PyStr "09:05:00"))].
Proof.
  intros Q R C W.
  assert (Cells : forall r, In r (df_rows df) ->
            exists date time,
              nth_error r 12 = Some date
              /\ nth_error r 13 = Some time
              /\ nth_error (normalise_row r) 12 = Some (astype_cell date)
              /\ nth_error (normalise_row r) 13 = Some (astype_cell time)
              /\ forall i, i <> 12 -> i <> 13 ->
                           nth_error (normalise_row r) i = nth_error r i).
  { intros r I. specialize (W r I). rewrite C in W. cbn in W.
    destruct (nth_error r 12) as [date|] eqn:E12.
    2:{ apply nth_error_None in E12. lia. }
    destruct (nth_error r 13) as [time|] eqn:E13.
    2:{ apply nth_error_None in E13. lia. }
    exists date, time. unfold normalise_row.
    split; [reflexivity|]. split; [reflexivity|]. split; [|split].
    - rewrite update_cell_other by discriminate.
      exact (update_cell_same 12 astype_cell r date E12).
    - apply (update_cell_same 13 astype_cell).
      now rewrite update_cell_other by discriminate.
    - intros i N12 N13. rewrite !update_cell_other by congruence. reflexivity. }
  split.
  { destruct (quiet_script_events read_parquet c Q)
      as (dfa & dfc & dfs & df1 & df2 & dfi & _ & _ & Rs & A1 & A2 & _ & E & _).
    rewrite R in Rs. injection Rs as <-.
    rewrite (astype_str_dates _ _ _ C A1 A2) in E. rewrite E.
    rewrite !inserted_into_app.
    rewrite (inserted_into_load _ _ _ _ []).
    rewrite (inserted_into_load _ _ _ _ []).
    rewrite (inserted_into_load _ _ _ _ ["CREATIONDATE"; "CREATIONTIME"]).
    rewrite (inserted_into_load _ _ _ _ []).
    cbn [table_eqb app].
    change (inserted_into I_SalesDocument (map Execute schema_statements))
      with (@nil (list row)).
    change (inserted_into I_SalesDocument [ConnCommit]) with (@nil (list row)).
    change (inserted_into I_SalesDocument [ConnClose; Print _]) with (@nil (list row)).
    cbn [app]. rewrite app_nil_r.
    apply batches_concat. }
  split; [exact Cells|].
  split; [intros y m d Y M D; cbn [astype_cell]; now rewrite py_str_date|].
  split; [intros h mi s us Hh Hm Hs Hu; cbn [astype_cell]; now rewrite py_str_time|].
  split; [reflexivity|].
  split; [|reflexivity].
  intros d Qd.
  destruct (quiet_script_events read_parquet d Qd)
    as (dfa & dfc & dfs & df1 & df2 & dfi & Ra & Rc & Rs & _ & _ & Ri & _ & _).
  rewrite R in Rs. injection Rs as <-.
  destruct (script_on_store read_parquet d dfa dfc df dfi Qd Ra Rc R Ri C) as [_ F].
  rewrite F. unfold Store.select_all, Store.db_tables.
  cbn [Store.db_store Store.lookup Store.tab_I_SalesDocument].
  unfold loaded. cbn [declared schema_statements option_map].
  eexists. split; [reflexivity|].
  intros row I. apply in_map_iff in I. destruct I as (kr & <- & I).
  match type of I with
  | In kr (Store.rel_rows (fold_left _ ?rows ?rel)) =>
      destruct (fold_insert_keeps sales_doc_columns rows rel) as (added & E & _ & A)
  end.
  rewrite E in I. cbn [Store.rel_rows app] in I.
  destruct (A kr I) as (r' & I' & E').
  unfold itertuples, normalise_dates in I'. cbn [df_rows] in I'.
  apply in_map_iff in I'. destruct I' as (r1 & <- & I1).
  apply in_map_iff in I1. destruct I1 as (r & <- & Ir).
  exists r. split; [exact Ir|].
  assert (Er : snd kr = stored (normalise_row r)).
  { rewrite E'. apply bound_sales_doc_columns.
    unfold stored, normalise_row. rewrite length_map, !length_update_cell.
    rewrite (W r Ir), C. reflexivity. }
  split; [exact Er|].
  destruct (Cells r Ir) as (date & time & E12 & E13 & N12 & N13 & _).
  rewrite Er. unfold stored. rewrite !nth_error_map, N12, N13, E12, E13.
  cbn [option_map]. now rewrite !adapted_astype_cell.
Qed.

End NormalisedDates.

(** The sample sales document on the store: its row reaches the insert with
    the date and the time as text. *)
Lemma creation_date_and_time_as_text_witness :
  List.concat (inserted_into I_SalesDocument (events (trace sample_store_run)))
  = map normalise_row (df_rows one_salesdocument)
  /\ map normalise_row (df_rows one_salesdocument)
     = [ [PyStr "S1"; PyStr "O1"; PyStr "G1"; PyStr "T1"; PyStr "01"; PyStr "TA";
          PyStr "0001"; PyStr "10"; PyStr "00"; PyStr "1000"; PyStr "EUR"; PyStr "EXW";
          PyStr "2024-03-01"; PyStr "09:05:00"] ].
Proof.
  assert (Q : quiet (trace sample_store_run)) by (vm_compute; repeat constructor).
  split; [|reflexivity].
  apply (creation_date_and_time_as_text store_source Store.empty
           one_salesdocument Q eq_refl eq_refl).
  intros r [<-|[]]. reflexivity.
Defined.
